(** * Result logging and aggregation of BiomedCoOp evaluation runs

    A shallow embedding of [log_results.py] (log parsing, the few-shot and
    base-to-new CSV ledgers) and of [aggregate_kaggle_results.py] (per-log
    accuracy scan, confidence interval, pivot table), with the properties
    of the system description stated and settled against it, followed
    by [seconds_to_hms] of [analyze_training_times.py], the training
    log of [train.py], and further properties of all four.

    Modelling conventions.
    - Python [str] is [string] (byte strings; [\d] is the ASCII digits).
    - Python [float] is an exact rational [Q]: the code only parses
      decimal literals, adds, multiplies, divides and prints with two
      decimals.  There is no nan or infinity.  [np.std] and [np.sqrt]
      yield a real number [R].
    - A raised exception is the [Raise] case of [result].
    - A CSV file is the list of its records, each a list of cells; the
      quoting done by the [csv] module is not modelled.
    - [print] is only modelled where building its argument can raise. *)

From Stdlib Require Import ZArith QArith Qround Qabs Reals Qreals Lra Lia.
From Stdlib Require Import Ascii String DecimalString.
From Stdlib Require DecimalFacts DecimalPos DecimalN.
From stdpp Require Import gmap strings list.

Close Scope Q_scope.
Close Scope R_scope.
Open Scope string_scope.
Open Scope list_scope.
Open Scope Z_scope.

(** ** Python values, exceptions *)

Module Py.

Inductive exn := ValueError | TypeError | KeyError | SystemExit.

Inductive result (A : Type) :=
| Ok (a : A)
| Raise (e : exn).
Arguments Ok {A} a.
Arguments Raise {A} e.

Definition bind {A B} (r : result A) (k : A -> result B) : result B :=
  match r with
  | Ok a => k a
  | Raise e => Raise e
  end.

Notation "'let*' x ':=' r 'in' k" := (bind r (fun x => k))
  (at level 10, x pattern, r at level 100, k at level 200).

(** The values that end up in the dictionaries of the two scripts. *)
Inductive val :=
| VNone
| VStr (s : string)
| VInt (z : Z)
| VFloat (q : Q)
| VList (l : list string).

(** Truth value of an object, as tested by [if x], [x or y], [x and y]. *)
Definition truthy (v : val) : bool :=
  match v with
  | VNone => false
  | VStr s => negb (String.eqb s "")
  | VInt z => negb (z =? 0)%Z
  | VFloat q => negb (Qeq_bool q 0)
  | VList l => match l with [] => false | _ => true end
  end.

(** *** Characters and strings *)

Definition is_digit (c : ascii) : bool :=
  let n := nat_of_ascii c in (48 <=? n)%nat && (n <=? 57)%nat.

(** [str.isspace] on ASCII: tab, LF, VT, FF, CR, FS, GS, RS, US, space. *)
Definition is_space (c : ascii) : bool :=
  let n := nat_of_ascii c in
  ((9 <=? n)%nat && (n <=? 13)%nat) || ((28 <=? n)%nat && (n <=? 32)%nat).

Fixpoint lstrip (s : string) : string :=
  match s with
  | String c s' => if is_space c then lstrip s' else s
  | EmptyString => EmptyString
  end.

Fixpoint rstrip (s : string) : string :=
  match s with
  | String c s' =>
      match rstrip s' with
      | EmptyString => if is_space c then EmptyString else String c EmptyString
      | r => String c r
      end
  | EmptyString => EmptyString
  end.

(** [s.strip()] *)
Definition strip (s : string) : string := rstrip (lstrip s).

(** [sub in s] *)
Fixpoint contains (sub s : string) : bool :=
  String.prefix sub s ||
  match s with
  | String _ s' => contains sub s'
  | EmptyString => false
  end.

(** [f.readlines()] in text mode: a line ends after LF, CR LF or CR, and
    the terminator is read as a single LF. *)
Fixpoint readlines_aux (cur : string) (skip_lf : bool) (s : string) : list string :=
  match s with
  | EmptyString => match cur with EmptyString => [] | _ => [cur] end
  | String c s' =>
      if Ascii.eqb c "010" then
        if skip_lf then readlines_aux cur false s'
        else (cur +:+ String "010" EmptyString) :: readlines_aux EmptyString false s'
      else if Ascii.eqb c "013" then
        (cur +:+ String "010" EmptyString) :: readlines_aux EmptyString true s'
      else readlines_aux (cur +:+ String c EmptyString) false s'
  end.

Definition readlines (text : string) : list string :=
  readlines_aux EmptyString false text.

(** *** Numbers and their text *)

Definition string_of_nat_Z (n : Z) : string :=
  NilZero.string_of_uint (N.to_uint (Z.to_N n)).

(** [str(z)] for an [int] *)
Definition str_int (z : Z) : string :=
  if z <? 0 then "-" +:+ string_of_nat_Z (- z) else string_of_nat_Z z.

Fixpoint zeros (k : nat) : string :=
  match k with
  | O => EmptyString
  | S k' => String "0" (zeros k')
  end.

Definition zero_pad (k : nat) (s : string) : string :=
  zeros (k - String.length s) +:+ s.

(** The decimal numeral of [n / 10^k] with exactly [k] fractional digits,
    for [0 <= n] and [0 < k]. *)
Definition fixed_point (n : Z) (k : nat) : string :=
  let p := 10 ^ Z.of_nat k in
  string_of_nat_Z (n / p) +:+ "." +:+ zero_pad k (string_of_nat_Z (n mod p)).

(** Round to the nearest integer, ties to even. *)
Definition round_half_even (q : Q) : Z :=
  let fl := Qfloor q in
  match Qcompare (q - inject_Z fl) (1 # 2) with
  | Lt => fl
  | Gt => fl + 1
  | Eq => if Z.even fl then fl else fl + 1
  end.

(** [f"{q:.2f}"] for a [float] *)
Definition format_2f (q : Q) : string :=
  let body := fixed_point (round_half_even (Qabs q * 100)) 2 in
  if Qlt_le_dec q 0 then "-" +:+ body else body.

(** The least [k <= fuel + start] with [q * 10^k] an integer, if any. *)
Fixpoint decimal_places (fuel : nat) (k : nat) (q : Q) : option nat :=
  if (Qden (Qred q) =? 1)%positive then Some k
  else match fuel with
       | O => None
       | S fuel' => decimal_places fuel' (S k) (q * 10)
       end.

(** [str(q)] and [repr(q)] for a [float]: the shortest decimal numeral
    with at least one fractional digit; a value without a decimal
    expansion of at most 17 places is printed rounded to 17 places.
    Exponent notation is not modelled. *)
Definition repr_float (q : Q) : string :=
  let k := match decimal_places 17 0 (Qabs q) with
           | Some O => 1%nat
           | Some k => k
           | None => 17%nat
           end in
  let body := fixed_point (round_half_even (Qabs q * inject_Z (10 ^ Z.of_nat k))) k in
  if Qlt_le_dec q 0 then "-" +:+ body else body.

(** [str(v)] as the [csv] writer applies it to a cell; [None] is written
    as the empty cell. *)
Definition str (v : val) : string :=
  match v with
  | VNone => ""
  | VStr s => s
  | VInt z => str_int z
  | VFloat q => repr_float q
  | VList l => "[" +:+ String.concat ", " l +:+ "]"
  end.

(** Longest prefix of characters satisfying [p], and the rest. *)
Fixpoint span (p : ascii -> bool) (s : string) : string * string :=
  match s with
  | String c s' =>
      if p c then let '(a, b) := span p s' in (String c a, b) else (EmptyString, s)
  | EmptyString => (EmptyString, EmptyString)
  end.

Definition digit_value (c : ascii) : Z := Z.of_nat (nat_of_ascii c) - 48.

Fixpoint digits_value (acc : Z) (s : string) : Z :=
  match s with
  | String c s' => digits_value (10 * acc + digit_value c) s'
  | EmptyString => acc
  end.

(** An optional sign: [(negative, rest)]. *)
Definition take_sign (s : string) : bool * string :=
  match s with
  | String "-" s' => (true, s')
  | String "+" s' => (false, s')
  | _ => (false, s)
  end.

(** [m * 10^e] as a reduced fraction. *)
Definition scale10 (m e : Z) : Q :=
  if 0 <=? e then inject_Z (m * 10 ^ e)
  else Qred (m # Z.to_pos (10 ^ (- e))).

(** [float(s)] for a string: optional sign, digits with at most one
    point and at least one digit, optional exponent; surrounding white
    space is ignored.  Anything else raises [ValueError] (the literals
    [inf], [nan] and digit separators are not modelled). *)
Definition float_of_string (s : string) : result Q :=
  let '(neg, s1) := take_sign (strip s) in
  let '(ip, s2) := span is_digit s1 in
  let '(fp, s3) :=
    match s2 with
    | String "." s2' => span is_digit s2'
    | _ => (EmptyString, s2)
    end in
  if (String.length ip + String.length fp =? 0)%nat then Raise ValueError
  else
    let mant := digits_value 0 (ip +:+ fp) in
    let mant := if neg then - mant else mant in
    let frac := Z.of_nat (String.length fp) in
    match s3 with
    | EmptyString => Ok (scale10 mant (- frac))
    | String c s4 =>
        if Ascii.eqb c "e" || Ascii.eqb c "E" then
          let '(eneg, s5) := take_sign s4 in
          let '(ed, s6) := span is_digit s5 in
          match ed, s6 with
          | String _ _, EmptyString =>
              let e := digits_value 0 ed in
              Ok (scale10 mant ((if eneg then - e else e) - frac))
          | _, _ => Raise ValueError
          end
        else Raise ValueError
    end.

(** [float(v)] *)
Definition float (v : val) : result Q :=
  match v with
  | VFloat q => Ok q
  | VInt z => Ok (inject_Z z)
  | VStr s => float_of_string s
  | VNone | VList _ => Raise TypeError
  end.

(** [f"{v:.2f}"]: the format code [f] is refused for a string, [None]
    and a list. *)
Definition format_2f_val (v : val) : result string :=
  match v with
  | VFloat q => Ok (format_2f q)
  | VInt z => Ok (format_2f (inject_Z z))
  | VStr _ => Raise ValueError
  | VNone | VList _ => Raise TypeError
  end.

(** *** Control and regular expressions *)

Fixpoint foldM {A B} (f : B -> A -> result B) (l : list A) (b : B) : result B :=
  match l with
  | [] => Ok b
  | x :: l' => let* b' := f b x in foldM f l' b'
  end.

(** [s] without its prefix [p], when it starts with [p]. *)
Fixpoint strip_prefix (p s : string) : option string :=
  match p, s with
  | EmptyString, _ => Some s
  | String a p', String b s' => if Ascii.eqb a b then strip_prefix p' s' else None
  | String _ _, EmptyString => None
  end.

(** A match of [<lit>([cls]+)%] anchored at the start of [s]: its group.
    The class never contains the percent sign, so the greedy run of the
    class is the only candidate for the group. *)
Definition match_here (lit : string) (cls : ascii -> bool) (s : string) : option string :=
  match strip_prefix lit s with
  | Some rest =>
      match span cls rest with
      | (String c g, String "%" _) => Some (String c g)
      | _ => None
      end
  | None => None
  end.

(** [re.search(<lit>([cls]+)%, s)]: group 1 of the leftmost match. *)
Fixpoint re_search (lit : string) (cls : ascii -> bool) (s : string) : option string :=
  match match_here lit cls s with
  | Some g => Some g
  | None =>
      match s with
      | String _ s' => re_search lit cls s'
      | EmptyString => None
      end
  end.

End Py.

(** ** numpy *)

Module Np.

Definition sum (l : list Q) : Q := fold_right Qplus 0%Q l.

(** [np.mean(l)] for a non-empty list *)
Definition mean (l : list Q) : Q := (sum l / inject_Z (Z.of_nat (length l)))%Q.

(** [np.var(l)] with the default [ddof=0]: the mean of [|x - mean|^2] *)
Definition var (l : list Q) : Q :=
  let m := mean l in
  mean (map (fun x => (Qabs (x - m) * Qabs (x - m))%Q) l).

(** [np.std(l)]: the square root of [np.var(l)] *)
Definition std (l : list Q) : R := sqrt (Q2R (var l)).

End Np.

(** ** log_results.py *)

Module LogResults.
Import Py.

Inductive task_t := FewShot | Base2New.
Inductive subtask_t := Base | New.

(** The parsed command line. *)
Record args := {
  task : task_t;
  log_file : string;
  model : string;
  dataset : string;
  shot : Z;
  seed : Z;
  eval_time : option Q;
  checkpoint : option string;
  subtask : option subtask_t;
  notes : string
}.

(** The files the script touches: log texts and CSV tables by path. *)
Record filesystem := {
  logs : gmap string string;
  tables : gmap string (list (list string))
}.

Definition set_table (path : string) (t : list (list string)) (fs : filesystem) : filesystem :=
  {| logs := logs fs; tables := <[path := t]> (tables fs) |}.

(** Dictionaries: metrics by name, CSV rows by column.  A row read by
    [csv.DictReader] may carry the key [None] (surplus cells). *)
Abbreviation metrics_t := (gmap string val).
Abbreviation row_t := (gmap (option string) val).

Definition is_digit_or_dot (c : ascii) : bool := is_digit c || Ascii.eqb c ".".

Definition optional_metrics : list string :=
  ["precision"; "recall"; "f1_score"; "balanced_accuracy"].

(** The pattern [\* <name>: ([\d.]+)%] searched in a line. *)
Definition search_metric (name line : string) : option string :=
  re_search ("* " +:+ name +:+ ": ") is_digit_or_dot line.

Definition record_metric (line : string) (metrics : metrics_t) (name : string)
  : result metrics_t :=
  match search_metric name line with
  | Some g => let* v := float_of_string g in Ok (<[name := VFloat v]> metrics)
  | None => Ok metrics
  end.

(** One iteration of the loop of [parse_log_file] over the state
    [(found_result, metrics)]. *)
Definition parse_line (st : bool * metrics_t) (line : string) : result (bool * metrics_t) :=
  let line := strip line in
  let '(found_result, metrics) := st in
  if contains "=> result" line then Ok (true, metrics)
  else if found_result then
    let* metrics := record_metric line metrics "accuracy" in
    let* metrics := foldM (record_metric line) optional_metrics metrics in
    Ok (found_result, metrics)
  else Ok (found_result, metrics).

Definition parse_lines (lines : list string) : result metrics_t :=
  let* st := foldM parse_line lines (false, ∅) in Ok (snd st).

Definition parse_log_file (fs : filesystem) (log_file_path : string) : result metrics_t :=
  match logs fs !! log_file_path with
  | None => Ok ∅
  | Some text => parse_lines (readlines text)
  end.

(** *** The csv module *)

(** The dictionary [csv.DictReader] builds from one record: cells by
    column, surplus cells under the key [None], missing cells [None]. *)
Definition read_record (fieldnames cells : list string) : row_t :=
  let d := foldl (fun (d : row_t) kv => <[Some (fst kv) := VStr (snd kv)]> d) ∅
             (zip fieldnames cells) in
  if (length fieldnames <? length cells)%nat
  then <[None := VList (drop (length fieldnames) cells)]> d
  else foldl (fun (d : row_t) k => <[Some k := VNone]> d) d (drop (length cells) fieldnames).

Definition nonempty_record (cells : list string) : bool :=
  match cells with [] => false | _ => true end.

(** [list(csv.DictReader(f))]: the first record is the header, empty
    records are skipped. *)
Definition dict_reader (table : list (list string)) : list row_t :=
  match table with
  | [] => []
  | fieldnames :: records => map (read_record fieldnames) (filter nonempty_record records)
  end.

(** [DictWriter._dict_to_list]: a key outside [fieldnames] is refused,
    a missing key stands for the empty cell; the writer then applies
    [str] to each value. *)
Definition wrong_fields (fieldnames : list string) (r : row_t) : bool :=
  negb (forallb (fun k => bool_decide (k ∈ (Some <$> fieldnames))) (elements (dom r))).

Definition row_values (fieldnames : list string) (r : row_t) : list val :=
  map (fun k => default (VStr "") (r !! Some k)) fieldnames.

Definition dict_to_list (fieldnames : list string) (r : row_t) : result (list string) :=
  if wrong_fields fieldnames r then Raise ValueError
  else Ok (map str (row_values fieldnames r)).

(** [writer.writerows(rows)]: the records written before the first
    refused row stay in the file. *)
Fixpoint writerows (fieldnames : list string) (rows : list row_t)
  : list (list string) * result unit :=
  match rows with
  | [] => ([], Ok tt)
  | r :: rows' =>
      match dict_to_list fieldnames r with
      | Ok cells =>
          let '(written, res) := writerows fieldnames rows' in (cells :: written, res)
      | Raise e => ([], Raise e)
      end
  end.

(** [l.insert(-2, x)] *)
Definition insert_m2 (x : string) (l : list string) : list string :=
  let i := (length l - 2)%nat in take i l ++ x :: drop i l.

(** [d[k]] *)
Definition getitem (r : row_t) (k : string) : result val :=
  match r !! Some k with
  | Some v => Ok v
  | None => Raise KeyError
  end.

(** [d.get(k)] *)
Definition get (r : row_t) (k : string) : val := default VNone (r !! Some k).

(** [v == s] for a string [s] *)
Definition eq_str (v : val) (s : string) : bool :=
  match v with
  | VStr s' => String.eqb s' s
  | _ => false
  end.

(** [x or d] for an optional string *)
Definition or_default (x : option string) (d : string) : string :=
  match x with
  | Some s => if String.eqb s "" then d else s
  | None => d
  end.

(** The truth value of [args.eval_time]: the time when it is given and
    not zero. *)
Definition supplied_time (a : args) : option Q :=
  match eval_time a with
  | Some t => if Qeq_bool t 0 then None else Some t
  | None => None
  end.

(** [f"{args.eval_time:.2f}" if args.eval_time else 'N/A'] *)
Definition eval_time_cell (a : args) : val :=
  match supplied_time a with
  | Some t => VStr (format_2f t)
  | None => VStr "N/A"
  end.

(** [metrics.get('accuracy', 'N/A')] *)
Definition accuracy_or_na (metrics : metrics_t) : val :=
  default (VStr "N/A") (metrics !! "accuracy").

(** *** log_few_shot_result *)

Definition few_shot_base_fields : list string :=
  ["model"; "checkpoint_name"; "dataset"; "shot"; "seed";
   "accuracy"; "eval_time"; "timestamp"; "notes"].

Definition few_shot_fieldnames (metrics : metrics_t) : list string :=
  foldl (fun fieldnames metric =>
           if bool_decide (is_Some (metrics !! metric)) then
             if bool_decide (metric ∈ fieldnames) then fieldnames
             else insert_m2 metric fieldnames
           else fieldnames)
        few_shot_base_fields optional_metrics.

Definition few_shot_row (a : args) (metrics : metrics_t) (now : string) : row_t :=
  let row : row_t :=
    <[Some "notes" := VStr (or_default (Some (notes a)) "")]>
    (<[Some "timestamp" := VStr now]>
    (<[Some "eval_time" := eval_time_cell a]>
    (<[Some "accuracy" := accuracy_or_na metrics]>
    (<[Some "seed" := VInt (seed a)]>
    (<[Some "shot" := VInt (shot a)]>
    (<[Some "dataset" := VStr (dataset a)]>
    (<[Some "checkpoint_name" := VStr (or_default (checkpoint a) "N/A")]>
    (<[Some "model" := VStr (model a)]> ∅)))))))) in
  foldl (fun (row : row_t) metric =>
           match metrics !! metric with
           | Some v => <[Some metric := v]> row
           | None => row
           end)
        row optional_metrics.

(** The file is opened for appending; the header is written only when
    the file did not exist; the closing message formats the accuracy
    with [:.2f]. *)
Definition log_few_shot_result (a : args) (metrics : metrics_t) (now : string)
    (fs : filesystem) : filesystem * result unit :=
  let csv_file := "few_shot_" +:+ model a +:+ ".csv" in
  let fieldnames := few_shot_fieldnames metrics in
  let content :=
    match tables fs !! csv_file with
    | Some t => t
    | None => [fieldnames]
    end in
  match dict_to_list fieldnames (few_shot_row a metrics now) with
  | Raise e => (set_table csv_file content fs, Raise e)
  | Ok cells =>
      (set_table csv_file (content ++ [cells]) fs,
       let* _ := format_2f_val (accuracy_or_na metrics) in Ok tt)
  end.

(** *** log_base2new_result *)

Definition base2new_fieldnames : list string :=
  ["model"; "checkpoint_name"; "dataset"; "shot"; "seed";
   "base_acc"; "new_acc"; "harmonic_mean"; "eval_time";
   "timestamp"; "notes"].

(** The test of the search loop; [and] evaluates left to right and
    stops at the first false operand. *)
Definition row_matches (a : args) (r : row_t) : result bool :=
  let* d := getitem r "dataset" in
  if negb (eq_str d (dataset a)) then Ok false else
  let* k := getitem r "shot" in
  if negb (eq_str k (str_int (shot a))) then Ok false else
  let* sd := getitem r "seed" in
  if negb (eq_str sd (str_int (seed a))) then Ok false else
  let* m := getitem r "model" in
  Ok (eq_str m (model a)).

(** Index of the first matching row. *)
Fixpoint find_matching (a : args) (rows : list row_t) (i : nat) : result (option nat) :=
  match rows with
  | [] => Ok None
  | r :: rows' =>
      let* m := row_matches a r in
      if m then Ok (Some i) else find_matching a rows' (S i)
  end.

(** [2 * base * new / (base + new) if (base + new) > 0 else 0] *)
Definition h_mean (base new : Q) : Q :=
  if Qlt_le_dec 0 (base + new) then (2 * base * new / (base + new))%Q else 0%Q.

(** The harmonic mean step of the update branch, with its
    [try ... except (ValueError, TypeError)]. *)
Definition update_harmonic_mean (r : row_t) : result row_t :=
  if truthy (get r "base_acc") && truthy (get r "new_acc") then
    match (let* bv := getitem r "base_acc" in
           let* base := float bv in
           let* nv := getitem r "new_acc" in
           let* new := float nv in
           Ok (h_mean base new)) with
    | Ok h => Ok (<[Some "harmonic_mean" := VStr (format_2f h)]> r)
    | Raise ValueError | Raise TypeError => Ok (<[Some "harmonic_mean" := VStr "N/A"]> r)
    | Raise e => Raise e
    end
  else Ok r.

(** The eval-time step of the update branch. *)
Definition update_eval_time (a : args) (r : row_t) : result row_t :=
  match supplied_time a with
  | Some t =>
      let* current_time := float (default (VInt 0) (r !! Some "eval_time")) in
      Ok (<[Some "eval_time" := VStr (format_2f (current_time + t))]> r)
  | None => Ok r
  end.

(** The update branch on the matching row. *)
Definition update_row (a : args) (metrics : metrics_t) (now : string) (r : row_t)
  : result row_t :=
  let r := match subtask a with
           | Some Base => <[Some "base_acc" := accuracy_or_na metrics]> r
           | _ => <[Some "new_acc" := accuracy_or_na metrics]> r
           end in
  let* r := update_harmonic_mean r in
  let* r := update_eval_time a r in
  Ok (<[Some "timestamp" := VStr now]> r).

(** The row of the creation branch. *)
Definition new_row (a : args) (metrics : metrics_t) (now : string) : row_t :=
  <[Some "notes" := VStr (or_default (Some (notes a)) "")]>
  (<[Some "timestamp" := VStr now]>
  (<[Some "eval_time" := eval_time_cell a]>
  (<[Some "harmonic_mean" := VStr ""]>
  (<[Some "new_acc" :=
       match subtask a with Some New => accuracy_or_na metrics | _ => VStr "" end]>
  (<[Some "base_acc" :=
       match subtask a with Some Base => accuracy_or_na metrics | _ => VStr "" end]>
  (<[Some "seed" := VInt (seed a)]>
  (<[Some "shot" := VInt (shot a)]>
  (<[Some "dataset" := VStr (dataset a)]>
  (<[Some "checkpoint_name" := VStr (or_default (checkpoint a) "N/A")]>
  (<[Some "model" := VStr (model a)]> (∅ : row_t))))))))))).

(** The rows after the find-or-create step.  The matching row is
    updated in place, inside [existing_rows]. *)
Definition merge_rows (a : args) (metrics : metrics_t) (now : string)
    (existing_rows : list row_t) : result (list row_t) :=
  let* found := find_matching a existing_rows 0 in
  match found with
  | Some i =>
      match existing_rows !! i with
      | Some r => let* r' := update_row a metrics now r in Ok (<[i := r']> existing_rows)
      | None => Ok existing_rows
      end
  | None => Ok (existing_rows ++ [new_row a metrics now])
  end.

Definition base2new_csv (a : args) : string := "base2new_" +:+ model a +:+ ".csv".

Definition log_base2new_result (a : args) (metrics : metrics_t) (now : string)
    (fs : filesystem) : filesystem * result unit :=
  let csv_file := base2new_csv a in
  let existing_rows :=
    match tables fs !! csv_file with
    | Some t => dict_reader t
    | None => []
    end in
  match merge_rows a metrics now existing_rows with
  | Raise e => (fs, Raise e)
  | Ok rows =>
      let '(written, res) := writerows base2new_fieldnames rows in
      (set_table csv_file (base2new_fieldnames :: written) fs,
       let* _ := res in
       let* _ := format_2f_val (accuracy_or_na metrics) in Ok tt)
  end.

(** *** main *)

Definition main (a : args) (now : string) (fs : filesystem) : filesystem * result unit :=
  match task a, subtask a with
  | Base2New, None => (fs, Raise SystemExit)
  | _, _ =>
      match parse_log_file fs (log_file a) with
      | Raise e => (fs, Raise e)
      | Ok metrics =>
          let metrics : metrics_t :=
            if bool_decide (metrics = ∅) then {["accuracy" := VStr "N/A"]} else metrics in
          match task a with
          | FewShot => log_few_shot_result a metrics now fs
          | Base2New => log_base2new_result a metrics now fs
          end
      end
  end.

End LogResults.

(** ** aggregate_kaggle_results.py *)

Module Aggregate.
Import Py.

(** [1.96 * np.std(res) / np.sqrt(len(res))] *)
Definition compute_ci95 (res : list Q) : R :=
  (196 / 100 * Np.std res / sqrt (INR (length res)))%R.

Definition end_signal : string := "=> result".

(** The class [[\.\deE+-]] of the accuracy pattern. *)
Definition is_number_char (c : ascii) : bool :=
  is_digit c || Ascii.eqb c "." || Ascii.eqb c "e" || Ascii.eqb c "E"
  || Ascii.eqb c "+" || Ascii.eqb c "-".

Definition metric_regex_search (line : string) : option string :=
  re_search "* accuracy: " is_number_char line.

(** The loop of [parse_single_result] over the lines of one [log.txt]:
    the accuracy appended for this file, if any.  The loop is left at
    the first match. *)
Fixpoint scan_log (good_to_go : bool) (lines : list string) : result (option Q) :=
  match lines with
  | [] => Ok None
  | line :: lines' =>
      let line := strip line in
      let good_to_go := good_to_go || String.eqb line end_signal in
      if good_to_go then
        match metric_regex_search line with
        | Some g => let* acc := float_of_string g in Ok (Some acc)
        | None => scan_log good_to_go lines'
        end
      else scan_log good_to_go lines'
  end.

(** An evaluation directory: its visible entries in sorted order, each
    with the text of its [log.txt] when that is a file. *)
Abbreviation directory_t := (list (string * option string)).

Fixpoint collect_accuracies (subdirs : directory_t) (accuracies : list Q) : result (list Q) :=
  match subdirs with
  | [] => Ok accuracies
  | (_, None) :: subdirs' => collect_accuracies subdirs' accuracies
  | (_, Some text) :: subdirs' =>
      let* found := scan_log false (readlines text) in
      match found with
      | Some acc => collect_accuracies subdirs' (accuracies ++ [acc])
      | None => collect_accuracies subdirs' accuracies
      end
  end.

(** [(mean_acc, std_acc)], or [None] for the pair [(None, None)]. *)
Definition parse_single_result (directory : directory_t) : result (option (Q * R)) :=
  let* accuracies := collect_accuracies directory [] in
  match accuracies with
  | [] => Ok None
  | _ => Ok (Some (Np.mean accuracies, Np.std accuracies))
  end.

Definition datasets : list string :=
  ["btmri"; "busi"; "chmnist"; "covid"; "ctkidney";
   "dermamnist"; "kneexray"; "kvasir"; "lungcolon";
   "octmnist"; "retina"].

Definition shots_list : list Z := [1; 2; 4; 8; 16].

Definition trainer : string := "BiomedCoOp_BiomedCLIP".
Definition config_suffix : string := "nctx4_cscFalse_ctpend".

Definition ends_with_slash (s : string) : bool :=
  match String.rev s with
  | String "/" _ => true
  | _ => false
  end.

(** [osp.join(a, b)] on POSIX *)
Definition path_join (a b : string) : string :=
  match b with
  | String "/" _ => b
  | _ => if String.eqb a "" || ends_with_slash a then a +:+ b else a +:+ "/" +:+ b
  end.

Definition eval_dir (output_dir dataset : string) (k : Z) : string :=
  path_join (path_join (path_join (path_join output_dir dataset)
    ("shots_" +:+ str_int k)) trainer) config_suffix.

Record detailed := {
  d_dataset : string;
  d_shots : Z;
  d_accuracy : Q;
  d_std : R
}.

(** [detailed_results] and [results_by_shots] *)
Abbreviation by_shots_t := (gmap Z (list Q)).
Definition collected : Type := list detailed * by_shots_t.

(** [results_by_shots[k].append(x)] on a [defaultdict(list)] *)
Definition append_by_shots (k : Z) (x : Q) (m : by_shots_t) : by_shots_t :=
  <[k := default [] (m !! k) ++ [x]]> m.

Section Collect.
(** The evaluation directories by path. *)
Variable dirs : gmap string directory_t.
Variable output_dir : string.

(** The body of the inner loop for one dataset and shot value. *)
Definition collect_one (dataset : string) (st : collected) (k : Z) : result collected :=
  match dirs !! eval_dir output_dir dataset k with
  | None => Ok st
  | Some directory =>
      let* parsed := parse_single_result directory in
      match parsed with
      | Some (mean_acc, std_acc) =>
          Ok (fst st ++ [{| d_dataset := dataset; d_shots := k;
                            d_accuracy := mean_acc; d_std := std_acc |}],
              append_by_shots k mean_acc (snd st))
      | None => Ok st
      end
  end.

Definition collect_over (ds : list string) (ks : list Z) : result collected :=
  foldM (fun st dataset => foldM (collect_one dataset) ks st) ds ([], ∅).
End Collect.

(** The rows of [summary_by_shots.csv] before formatting: shots, mean,
    standard deviation and number of datasets. *)
Definition summary_results (ks : list Z) (results_by_shots : by_shots_t)
  : list (Z * Q * R * nat) :=
  omap (fun k =>
          match results_by_shots !! k with
          | Some (x :: l) =>
              let accs := x :: l in Some (k, Np.mean accs, Np.std accs, length accs)
          | _ => None
          end) ks.

(** [pivot_data[result['dataset']][result['shots']] = result['accuracy']] *)
Definition pivot_insert (m : gmap string (gmap Z Q)) (r : detailed) : gmap string (gmap Z Q) :=
  <[d_dataset r := <[d_shots r := d_accuracy r]> (default ∅ (m !! d_dataset r))]> m.

Definition pivot_data_of (detailed_results : list detailed) : gmap string (gmap Z Q) :=
  foldl pivot_insert ∅ detailed_results.

Definition pivot_header (ks : list Z) : list string :=
  "Dataset" :: map (fun k => str_int k +:+ "-shot") ks.

Definition pivot_data_rows (ds : list string) (ks : list Z)
    (pivot_data : gmap string (gmap Z Q)) : list (list string) :=
  omap (fun dataset =>
          match pivot_data !! dataset with
          | Some cells =>
              Some (dataset ::
                    map (fun k => match cells !! k with
                                  | Some v => format_2f v
                                  | None => "N/A"
                                  end) ks)
          | None => None
          end) ds.

Definition pivot_summary_row (ks : list Z) (results_by_shots : by_shots_t) : list string :=
  "AVERAGE" ::
  map (fun k => match results_by_shots !! k with
                | Some (x :: l) => format_2f (Np.mean (x :: l))
                | _ => "N/A"
                end) ks.

(** The records of [pivot_table.csv]. *)
Definition pivot_table (ds : list string) (ks : list Z) (c : collected) : list (list string) :=
  pivot_header ks :: pivot_data_rows ds ks (pivot_data_of (fst c))
    ++ [pivot_summary_row ks (snd c)].

(** The pivot table [main] writes for the given directories. *)
Definition main_pivot (dirs : gmap string directory_t) (output_dir : string)
  : result (list (list string)) :=
  let* c := collect_over dirs output_dir datasets shots_list in
  Ok (pivot_table datasets shots_list c).

End Aggregate.

(** ** Predicates and reference definitions used by the statements *)

(** Shapes of log lines. *)
Module LogShape.
Import Py LogResults Aggregate.

(** The line contains the result marker ([parse_log_file]'s test). *)
Definition has_marker (line : string) : bool := contains "=> result" (strip line).

(** Every number that follows a metric label on the line parses. *)
Definition numbers_ok (line : string) : bool :=
  forallb (fun name =>
             match search_metric name (strip line) with
             | Some g => match float_of_string g with Ok _ => true | Raise _ => false end
             | None => true
             end) ("accuracy" :: optional_metrics).

(** The accuracy text [parse_log_file] reads on an armed line. *)
Definition accuracy_of (line : string) : option string :=
  if has_marker line then None else search_metric "accuracy" (strip line).

(** A line after the marker that leaves the accuracy as it is. *)
Definition silent (line : string) : Prop :=
  accuracy_of line = None /\ (has_marker line || numbers_ok line = true).

(** The line is the result marker ([parse_single_result]'s test). *)
Definition is_end_signal (line : string) : bool := String.eqb (strip line) end_signal.

Definition armed (good_to_go : bool) (lines : list string) : bool :=
  good_to_go || existsb is_end_signal lines.

End LogShape.

(** The two-phase ledger as a table of records. *)
Module Ledger.
Import Py LogResults.

(** The identity of a record: its model, dataset, shot and seed cells. *)
Definition record_key (cells : list string) : string * string * string * string :=
  (nth 0 cells "", nth 2 cells "", nth 3 cells "", nth 4 cells "").

Definition args_key (a : args) : string * string * string * string :=
  (model a, dataset a, str_int (shot a), str_int (seed a)).

Definition key_columns : list string := ["model"; "dataset"; "shot"; "seed"].

(** A row dictionary whose keys are columns of the two-phase table and
    whose identity columns hold the given key as text. *)
Definition row_has_key (r : gmap (option string) val)
    (k : string * string * string * string) : Prop :=
  wrong_fields base2new_fieldnames r = false
  /\ r !! Some "model" = Some (VStr k.1.1.1)
  /\ r !! Some "dataset" = Some (VStr k.1.1.2)
  /\ r !! Some "shot" = Some (VStr k.1.2)
  /\ r !! Some "seed" = Some (VStr k.2).

(** The records of a two-phase table: full rows, one per key. *)
Definition wf_records (recs : list (list string)) : Prop :=
  Forall (fun c => length c = 11%nat) recs /\ NoDup (record_key <$> recs).

Definition wf_table (t : list (list string)) : Prop :=
  exists recs, t = base2new_fieldnames :: recs /\ wf_records recs.

Definition ledger_ok (fs : filesystem) : Prop :=
  forall path t, tables fs !! path = Some t -> wf_table t.

(** The records of the table an ingest for [a] works on. *)
Definition current_records (a : args) (fs : filesystem) : list (list string) :=
  match tables fs !! base2new_csv a with
  | Some t => tail t
  | None => []
  end.

(** A sequence of two-phase ingests, each with its metrics and clock. *)
Definition ingest_all (ops : list (args * gmap string val * string)) (fs : filesystem)
  : filesystem :=
  foldl (fun fs op => fst (log_base2new_result op.1.1 op.1.2 op.2 fs)) fs ops.

(** A sequence of runs of the script, with the outcome of each. *)
Fixpoint run_main (calls : list (args * string)) (fs : filesystem)
  : filesystem * list (result unit) :=
  match calls with
  | [] => (fs, [])
  | (a, now) :: calls' =>
      let '(fs1, r) := main a now fs in
      let '(fs2, rs) := run_main calls' fs1 in
      (fs2, r :: rs)
  end.

End Ledger.

(** The statistics as the system description words them, over the reals. *)
Module StatsSpec.

Definition sum_R (l : list R) : R := fold_right Rplus 0%R l.

Definition mean_R (l : list R) : R := (sum_R l / INR (length l))%R.

(** Population standard deviation: the divisor is the number of values. *)
Definition population_std (l : list R) : R :=
  sqrt (sum_R (map (fun x => ((x - mean_R l) * (x - mean_R l))%R) l) / INR (length l)).

(** Sample-corrected standard deviation: the divisor is one less. *)
Definition sample_std (l : list R) : R :=
  sqrt (sum_R (map (fun x => ((x - mean_R l) * (x - mean_R l))%R) l) / (INR (length l) - 1)).

(** [1.96 × stdDev / sqrt(n)] with the population standard deviation. *)
Definition ci95 (l : list R) : R :=
  (196 / 100 * population_std l / sqrt (INR (length l)))%R.

End StatsSpec.

Module PivotSpec.
Import Py Aggregate.

(** The pivot of the system description: rows in [rowOrder] that have
    at least one cell, every column of [colOrder], the sentinel for a
    missing cell, and a marginal row of sparse means. *)
Section Spec.
Variable cell : string -> Z -> option Q.

Definition render (v : option Q) : string :=
  match v with
  | Some q => format_2f q
  | None => "N/A"
  end.

Definition row_present (ks : list Z) (d : string) : bool :=
  existsb (fun k => bool_decide (is_Some (cell d k))) ks.

Definition data_row (ks : list Z) (d : string) : option (list string) :=
  if row_present ks d then Some (d :: map (fun k => render (cell d k)) ks) else None.

Definition column_values (ds : list string) (k : Z) : list Q :=
  omap (fun d => cell d k) ds.

Definition marginal (ds : list string) (k : Z) : string :=
  match column_values ds k with
  | [] => "N/A"
  | vs => format_2f (Np.mean vs)
  end.

Definition build_pivot (ds : list string) (ks : list Z) : list (list string) :=
  pivot_header ks :: omap (data_row ks) ds ++ ["AVERAGE" :: map (marginal ds) ks].
End Spec.

Section Found.
Variable dirs : gmap string (list (string * option string)).
Variable output_dir : string.

(** What [main] finds for a dataset and shot value: the result of
    [parse_single_result] on the evaluation directory, if it exists. *)
Definition found (d : string) (k : Z) : option (Q * R) :=
  match dirs !! eval_dir output_dir d k with
  | Some directory =>
      match parse_single_result directory with
      | Ok (Some r) => Some r
      | _ => None
      end
  | None => None
  end.

(** The record set: the mean accuracy of each dataset and shot value. *)
Definition observed (d : string) (k : Z) : option Q := fst <$> found d k.

(** No log under the evaluation directories holds a malformed number. *)
Definition parses (ds : list string) (ks : list Z) : Prop :=
  forall d k directory,
    d ∈ ds -> k ∈ ks -> dirs !! eval_dir output_dir d k = Some directory ->
    exists accuracies, collect_accuracies directory [] = Ok accuracies.

(** The loop body of [main] when nothing raises. *)
Definition step (d : string) (st : collected) (k : Z) : collected :=
  match found d k with
  | Some (m, s) =>
      (fst st ++ [{| d_dataset := d; d_shots := k; d_accuracy := m; d_std := s |}],
       append_by_shots k m (snd st))
  | None => st
  end.

Definition step_pair (st : collected) (p : string * Z) : collected := step p.1 st p.2.

(** The pairs the nested loops visit, in order. *)
Definition pairs (ds : list string) (ks : list Z) : list (string * Z) :=
  concat (map (fun d => map (pair d) ks) ds).

Definition records_of (ps : list (string * Z)) : list detailed :=
  omap (fun p => (fun r => {| d_dataset := p.1; d_shots := p.2;
                              d_accuracy := fst r; d_std := snd r |})
                 <$> found p.1 p.2) ps.

Definition values_at (k : Z) (ps : list (string * Z)) : list Q :=
  omap (fun p => if decide (p.2 = k) then observed p.1 p.2 else None) ps.
End Found.

Definition lookup2 (m : gmap string (gmap Z Q)) (d : string) (k : Z) : option Q :=
  m !! d ≫= (fun cells => cells !! k).

End PivotSpec.

(** Concrete logs, runs and directories for the examples. *)
Module Examples.
Import Py LogResults Aggregate.

Definition LF : string := String "010" EmptyString.

(** A log with the marker and one accuracy line. *)
Definition result_log (acc : string) : string :=
  "Evaluate on the *test* set" +:+ LF +:+ "=> result" +:+ LF
  +:+ "* total: 100" +:+ LF +:+ "* accuracy: " +:+ acc +:+ "%" +:+ LF.

Definition two_accuracy_log : string :=
  "=> result" +:+ LF +:+ "* accuracy: 80.0%" +:+ LF +:+ "* accuracy: 60.0%" +:+ LF.

Definition inexact_marker_log : string :=
  "INFO => result summary" +:+ LF +:+ "* accuracy: 5%" +:+ LF.

Definition precision_log : string :=
  "=> result" +:+ LF +:+ "* accuracy: 60.0%" +:+ LF +:+ "* precision: 55.5%" +:+ LF.

Definition one_log (text : string) : filesystem :=
  {| logs := {[ "log.txt" := text ]}; tables := ∅ |}.

Definition some_logs : filesystem :=
  {| logs := {[ "base/log.txt" := result_log "80.0";
                "new/log.txt" := result_log "60.0";
                "zero/log.txt" := result_log "0.0";
                "prec/log.txt" := precision_log ]};
     tables := ∅ |}.

Definition run (t : task_t) (log : string) (sub : option subtask_t) (time : option Q)
  : args :=
  {| task := t; log_file := log; model := "M"; dataset := "btmri";
     shot := 16; seed := 1; eval_time := time; checkpoint := None;
     subtask := sub; notes := "" |}.

Definition seed_dir (acc1 acc2 : string) : list (string * option string) :=
  [("seed1", Some (result_log acc1)); ("seed2", None); ("seed3", Some (result_log acc2))].

Definition some_dirs : gmap string (list (string * option string)) :=
  {[ eval_dir "/out" "btmri" 1 := seed_dir "70" "50";
     eval_dir "/out" "btmri" 2 := seed_dir "90" "50";
     eval_dir "/out" "busi" 1 := seed_dir "81.5" "50";
     eval_dir "/out" "covid" 4 := [("seed1", Some "no marker")] ]}.

End Examples.

(** Shapes of strings and of parsed metric sets. *)
Module MetricShape.
Import Py LogResults.

(** Every character of [s] satisfies [p]. *)
Fixpoint all_chars (p : ascii -> bool) (s : string) : bool :=
  match s with
  | String c s' => p c && all_chars p s'
  | EmptyString => true
  end.

(** The names [parse_log_file] can store a metric under. *)
Definition metric_names : list string := "accuracy" :: optional_metrics.

(** A metric set all of whose entries are non-negative numbers stored
    under one of the metric names. *)
Definition parsed_metrics (m : gmap string val) : Prop :=
  forall k v, m !! k = Some v ->
    k ∈ metric_names /\ exists q, v = VFloat q /\ (0 <= q)%Q.

(** The table a run of the script writes to. *)
Definition target_csv (a : args) : string :=
  match task a with
  | FewShot => "few_shot_" +:+ model a +:+ ".csv"
  | Base2New => base2new_csv a
  end.

End MetricShape.

(** ** analyze_training_times.py and the training log of train.py *)

Module TrainingTimes.
Import Py LogResults.

(** [x // y] and [x % y] for floats with [0 < y], computed exactly: the
    quotient is rounded down and the remainder has the sign of [y]. *)
Definition floordiv (x y : Q) : Q := inject_Z (Qfloor (x / y)).

Definition fmod (x y : Q) : Q := (x - inject_Z (Qfloor (x / y)) * y)%Q.

(** [int(x)] for a float: rounding toward zero. *)
Definition int_of_float (x : Q) : Z :=
  if Qlt_le_dec x 0 then Qceiling x else Qfloor x.

(** [f"{z:02d}"]: the sign counts in the width. *)
Definition format_02d (z : Z) : string :=
  if z <? 0 then "-" +:+ zero_pad 1 (string_of_nat_Z (- z))
  else zero_pad 2 (string_of_nat_Z z).

(** [seconds_to_hms] of analyze_training_times.py. *)
Definition seconds_to_hms (seconds : Q) : string :=
  let hours := int_of_float (floordiv seconds 3600) in
  let minutes := int_of_float (floordiv (fmod seconds 3600) 60) in
  let secs := int_of_float (fmod seconds 60) in
  format_02d hours +:+ ":" +:+ format_02d minutes +:+ ":" +:+ format_02d secs.

(** The attributes of the configuration that [save_training_results]
    reads, each absent when [hasattr] is false. *)
Record cfg_t := {
  DATASET_NAME : option val;
  TRAINER_NAME : option val;
  OPTIM_MAX_EPOCH : option val;
  SEED : option val;
  DATASET_NUM_SHOTS : option val;
  OUTPUT_DIR : option val
}.

Definition training_csv : string := "train-results/training_times.csv".

Definition training_fieldnames : list string :=
  ["timestamp"; "dataset"; "trainer"; "num_shots"; "max_epoch";
   "seed"; "duration_seconds"; "duration_formatted"; "output_dir"].

(** [x if hasattr(...) else 'Unknown'] *)
Definition or_unknown (x : option val) : val := default (VStr "Unknown") x.

Definition training_row (cfg : cfg_t) (training_duration : Q) (now : string)
  : gmap (option string) val :=
  let hours := int_of_float (floordiv training_duration 3600) in
  let minutes := int_of_float (floordiv (fmod training_duration 3600) 60) in
  let seconds := int_of_float (fmod training_duration 60) in
  let formatted_duration :=
    format_02d hours +:+ ":" +:+ format_02d minutes +:+ ":" +:+ format_02d seconds in
  <[Some "output_dir" := or_unknown (OUTPUT_DIR cfg)]>
  (<[Some "duration_formatted" := VStr formatted_duration]>
  (<[Some "duration_seconds" := VStr (format_2f training_duration)]>
  (<[Some "seed" := or_unknown (SEED cfg)]>
  (<[Some "max_epoch" := or_unknown (OPTIM_MAX_EPOCH cfg)]>
  (<[Some "num_shots" := or_unknown (DATASET_NUM_SHOTS cfg)]>
  (<[Some "trainer" := or_unknown (TRAINER_NAME cfg)]>
  (<[Some "dataset" := or_unknown (DATASET_NAME cfg)]>
  (<[Some "timestamp" := VStr now]> ∅)))))))).

(** [save_training_results] of train.py: the file is opened for
    appending and the header is written only when it is not a file yet. *)
Definition save_training_results (cfg : cfg_t) (training_duration : Q) (now : string)
    (fs : filesystem) : filesystem * result unit :=
  let content :=
    match tables fs !! training_csv with
    | Some t => t
    | None => [training_fieldnames]
    end in
  match dict_to_list training_fieldnames (training_row cfg training_duration now) with
  | Raise e => (set_table training_csv content fs, Raise e)
  | Ok cells => (set_table training_csv (content ++ [cells]) fs, Ok tt)
  end.

(** A sequence of training runs, each with its configuration, duration
    and clock. *)
Definition save_all (runs : list (cfg_t * Q * string)) (fs : filesystem) : filesystem :=
  foldl (fun fs r => fst (save_training_results r.1.1 r.1.2 r.2 fs)) fs runs.

(** The cells of the record of one training run. *)
Definition training_cells (r : cfg_t * Q * string) : list string :=
  [r.2; str (or_unknown (DATASET_NAME r.1.1)); str (or_unknown (TRAINER_NAME r.1.1));
   str (or_unknown (DATASET_NUM_SHOTS r.1.1)); str (or_unknown (OPTIM_MAX_EPOCH r.1.1));
   str (or_unknown (SEED r.1.1)); format_2f r.1.2; seconds_to_hms r.1.2;
   str (or_unknown (OUTPUT_DIR r.1.1))].

End TrainingTimes.

(** Row dictionaries of the two-phase table by their values. *)
Module RowCells.
Import Py LogResults.

(** The dictionary [r] has exactly the columns of the two-phase table,
    holding the values [vs] in column order. *)
Definition row_cells (r : gmap (option string) val) (vs : list val) : Prop :=
  wrong_fields base2new_fieldnames r = false
  /\ Forall2 (fun k v => r !! Some k = Some v) base2new_fieldnames vs.

(** The accuracy cells after an update for the given subtask: the cell
    of the phase receives [v], the other one is kept. *)
Definition phase_cells (s : option subtask_t) (v base_cell new_cell : string)
  : string * string :=
  match s with
  | Some Base => (v, new_cell)
  | _ => (base_cell, v)
  end.

(** The cell of the phase that is not being ingested. *)
Definition other_cell (s : option subtask_t) (base_cell new_cell : string) : string :=
  match s with
  | Some Base => new_cell
  | _ => base_cell
  end.

(** The harmonic mean of the ingested accuracy [n] and the other
    phase's accuracy [o], base phase first. *)
Definition phase_mean (s : option subtask_t) (n o : Q) : Q :=
  match s with
  | Some Base => h_mean n o
  | _ => h_mean o n
  end.

End RowCells.

(** The numbers that the texts written to a cell denote. *)
Module CellValues.
Import Py.

(** The number that [f"{q:.2f}"] denotes, for [0 <= q]. *)
Definition round_2 (q : Q) : Q := scale10 (round_half_even (Qabs q * 100)) (- 2).

(** [q] has a decimal expansion of at most 17 places, so that [str]
    prints it exactly. *)
Definition prints_exactly (q : Q) : Prop := decimal_places 17 0 (Qabs q) <> None.

End CellValues.

(** ** Log parsing *)

Module ParseLogTheory.
Import Py LogResults LogShape.

Lemma foldM_app {A B} (f : B -> A -> result B) l1 l2 b :
  foldM f (l1 ++ l2) b = (let* b' := foldM f l1 b in foldM f l2 b').
Proof.
  revert b. induction l1 as [|x l1 IH]; intros b; simpl; [done|].
  destruct (f b x); simpl; auto.
Qed.

Lemma record_metric_other line m name m' :
  name <> "accuracy" ->
  record_metric line m name = Ok m' -> m' !! "accuracy" = m !! "accuracy".
Proof.
  unfold record_metric. intros Hn H.
  destruct (search_metric name line); [|congruence].
  destruct (float_of_string s); simpl in H; [|congruence].
  inversion H; subst. by rewrite lookup_insert_ne.
Qed.

Lemma optional_metrics_accuracy line m m' :
  foldM (record_metric line) optional_metrics m = Ok m' ->
  m' !! "accuracy" = m !! "accuracy".
Proof.
  unfold optional_metrics. simpl. unfold bind.
  repeat match goal with
  | |- context [record_metric line ?x ?n] =>
      let E := fresh "E" in
      destruct (record_metric line x n) eqn:E;
      [apply record_metric_other in E; [|done]|congruence]
  end.
  intros H; inversion H; subst. congruence.
Qed.

Lemma optional_metrics_ok line m :
  numbers_ok line = true ->
  exists m', foldM (record_metric (strip line)) optional_metrics m = Ok m'.
Proof.
  unfold numbers_ok, optional_metrics. simpl. rewrite !andb_true_iff.
  intros (_ & H1 & H2 & H3 & H4 & _). unfold bind, record_metric.
  destruct (search_metric "precision" _); [destruct (float_of_string _); [|done]|];
  (destruct (search_metric "recall" _); [destruct (float_of_string _); [|done]|]);
  (destruct (search_metric "f1_score" _); [destruct (float_of_string _); [|done]|]);
  (destruct (search_metric "balanced_accuracy" _); [destruct (float_of_string _); [|done]|]);
  simpl; eauto.
Qed.

Lemma parse_line_marker st line :
  has_marker line = true -> parse_line st line = Ok (true, snd st).
Proof. unfold has_marker, parse_line. destruct st as [b m]. by intros ->. Qed.

Lemma parse_line_unarmed m line :
  has_marker line = false -> parse_line (false, m) line = Ok (false, m).
Proof. unfold has_marker, parse_line. by intros ->. Qed.

Lemma parse_line_armed m line :
  has_marker line = false ->
  parse_line (true, m) line =
    (let* m1 := record_metric (strip line) m "accuracy" in
     let* m2 := foldM (record_metric (strip line)) optional_metrics m1 in
     Ok (true, m2)).
Proof. unfold has_marker, parse_line. by intros ->. Qed.

Lemma unarmed_prefix pre m :
  Forall (fun l => has_marker l = false) pre ->
  foldM parse_line pre (false, m) = Ok (false, m).
Proof.
  induction 1 as [|l pre Hl _ IH]; cbn [foldM]; [done|].
  by rewrite parse_line_unarmed.
Qed.

Lemma silent_line m line :
  silent line ->
  exists m', parse_line (true, m) line = Ok (true, m')
             /\ m' !! "accuracy" = m !! "accuracy".
Proof.
  unfold silent, accuracy_of. intros [Hacc Hok].
  destruct (has_marker line) eqn:Hm.
  - rewrite parse_line_marker by done. eauto.
  - simpl in Hok. rewrite parse_line_armed by done.
    unfold record_metric at 1. rewrite Hacc. cbn [bind].
    destruct (optional_metrics_ok line m Hok) as [m' Hm'].
    rewrite Hm'. cbn [bind]. eexists; split; [done|].
    by apply optional_metrics_accuracy in Hm'.
Qed.

Lemma silent_suffix post m :
  Forall silent post ->
  exists m', foldM parse_line post (true, m) = Ok (true, m')
             /\ m' !! "accuracy" = m !! "accuracy".
Proof.
  intros H. revert m. induction H as [|l post Hl _ IH]; intros m; cbn [foldM].
  - eauto.
  - destruct (silent_line m l Hl) as (m1 & -> & E1). cbn [bind].
    destruct (IH m1) as (m2 & -> & E2). eexists; split; [done|]. congruence.
Qed.

Lemma accuracy_line m line g v :
  accuracy_of line = Some g -> float_of_string g = Ok v -> numbers_ok line = true ->
  exists m', parse_line (true, m) line = Ok (true, m')
             /\ m' !! "accuracy" = Some (VFloat v).
Proof.
  unfold accuracy_of. intros Hacc Hv Hok.
  destruct (has_marker line) eqn:Hm; [done|].
  rewrite parse_line_armed by done.
  unfold record_metric at 1. rewrite Hacc, Hv. cbn [bind].
  destruct (optional_metrics_ok line (<["accuracy" := VFloat v]> m) Hok) as [m' Hm'].
  rewrite Hm'. cbn [bind]. eexists; split; [done|].
  apply optional_metrics_accuracy in Hm'. rewrite Hm'. apply lookup_insert_eq.
Qed.

End ParseLogTheory.

Module ScanLogTheory.
Import Py Aggregate LogShape.

Lemma scan_log_app b pre rest :
  scan_log b pre = Ok None ->
  scan_log b (pre ++ rest) = scan_log (armed b pre) rest.
Proof.
  revert b. induction pre as [|l pre IH]; intros b; simpl.
  - intros _. unfold armed. simpl. by rewrite orb_false_r.
  - unfold armed. simpl. fold (is_end_signal l). rewrite orb_assoc.
    destruct (b || is_end_signal l) eqn:E; simpl.
    + destruct (metric_regex_search (strip l)).
      * destruct (float_of_string s); simpl; congruence.
      * intros H. rewrite (IH _ H). done.
    + intros H. rewrite (IH _ H). done.
Qed.

Lemma scan_log_unarmed lines :
  existsb is_end_signal lines = false -> scan_log false lines = Ok None.
Proof.
  induction lines as [|l lines IH]; simpl; [done|].
  fold (is_end_signal l). rewrite orb_false_iff. intros [-> H]. auto.
Qed.

Lemma no_end_signal lines :
  Forall (fun l => strip l <> end_signal) lines -> existsb is_end_signal lines = false.
Proof.
  induction 1 as [|l lines Hl _ IH]; simpl; [done|].
  rewrite IH, orb_false_r. unfold is_end_signal. by apply String.eqb_neq.
Qed.

End ScanLogTheory.

Module ExtractionClaims.
Import Py LogResults Aggregate LogShape Examples ParseLogTheory ScanLogTheory.

(** C1, as the claim states it, fails: on a log with the marker followed
    by the accuracy lines 80.0 and 60.0, [parse_log_file] returns 60.0,
    the last match, and not 80.0, the first. *)
Lemma parse_log_file_keeps_last_match :
  exists m, parse_log_file (one_log two_accuracy_log) "log.txt" = Ok m
            /\ m !! "accuracy" = Some (VFloat 60%Q)
            /\ m !! "accuracy" <> Some (VFloat 80%Q).
Proof.
  eexists. split; [vm_compute; reflexivity|]. split; [reflexivity|discriminate].
Qed.

(** C1, amended.  In [parse_log_file] every accuracy line after the
    marker overwrites the previous one: when the marker has been seen,
    a line carries the accuracy [v], and no later line carries an
    accuracy, the result holds [v], whatever accuracy lines came before.
    The per-log scan of [parse_single_result] leaves its loop at the
    first accuracy line at or after the marker, whatever lines follow. *)
Theorem accuracy_last_in_log_first_in_scan :
  (forall pre line post m g v,
     foldM parse_line pre (false, ∅) = Ok (true, m) ->
     accuracy_of line = Some g -> float_of_string g = Ok v ->
     numbers_ok line = true ->
     Forall silent post ->
     exists m', parse_lines (pre ++ line :: post) = Ok m'
                /\ m' !! "accuracy" = Some (VFloat v))
  /\
  (forall pre line post g v,
     scan_log false pre = Ok None ->
     armed false (pre ++ [line]) = true ->
     metric_regex_search (strip line) = Some g -> float_of_string g = Ok v ->
     scan_log false (pre ++ line :: post) = Ok (Some v)).
Proof.
  split.
  - intros pre line post m g v Hpre Hacc Hv Hok Hpost.
    unfold parse_lines. rewrite foldM_app, Hpre. cbn [bind foldM].
    destruct (accuracy_line m line g v Hacc Hv Hok) as (m1 & -> & E1). cbn [bind].
    destruct (silent_suffix post m1 Hpost) as (m2 & -> & E2). cbn [bind snd].
    eexists; split; [done|]. congruence.
  - intros pre line post g v Hpre Harm Hg Hv.
    rewrite scan_log_app by done. cbn [scan_log].
    unfold armed in Harm. rewrite existsb_app in Harm. simpl in Harm.
    rewrite orb_false_r in Harm. unfold armed. simpl.
    fold (is_end_signal line). rewrite Harm, Hg, Hv. done.
Qed.

Lemma accuracy_last_in_log_first_in_scan_witness :
  (exists m', parse_lines (["=> result" +:+ LF; "* accuracy: 80.0%" +:+ LF]
                           ++ ("* accuracy: 60.0%" +:+ LF) :: ["* recall: 7%" +:+ LF])
              = Ok m'
              /\ m' !! "accuracy" = Some (VFloat 60%Q))
  /\ scan_log false (["junk" +:+ LF; "=> result" +:+ LF]
                     ++ ("* accuracy: 80.0%" +:+ LF) :: ["* accuracy: 60.0%" +:+ LF])
     = Ok (Some 80%Q).
Proof.
  split.
  - apply (proj1 accuracy_last_in_log_first_in_scan
             ["=> result" +:+ LF; "* accuracy: 80.0%" +:+ LF]
             ("* accuracy: 60.0%" +:+ LF) ["* recall: 7%" +:+ LF]
             {[ "accuracy" := VFloat 80%Q ]} "60.0" 60%Q).
    + vm_compute; reflexivity.
    + reflexivity.
    + reflexivity.
    + reflexivity.
    + repeat constructor.
  - apply (proj2 accuracy_last_in_log_first_in_scan
             ["junk" +:+ LF; "=> result" +:+ LF]
             ("* accuracy: 80.0%" +:+ LF) ["* accuracy: 60.0%" +:+ LF] "80.0" 80%Q);
      reflexivity.
Defined.

(** C6, as the claim states it, fails: no line of this log is the marker
    itself, yet [parse_log_file] is armed by the line that contains it
    and returns the accuracy. *)
Lemma substring_marker_arms_parse_log_file :
  Forall (fun l => strip l <> "=> result") (readlines inexact_marker_log)
  /\ exists m, parse_log_file (one_log inexact_marker_log) "log.txt" = Ok m
               /\ m !! "accuracy" = Some (VFloat 5%Q).
Proof.
  split.
  - repeat constructor; discriminate.
  - eexists. split; [vm_compute; reflexivity|reflexivity].
Qed.

(** C6, amended.  [parse_log_file] is armed by a line that contains the
    marker: a log none of whose lines contains it yields the empty
    metric set, lines before the first such line have no effect, and the
    marker line itself only arms.  The per-log scan of
    [parse_single_result] is armed only by a line that is the marker
    once stripped: without such a line it finds nothing, and lines
    before it have no effect. *)
Theorem marker_arms_extraction :
  (forall fs path text,
     logs fs !! path = Some text ->
     Forall (fun l => has_marker l = false) (readlines text) ->
     parse_log_file fs path = Ok ∅)
  /\ (forall pre rest,
        Forall (fun l => has_marker l = false) pre ->
        parse_lines (pre ++ rest) = parse_lines rest)
  /\ (forall st line,
        has_marker line = true -> parse_line st line = Ok (true, snd st))
  /\ (forall lines,
        Forall (fun l => strip l <> end_signal) lines ->
        scan_log false lines = Ok None)
  /\ (forall pre rest,
        Forall (fun l => strip l <> end_signal) pre ->
        scan_log false (pre ++ rest) = scan_log false rest).
Proof.
  repeat split.
  - intros fs path text Hlog Hno. unfold parse_log_file, parse_lines.
    rewrite Hlog, unarmed_prefix by done. done.
  - intros pre rest Hno. unfold parse_lines.
    rewrite foldM_app, unarmed_prefix by done. done.
  - intros st line. apply parse_line_marker.
  - intros lines Hno. apply scan_log_unarmed. by apply no_end_signal.
  - intros pre rest Hno. rewrite scan_log_app.
    + unfold armed. rewrite no_end_signal by done. done.
    + apply scan_log_unarmed. by apply no_end_signal.
Qed.

Lemma marker_arms_extraction_witness :
  parse_log_file (one_log ("* accuracy: 5%" +:+ LF)) "log.txt" = Ok ∅
  /\ parse_lines (["* accuracy: 5%" +:+ LF] ++ ["=> result" +:+ LF; "* accuracy: 7%" +:+ LF])
     = parse_lines ["=> result" +:+ LF; "* accuracy: 7%" +:+ LF]
  /\ parse_line (false, ∅) ("x => result * accuracy: 5%" +:+ LF) = Ok (true, ∅)
  /\ scan_log false ["x => result" +:+ LF; "* accuracy: 5%" +:+ LF] = Ok None
  /\ scan_log false (["* accuracy: 5%" +:+ LF] ++ ["=> result" +:+ LF; "* accuracy: 7%" +:+ LF])
     = scan_log false ["=> result" +:+ LF; "* accuracy: 7%" +:+ LF].
Proof.
  destruct marker_arms_extraction as (H1 & H2 & H3 & H4 & H5).
  split; [|split; [|split; [|split]]].
  - apply (H1 (one_log ("* accuracy: 5%" +:+ LF)) "log.txt" ("* accuracy: 5%" +:+ LF)).
    + reflexivity.
    + repeat constructor.
  - apply H2. repeat constructor.
  - apply (H3 (false, ∅)). reflexivity.
  - apply H4. repeat constructor; discriminate.
  - apply H5. repeat constructor; discriminate.
Defined.

End ExtractionClaims.

(** ** The single-phase table *)

Module FewShotTheory.
Import Py LogResults Ledger Examples.

Lemma few_shot_cells a metrics now :
  exists cells,
    dict_to_list (few_shot_fieldnames metrics) (few_shot_row a metrics now) = Ok cells
    /\ length cells = length (few_shot_fieldnames metrics).
Proof.
  unfold dict_to_list.
  assert (H : wrong_fields (few_shot_fieldnames metrics) (few_shot_row a metrics now) = false).
  { unfold few_shot_fieldnames, few_shot_row, optional_metrics. cbn [foldl].
    destruct (metrics !! "precision"), (metrics !! "recall"),
      (metrics !! "f1_score"), (metrics !! "balanced_accuracy");
      vm_compute; reflexivity. }
  rewrite H. eexists; split; [done|]. unfold row_values. by rewrite !length_map.
Qed.

Lemma or_default_notes s : or_default (Some s) "" = s.
Proof. unfold or_default. by destruct (String.eqb_spec s ""). Qed.

Lemma few_shot_unavailable_cells a now :
  dict_to_list few_shot_base_fields (few_shot_row a {[ "accuracy" := VStr "N/A" ]} now)
  = Ok [model a; or_default (checkpoint a) "N/A"; dataset a; str_int (shot a);
        str_int (seed a); "N/A"; str (eval_time_cell a); now; notes a].
Proof.
  unfold dict_to_list, few_shot_row. rewrite or_default_notes.
  generalize (eval_time_cell a) (or_default (checkpoint a) "N/A").
  intros v s.
  match goal with |- context [wrong_fields ?f ?r] =>
    assert (Hw : wrong_fields f r = false) by (vm_compute; reflexivity);
    assert (Hv : row_values f r
                 = [VStr (model a); VStr s; VStr (dataset a); VInt (shot a);
                    VInt (seed a); VStr "N/A"; v; VStr now; VStr (notes a)])
      by (vm_compute; reflexivity)
  end.
  rewrite Hw, Hv. done.
Qed.

Lemma elem_of_insert_m2 (x y : string) (l : list string) :
  x ∈ insert_m2 y l <-> x = y \/ x ∈ l.
Proof.
  unfold insert_m2. cbv zeta. rewrite elem_of_app, elem_of_cons.
  assert (H : x ∈ l <-> x ∈ take (length l - 2) l \/ x ∈ drop (length l - 2) l)
    by (by rewrite <- elem_of_app, take_drop).
  tauto.
Qed.

(** One step of the loop that builds the field list. *)
Lemma fieldnames_step_mono (metrics : gmap string val) fieldnames metric x :
  x ∈ fieldnames ->
  x ∈ (if bool_decide (is_Some (metrics !! metric)) then
         if bool_decide (metric ∈ fieldnames) then fieldnames
         else insert_m2 metric fieldnames
       else fieldnames).
Proof.
  intros Hx. repeat case_bool_decide; try done.
  apply elem_of_insert_m2. by right.
Qed.

Lemma fieldnames_mono (metrics : gmap string val) names fieldnames x :
  x ∈ fieldnames ->
  x ∈ foldl (fun fieldnames metric =>
               if bool_decide (is_Some (metrics !! metric)) then
                 if bool_decide (metric ∈ fieldnames) then fieldnames
                 else insert_m2 metric fieldnames
               else fieldnames) fieldnames names.
Proof.
  revert fieldnames. induction names as [|n names IH]; intros fieldnames Hx; [done|].
  cbn [foldl]. apply IH. by apply fieldnames_step_mono.
Qed.

Lemma fieldnames_adds (metrics : gmap string val) names fieldnames m :
  m ∈ names -> is_Some (metrics !! m) ->
  m ∈ foldl (fun fieldnames metric =>
               if bool_decide (is_Some (metrics !! metric)) then
                 if bool_decide (metric ∈ fieldnames) then fieldnames
                 else insert_m2 metric fieldnames
               else fieldnames) fieldnames names.
Proof.
  revert fieldnames. induction names as [|n names IH]; intros fieldnames Hm Hs.
  - by apply elem_of_nil in Hm.
  - cbn [foldl]. apply elem_of_cons in Hm as [<-|Hm]; [|by apply IH].
    apply fieldnames_mono. rewrite bool_decide_eq_true_2 by done.
    case_bool_decide; [done|]. apply elem_of_insert_m2. by left.
Qed.

Lemma base_fields_kept metrics f :
  f ∈ few_shot_base_fields -> f ∈ few_shot_fieldnames metrics.
Proof. apply fieldnames_mono. Qed.

Lemma optional_fields_added metrics m :
  m ∈ optional_metrics -> is_Some (metrics !! m) -> m ∈ few_shot_fieldnames metrics.
Proof. apply fieldnames_adds. Qed.

(** C2: the failing run.  When the log yields no metrics (in particular
    when its path does not exist) a single-phase ingest appends the row
    with the accuracy cell ["N/A"] and then raises [ValueError]: the
    closing message formats the accuracy, the string ["N/A"], with
    [:.2f]. *)
Theorem unmeasured_few_shot_run_raises a now fs :
  task a = FewShot ->
  parse_log_file fs (log_file a) = Ok ∅ ->
  main a now fs
  = (set_table ("few_shot_" +:+ model a +:+ ".csv")
       (default [few_shot_base_fields]
                (tables fs !! ("few_shot_" +:+ model a +:+ ".csv"))
        ++ [[model a; or_default (checkpoint a) "N/A"; dataset a; str_int (shot a);
             str_int (seed a); "N/A"; str (eval_time_cell a); now; notes a]])
       fs,
     Raise ValueError).
Proof.
  intros Htask Hparse. unfold main. rewrite Htask, Hparse.
  rewrite bool_decide_eq_true_2 by done.
  unfold log_few_shot_result.
  change (few_shot_fieldnames {["accuracy" := VStr "N/A"]}) with few_shot_base_fields.
  rewrite few_shot_unavailable_cells. cbn [format_2f_val accuracy_or_na bind].
  destruct (tables fs !! ("few_shot_" +:+ model a +:+ ".csv")); done.
Qed.

Lemma unmeasured_few_shot_run_raises_witness :
  main (run FewShot "missing/log.txt" None None) "2024-01-01 00:00:00" some_logs
  = (set_table "few_shot_M.csv"
       [few_shot_base_fields;
        ["M"; "N/A"; "btmri"; "16"; "1"; "N/A"; "N/A"; "2024-01-01 00:00:00"; ""]]
       some_logs,
     Raise ValueError).
Proof.
  apply (unmeasured_few_shot_run_raises
           (run FewShot "missing/log.txt" None None) "2024-01-01 00:00:00" some_logs);
    reflexivity.
Defined.

(** C7, as the claim states it, fails: after a first run without
    optional metrics, a run whose log reports a precision leaves the
    header as it was, without a [precision] column, and appends a row of
    ten cells under the nine-column header. *)
Lemma few_shot_header_not_widened :
  let calls := [(run FewShot "new/log.txt" None None, "t1");
                (run FewShot "prec/log.txt" None None, "t2")] in
  snd (run_main calls some_logs) = [Ok tt; Ok tt]
  /\ tables (fst (run_main calls some_logs)) !! "few_shot_M.csv"
     = Some [few_shot_base_fields;
             ["M"; "N/A"; "btmri"; "16"; "1"; "60.0"; "N/A"; "t1"; ""];
             ["M"; "N/A"; "btmri"; "16"; "1"; "60.0"; "N/A"; "55.5"; "t2"; ""]]
  /\ "precision" ∉ few_shot_base_fields.
Proof.
  split; [vm_compute; reflexivity|]. split; [vm_compute; reflexivity|].
  unfold few_shot_base_fields. intros Hin.
  repeat (apply elem_of_cons in Hin as [Hin|Hin]; [discriminate|]).
  by apply elem_of_nil in Hin.
Qed.

(** C7, amended.  The header of a single-phase table is written once,
    when the file is created, and then covers the base columns and every
    optional metric of that first run.  A later write leaves the header
    and all existing records as they are and appends one record laid
    out by the field list of its own run. *)
Theorem few_shot_header_written_once a metrics now fs :
  let csv_file := "few_shot_" +:+ model a +:+ ".csv" in
  (exists cells,
     length cells = length (few_shot_fieldnames metrics)
     /\ tables (fst (log_few_shot_result a metrics now fs)) !! csv_file
        = Some (match tables fs !! csv_file with
                | Some t => t ++ [cells]
                | None => [few_shot_fieldnames metrics; cells]
                end))
  /\ (forall f, f ∈ few_shot_base_fields -> f ∈ few_shot_fieldnames metrics)
  /\ (forall m, m ∈ optional_metrics -> is_Some (metrics !! m) ->
                m ∈ few_shot_fieldnames metrics).
Proof.
  intros csv_file. split; [|split].
  - destruct (few_shot_cells a metrics now) as (cells & Hcells & Hlen).
    exists cells. split; [done|]. unfold log_few_shot_result. fold csv_file.
    rewrite Hcells. cbn [fst]. unfold set_table. cbn [tables].
    rewrite lookup_insert_eq. by destruct (tables fs !! csv_file).
  - apply base_fields_kept.
  - apply optional_fields_added.
Qed.

Lemma few_shot_header_written_once_witness :
  "accuracy" ∈ few_shot_fieldnames {[ "accuracy" := VFloat 60%Q; "recall" := VFloat 7%Q ]}
  /\ "recall" ∈ few_shot_fieldnames {[ "accuracy" := VFloat 60%Q; "recall" := VFloat 7%Q ]}.
Proof.
  destruct (few_shot_header_written_once
              (run FewShot "new/log.txt" None None)
              {[ "accuracy" := VFloat 60%Q; "recall" := VFloat 7%Q ]} "t1" some_logs)
    as (_ & Hbase & Hopt).
  split.
  - apply Hbase. unfold few_shot_base_fields. do 5 right. left.
  - apply Hopt; [unfold optional_metrics; right; left|]. by eexists.
Defined.

End FewShotTheory.

(** ** The two-phase ledger *)

Module LedgerTheory.
Import Py LogResults Ledger Examples.

Lemma wrong_fields_false (fieldnames : list string) (r : row_t) :
  wrong_fields fieldnames r = false <->
  forall k, is_Some (r !! k) -> k ∈ (Some <$> fieldnames).
Proof.
  unfold wrong_fields. rewrite negb_false_iff, forallb_forall. split.
  - intros H k Hk. specialize (H k).
    rewrite bool_decide_eq_true in H. apply H.
    apply list_elem_of_In, elem_of_elements, elem_of_dom. done.
  - intros H k Hk. apply bool_decide_eq_true, H.
    apply list_elem_of_In, elem_of_elements, elem_of_dom in Hk. done.
Qed.

Lemma wrong_fields_insert (fieldnames : list string) (r : row_t) k v :
  k ∈ fieldnames -> wrong_fields fieldnames r = false ->
  wrong_fields fieldnames (<[Some k := v]> r) = false.
Proof.
  rewrite !wrong_fields_false. intros Hk H k' Hk'.
  destruct (decide (Some k = k')) as [<-|Hne].
  - by apply list_elem_of_fmap_2.
  - rewrite lookup_insert_ne in Hk' by done. auto.
Qed.

Lemma row_has_key_insert r key k v :
  k ∈ base2new_fieldnames -> k ∉ key_columns ->
  row_has_key r key -> row_has_key (<[Some k := v]> r) key.
Proof.
  intros Hk Hn (H0 & H1 & H2 & H3 & H4).
  assert (k <> "model" /\ k <> "dataset" /\ k <> "shot" /\ k <> "seed") as (?&?&?&?).
  { unfold key_columns in Hn. repeat split; intros ->; apply Hn; repeat constructor. }
  split; [by apply wrong_fields_insert|].
  rewrite !lookup_insert_ne by congruence. done.
Qed.

Lemma read_record_11 c0 c1 c2 c3 c4 c5 c6 c7 c8 c9 c10 :
  let r := read_record base2new_fieldnames [c0; c1; c2; c3; c4; c5; c6; c7; c8; c9; c10] in
  row_has_key r (c0, c2, c3, c4)
  /\ row_values base2new_fieldnames r
     = VStr <$> [c0; c1; c2; c3; c4; c5; c6; c7; c8; c9; c10].
Proof.
  repeat split; vm_compute; reflexivity.
Qed.

Lemma length_11 (cells : list string) :
  length cells = 11%nat ->
  exists c0 c1 c2 c3 c4 c5 c6 c7 c8 c9 c10,
    cells = [c0; c1; c2; c3; c4; c5; c6; c7; c8; c9; c10].
Proof.
  intros H.
  do 11 (destruct cells as [|? cells]; [discriminate|]).
  destruct cells; [|discriminate]. repeat eexists.
Qed.

Lemma read_record_key cells :
  length cells = 11%nat ->
  row_has_key (read_record base2new_fieldnames cells) (record_key cells).
Proof.
  intros H. destruct (length_11 cells H) as (c0&c1&c2&c3&c4&c5&c6&c7&c8&c9&c10&->).
  apply read_record_11.
Qed.

Lemma map_str_VStr (cells : list string) : map str (VStr <$> cells) = cells.
Proof. induction cells as [|c cells IH]; [done|]. csimpl. by rewrite IH. Qed.

Lemma dict_to_list_read_record cells :
  length cells = 11%nat ->
  dict_to_list base2new_fieldnames (read_record base2new_fieldnames cells) = Ok cells.
Proof.
  intros H. destruct (length_11 cells H) as (c0&c1&c2&c3&c4&c5&c6&c7&c8&c9&c10&->).
  destruct (read_record_11 c0 c1 c2 c3 c4 c5 c6 c7 c8 c9 c10) as [[Hw _] Hv].
  unfold dict_to_list. rewrite Hw, Hv, map_str_VStr. done.
Qed.

Lemma dict_to_list_has_key r key :
  row_has_key r key ->
  exists cells, dict_to_list base2new_fieldnames r = Ok cells
                /\ length cells = 11%nat /\ record_key cells = key.
Proof.
  intros (H0 & H1 & H2 & H3 & H4). unfold dict_to_list. rewrite H0.
  eexists; split; [done|]. split.
  - unfold row_values. rewrite !length_map. done.
  - unfold record_key, row_values, base2new_fieldnames. cbn [map nth].
    rewrite H1, H2, H3, H4. destruct key as [[[? ?] ?] ?]. done.
Qed.

Lemma row_matches_has_key a r key :
  row_has_key r key -> row_matches a r = Ok (bool_decide (key = args_key a)).
Proof.
  intros (H0 & H1 & H2 & H3 & H4). destruct key as [[[m d] k] s].
  unfold row_matches, getitem, args_key. simpl in *.
  rewrite H1, H2, H3, H4. cbn [bind eq_str].
  destruct (String.eqb_spec d (dataset a)); cbn [negb];
    [|rewrite bool_decide_eq_false_2; [done|congruence]].
  destruct (String.eqb_spec k (str_int (shot a))); cbn [negb];
    [|rewrite bool_decide_eq_false_2; [done|congruence]].
  destruct (String.eqb_spec s (str_int (seed a))); cbn [negb];
    [|rewrite bool_decide_eq_false_2; [done|congruence]].
  destruct (String.eqb_spec m (model a)).
  - rewrite bool_decide_eq_true_2; [done|congruence].
  - rewrite bool_decide_eq_false_2; [done|congruence].
Qed.


Lemma float_of_string_raises s e : float_of_string s = Raise e -> e = ValueError.
Proof. unfold float_of_string. repeat case_match; congruence. Qed.

Lemma float_raises v e : float v = Raise e -> e = ValueError \/ e = TypeError.
Proof.
  destruct v; simpl; try (intros [= <-]; auto; fail); try congruence.
  intros H. left. by apply float_of_string_raises in H.
Qed.

Lemma truthy_get (r : row_t) k : truthy (get r k) = true -> exists v, r !! Some k = Some v.
Proof. unfold get. destruct (r !! Some k); simpl; [eauto|discriminate]. Qed.

Lemma update_harmonic_mean_cases r :
  update_harmonic_mean r = Ok r
  \/ exists s, update_harmonic_mean r = Ok (<[Some "harmonic_mean" := VStr s]> r).
Proof.
  unfold update_harmonic_mean.
  destruct (truthy (get r "base_acc") && truthy (get r "new_acc")) eqn:Hc; [|auto].
  apply andb_true_iff in Hc as [Hb Hn].
  apply truthy_get in Hb as [bv Hb]. apply truthy_get in Hn as [nv Hn].
  unfold getitem. rewrite Hb, Hn. cbn [bind]. right.
  destruct (float bv) as [base|e] eqn:Eb; cbn [bind].
  - destruct (float nv) as [new|e] eqn:En; cbn [bind]; [eauto|].
    destruct (float_raises _ _ En) as [-> | ->]; eauto.
  - destruct (float_raises _ _ Eb) as [-> | ->]; eauto.
Qed.

Lemma update_row_has_key a metrics now r r' key :
  row_has_key r key -> update_row a metrics now r = Ok r' -> row_has_key r' key.
Proof.
  intros Hr. unfold update_row.
  set (r1 := match subtask a with
             | Some Base => <[Some "base_acc" := accuracy_or_na metrics]> r
             | _ => <[Some "new_acc" := accuracy_or_na metrics]> r
             end).
  assert (H1 : row_has_key r1 key).
  { subst r1. destruct (subtask a) as [[|]|];
      (apply row_has_key_insert; [vm_compute; repeat constructor
                                 |unfold key_columns; intros Hin;
                                  repeat (apply elem_of_cons in Hin as [Hin|Hin]; [discriminate|]);
                                  by apply elem_of_nil in Hin
                                 |done]). }
  clearbody r1.
  assert (Hins : forall r0 k v, k ∈ ["harmonic_mean"; "eval_time"; "timestamp"] ->
                   row_has_key r0 key -> row_has_key (<[Some k := v]> r0) key).
  { intros r0 k v Hk H0. apply row_has_key_insert; [| |done].
    - repeat (apply elem_of_cons in Hk as [->|Hk]; [vm_compute; repeat constructor|]).
      by apply elem_of_nil in Hk.
    - unfold key_columns. intros Hin.
      repeat (apply elem_of_cons in Hk as [->|Hk];
              [repeat (apply elem_of_cons in Hin as [Hin|Hin]; [discriminate|]);
               by apply elem_of_nil in Hin|]).
      by apply elem_of_nil in Hk. }
  assert (H2 : forall r2, update_harmonic_mean r1 = Ok r2 -> row_has_key r2 key).
  { intros r2. destruct (update_harmonic_mean_cases r1) as [->|[s ->]]; intros [= <-];
      [done|]. apply Hins; [repeat constructor|done]. }
  destruct (update_harmonic_mean r1) as [r2|]; cbn [bind]; [|discriminate].
  specialize (H2 r2 eq_refl).
  unfold update_eval_time. destruct (supplied_time a) as [t|]; cbn [bind].
  - destruct (float _); cbn [bind]; [|discriminate].
    intros [= <-]. apply Hins; [repeat constructor|]. apply Hins; [repeat constructor|done].
  - intros [= <-]. apply Hins; [repeat constructor|done].
Qed.

Lemma new_row_cells a metrics now :
  exists cells, dict_to_list base2new_fieldnames (new_row a metrics now) = Ok cells
                /\ length cells = 11%nat /\ record_key cells = args_key a
                /\ nth 8 cells "" = str (eval_time_cell a).
Proof.
  unfold dict_to_list, new_row.
  generalize (or_default (Some (notes a)) "") (eval_time_cell a)
    (match subtask a with Some New => accuracy_or_na metrics | _ => VStr "" end)
    (match subtask a with Some Base => accuracy_or_na metrics | _ => VStr "" end)
    (or_default (checkpoint a) "N/A").
  intros s1 v2 v3 v4 s5.
  match goal with |- context [wrong_fields ?f ?r] =>
    assert (Hw : wrong_fields f r = false) by (vm_compute; reflexivity);
    assert (Hv : row_values f r
                 = [VStr (model a); VStr s5; VStr (dataset a); VInt (shot a); VInt (seed a);
                    v4; v3; VStr ""; v2; VStr now; VStr s1])
      by (vm_compute; reflexivity)
  end.
  rewrite Hw, Hv. eexists; split; [done|]. repeat split.
Qed.

Lemma find_matching_spec a recs i :
  Forall (fun c => length c = 11%nat) recs ->
  (find_matching a (read_record base2new_fieldnames <$> recs) i = Ok None
   /\ args_key a ∉ (record_key <$> recs))
  \/ exists j c, find_matching a (read_record base2new_fieldnames <$> recs) i = Ok (Some (i + j)%nat)
                 /\ recs !! j = Some c /\ record_key c = args_key a.
Proof.
  intros H. revert i. induction H as [|c recs Hc _ IH]; intros i; csimpl.
  - left. split; [done|]. apply not_elem_of_nil.
  - rewrite (row_matches_has_key a _ (record_key c)) by by apply read_record_key.
    cbn [bind]. case_bool_decide as Hk.
    + right. exists 0%nat, c. rewrite Nat.add_0_r. done.
    + destruct (IH (S i)) as [[-> Hn]|(j & c' & -> & Hj & Hk')].
      * left. split; [done|]. rewrite not_elem_of_cons. split; [congruence|done].
      * right. exists (S j), c'. rewrite Nat.add_succ_r. done.
Qed.

Lemma writerows_ok rows recs :
  Forall2 (fun r c => dict_to_list base2new_fieldnames r = Ok c) rows recs ->
  writerows base2new_fieldnames rows = (recs, Ok tt).
Proof.
  induction 1 as [|r c rows recs Hr _ IH]; cbn [writerows]; [done|].
  rewrite Hr, IH. done.
Qed.

Lemma read_rows_written recs :
  Forall (fun c => length c = 11%nat) recs ->
  Forall2 (fun r c => dict_to_list base2new_fieldnames r = Ok c)
          (read_record base2new_fieldnames <$> recs) recs.
Proof.
  induction 1 as [|c recs Hc _ IH]; csimpl; constructor; [|done].
  by apply dict_to_list_read_record.
Qed.

Lemma filter_nonempty recs :
  Forall (fun c => length c = 11%nat) recs -> filter nonempty_record recs = recs.
Proof.
  induction 1 as [|c recs Hc _ IH]; [done|].
  rewrite filter_cons. destruct c; [discriminate|].
  rewrite decide_True by done. by rewrite IH.
Qed.


Lemma existing_rows_read a fs :
  ledger_ok fs ->
  wf_records (current_records a fs)
  /\ match tables fs !! base2new_csv a with
     | Some t => dict_reader t
     | None => []
     end = read_record base2new_fieldnames <$> current_records a fs
  /\ (is_Some (tables fs !! base2new_csv a) ->
      tables fs !! base2new_csv a = Some (base2new_fieldnames :: current_records a fs)).
Proof.
  intros Hok. unfold current_records.
  destruct (tables fs !! base2new_csv a) as [t|] eqn:Ht.
  - destruct (Hok _ _ Ht) as (recs & -> & Hwf). cbn [tail dict_reader].
    rewrite filter_nonempty by apply Hwf. done.
  - repeat split; [constructor|constructor|]. by intros [? ?].
Qed.

(** One ingest on a well-formed ledger: either the key is new and one
    row is appended, or the row holding the key is rewritten in place. *)
Lemma ingest_step a metrics now fs :
  ledger_ok fs ->
  let fs' := fst (log_base2new_result a metrics now fs) in
  let recs := current_records a fs in
  (forall path, path <> base2new_csv a -> tables fs' !! path = tables fs !! path)
  /\ (((args_key a ∉ (record_key <$> recs))
       /\ exists cells,
            tables fs' !! base2new_csv a = Some (base2new_fieldnames :: recs ++ [cells])
            /\ length cells = 11%nat /\ record_key cells = args_key a)
      \/ (exists j c cells',
            recs !! j = Some c /\ record_key c = args_key a
            /\ length cells' = 11%nat /\ record_key cells' = args_key a
            /\ (cells' = c
                \/ exists r',
                     update_row a metrics now (read_record base2new_fieldnames c) = Ok r'
                     /\ dict_to_list base2new_fieldnames r' = Ok cells')
            /\ tables fs' !! base2new_csv a
               = Some (base2new_fieldnames :: <[j := cells']> recs))).
Proof.
  intros Hok fs' recs. subst fs'.
  destruct (existing_rows_read a fs Hok) as ((Hlen & Hnd) & Hread & Hsome).
  fold recs in Hlen, Hnd, Hread, Hsome.
  unfold log_base2new_result. rewrite Hread. unfold merge_rows.
  destruct (find_matching_spec a recs 0 Hlen) as [[-> Hnew]|(j & c & -> & Hj & Hk)];
    cbn [bind].
  - (* creation *)
    destruct (new_row_cells a metrics now) as (cells & Hcells & Hl & Hkey & _).
    rewrite (writerows_ok _ (recs ++ [cells])).
    2:{ apply Forall2_app; [by apply read_rows_written|].
        constructor; [exact Hcells|constructor]. }
    cbn [fst]. split.
    + intros path Hp. unfold set_table. cbn [tables]. by rewrite lookup_insert_ne.
    + left. split; [exact Hnew|]. exists cells. unfold set_table. cbn [tables].
      rewrite lookup_insert_eq. auto.
  - (* update *)
    cbn [Nat.add]. rewrite list_lookup_fmap, Hj. cbn [fmap option_fmap option_map].
    assert (Hcur : tables fs !! base2new_csv a = Some (base2new_fieldnames :: recs)).
    { apply Hsome. unfold recs, current_records in Hj.
      destruct (tables fs !! base2new_csv a); [done|]. by rewrite lookup_nil in Hj. }
    assert (Hlc : length c = 11%nat).
    { eapply Forall_lookup_1 in Hlen; [|done]. done. }
    destruct (update_row a metrics now (read_record base2new_fieldnames c)) as [r'|e] eqn:Hup;
      cbn [bind].
    + pose proof (read_record_key c Hlc) as Hrk. rewrite Hk in Hrk.
      pose proof (update_row_has_key _ _ _ _ _ _ Hrk Hup) as Hr'.
      destruct (dict_to_list_has_key _ _ Hr') as (cells' & Hcells & Hl & Hkey).
      rewrite (writerows_ok _ (<[j := cells']> recs)).
      2:{ apply Forall2_insert; [by apply read_rows_written|exact Hcells]. }
      cbn [fst]. split.
      * intros path Hp. unfold set_table. cbn [tables]. by rewrite lookup_insert_ne.
      * right. exists j, c, cells'. unfold set_table. cbn [tables].
        rewrite lookup_insert_eq. repeat split; eauto.
    + cbn [fst]. split; [auto|]. right. exists j, c, c.
      rewrite list_insert_id by exact Hj. repeat split; auto.
Qed.

Lemma ingest_preserves a metrics now fs :
  ledger_ok fs -> ledger_ok (fst (log_base2new_result a metrics now fs)).
Proof.
  intros Hok. destruct (ingest_step a metrics now fs Hok) as [Hother Hcases].
  destruct (existing_rows_read a fs Hok) as ((Hlen & Hnd) & _ & _).
  intros path t Ht.
  destruct (decide (path = base2new_csv a)) as [->|Hne].
  2:{ rewrite Hother in Ht by done. eauto. }
  destruct Hcases as [(Hnew & cells & Hc & Hl & Hk)|(j & c & cells' & Hj & Hkc & Hl & Hk & _ & Hc)];
    rewrite Hc in Ht; injection Ht as <-; eexists; (split; [done|]); split.
  - apply Forall_app; split; [done|]. constructor; [exact Hl|constructor].
  - rewrite fmap_app. apply NoDup_app. split; [done|]. split.
    + intros k Hin Hin'. apply list_elem_of_singleton in Hin'. csimpl in Hin'. congruence.
    + apply NoDup_singleton.
  - apply Forall_insert; done.
  - rewrite list_fmap_insert, Hk, <- Hkc. rewrite list_insert_id; [done|].
    by rewrite list_lookup_fmap, Hj.
Qed.

End LedgerTheory.

Module LedgerClaims.
Import Py LogResults Ledger Examples LedgerTheory.

(** *** Harmonic mean *)

(** The accuracy just ingested is a float; the test of the update branch
    takes the float zero for a missing value. *)
Lemma zero_accuracy_skips_harmonic_mean (r : gmap (option string) val) (q : Q) :
  (q == 0)%Q ->
  update_harmonic_mean (<[Some "new_acc" := VFloat q]> r)
  = Ok (<[Some "new_acc" := VFloat q]> r).
Proof.
  intros Hq. apply Qeq_bool_iff in Hq.
  assert (Hf : truthy (get (<[Some "new_acc" := VFloat q]> r) "new_acc") = false).
  { unfold get. rewrite lookup_insert_eq. simpl. by rewrite Hq. }
  unfold update_harmonic_mean. rewrite Hf, andb_false_r. done.
Qed.

(** The example of the system description: 80.0 then 60.0, with the
    times 120 and 30. *)
Lemma base_then_new_example :
  let calls := [(run Base2New "base/log.txt" (Some Base) (Some 120%Q), "t1");
                (run Base2New "new/log.txt" (Some New) (Some 30%Q), "t2")] in
  snd (run_main calls some_logs) = [Ok tt; Ok tt]
  /\ tables (fst (run_main calls some_logs)) !! "base2new_M.csv"
     = Some [base2new_fieldnames;
             ["M"; "N/A"; "btmri"; "16"; "1"; "80.0"; "60.0"; "68.57"; "150.00"; "t2"; ""]].
Proof. split; vm_compute; reflexivity. Qed.

(** C3: the failing run.  After the base accuracy 80.0, ingesting the
    new accuracy 0.0 leaves a record with both accuracies present and
    the harmonic mean empty: the test [if ... and matching_row.get('new_acc')]
    is false for the float 0.0, so the mean (here 0) is not computed. *)
Theorem zero_accuracy_leaves_harmonic_mean_empty :
  let calls := [(run Base2New "base/log.txt" (Some Base) None, "t1");
                (run Base2New "zero/log.txt" (Some New) None, "t2")] in
  snd (run_main calls some_logs) = [Ok tt; Ok tt]
  /\ tables (fst (run_main calls some_logs)) !! "base2new_M.csv"
     = Some [base2new_fieldnames;
             ["M"; "N/A"; "btmri"; "16"; "1"; "80.0"; "0.0"; ""; "N/A"; "t2"; ""]].
Proof. split; vm_compute; reflexivity. Qed.

(** *** Accumulated evaluation time *)

Lemma eval_time_accumulates (a : args) (r : gmap (option string) val)
    (s : string) (c t : Q) :
  supplied_time a = Some t ->
  r !! Some "eval_time" = Some (VStr s) -> float_of_string s = Ok c ->
  update_eval_time a r = Ok (<[Some "eval_time" := VStr (format_2f (c + t))]> r).
Proof.
  intros Ht Hr Hs. unfold update_eval_time. rewrite Ht, Hr. simpl.
  rewrite Hs. done.
Qed.

(** A row created without a time holds ["N/A"], which [float] refuses. *)
Lemma eval_time_after_unavailable (a : args) (r : gmap (option string) val) (t : Q) :
  supplied_time a = Some t ->
  r !! Some "eval_time" = Some (VStr "N/A") ->
  update_eval_time a r = Raise ValueError.
Proof.
  intros Ht Hr. unfold update_eval_time. rewrite Ht, Hr. done.
Qed.

(** C4: the failing run.  The base phase is ingested without a time, so
    the record is created with the time cell ["N/A"]; ingesting the new
    phase with the time 30 then raises [ValueError] at
    [float(matching_row.get('eval_time', 0))] before the table is
    written: the record keeps ["N/A"] and does not receive the new
    accuracy either. *)
Theorem eval_time_after_missing_time_raises :
  let calls := [(run Base2New "base/log.txt" (Some Base) None, "t1");
                (run Base2New "new/log.txt" (Some New) (Some 30%Q), "t2")] in
  snd (run_main calls some_logs) = [Ok tt; Raise ValueError]
  /\ tables (fst (run_main calls some_logs)) !! "base2new_M.csv"
     = Some [base2new_fieldnames;
             ["M"; "N/A"; "btmri"; "16"; "1"; "80.0"; ""; ""; "N/A"; "t1"; ""]].
Proof. split; vm_compute; reflexivity. Qed.

(** *** One row per key *)

Lemma ledger_ok_empty fs : tables fs = ∅ -> ledger_ok fs.
Proof. intros H path t. rewrite H, lookup_empty. discriminate. Qed.

Lemma ingest_all_preserves ops fs : ledger_ok fs -> ledger_ok (ingest_all ops fs).
Proof.
  unfold ingest_all. revert fs. induction ops as [|op ops IH]; intros fs Hok; [done|].
  cbn [foldl]. apply IH. by apply ingest_preserves.
Qed.

Lemma current_records_after a fs recs :
  tables fs !! base2new_csv a = Some (base2new_fieldnames :: recs) ->
  current_records a fs = recs.
Proof. unfold current_records. by intros ->. Qed.

(** C5.  Starting from a ledger without tables, after any sequence of
    two-phase ingests every table holds at most one record per
    (model, dataset, shot, seed) key; a further ingest whose key is
    absent appends one record with that key, and one whose key is
    present rewrites the record holding it in place. *)
Theorem two_phase_ledger_one_row_per_key ops fs :
  tables fs = ∅ ->
  let fs1 := ingest_all ops fs in
  (forall path t,
     tables fs1 !! path = Some t ->
     exists recs, t = base2new_fieldnames :: recs /\ NoDup (record_key <$> recs))
  /\ (forall a metrics now,
        let recs := current_records a fs1 in
        let recs' := current_records a (fst (log_base2new_result a metrics now fs1)) in
        ((args_key a ∉ (record_key <$> recs))
         /\ exists cells, recs' = recs ++ [cells] /\ record_key cells = args_key a)
        \/ (exists j c cells',
              recs !! j = Some c /\ record_key c = args_key a
              /\ record_key cells' = args_key a /\ recs' = <[j := cells']> recs)).
Proof.
  intros Hempty fs1.
  assert (Hok : ledger_ok fs1) by (apply ingest_all_preserves; by apply ledger_ok_empty).
  split.
  - intros path t Ht. destruct (Hok path t Ht) as (recs & -> & _ & Hnd). eauto.
  - intros a metrics now recs recs'.
    destruct (ingest_step a metrics now fs1 Hok) as [_ Hcases].
    fold recs in Hcases.
    destruct Hcases as [(Hnew & cells & Hc & _ & Hk)
                       |(j & c & cells' & Hj & Hkc & _ & Hk & _ & Hc)].
    + left. split; [exact Hnew|]. exists cells. split; [|exact Hk].
      subst recs'. by apply current_records_after.
    + right. exists j, c, cells'. repeat split; try done.
      subst recs'. by apply current_records_after.
Qed.

Lemma two_phase_ledger_one_row_per_key_witness :
  tables some_logs = ∅
  /\ exists t recs,
       tables (ingest_all
                 [(run Base2New "base/log.txt" (Some Base) None,
                   {[ "accuracy" := VFloat 80%Q ]}, "t1");
                  (run Base2New "new/log.txt" (Some New) None,
                   {[ "accuracy" := VFloat 60%Q ]}, "t2")]
                 some_logs) !! "base2new_M.csv" = Some t
       /\ t = base2new_fieldnames :: recs
       /\ length recs = 1%nat
       /\ NoDup (record_key <$> recs).
Proof.
  split; [reflexivity|].
  pose (ops := [(run Base2New "base/log.txt" (Some Base) None,
                 ({[ "accuracy" := VFloat 80%Q ]} : gmap string val), "t1");
                (run Base2New "new/log.txt" (Some New) None,
                 ({[ "accuracy" := VFloat 60%Q ]} : gmap string val), "t2")]).
  assert (Ht : tables (ingest_all ops some_logs) !! "base2new_M.csv"
               = Some [base2new_fieldnames;
                       ["M"; "N/A"; "btmri"; "16"; "1"; "80.0"; "60.0"; "68.57";
                        "N/A"; "t2"; ""]])
    by (vm_compute; reflexivity).
  destruct (proj1 (two_phase_ledger_one_row_per_key ops some_logs eq_refl) _ _ Ht)
    as (recs & E & Hnd).
  exists [base2new_fieldnames;
          ["M"; "N/A"; "btmri"; "16"; "1"; "80.0"; "60.0"; "68.57"; "N/A"; "t2"; ""]], recs.
  split; [exact Ht|]. split; [exact E|]. split; [|exact Hnd].
  injection E as <-. reflexivity.
Defined.

(** *** A zero or absent evaluation time *)

Lemma supplied_time_none a :
  (eval_time a = None \/ exists q, eval_time a = Some q /\ (q == 0)%Q) ->
  supplied_time a = None.
Proof.
  unfold supplied_time. intros [->|(q & -> & Hq)]; [done|].
  apply Qeq_bool_iff in Hq. by rewrite Hq.
Qed.

Lemma update_row_keeps_eval_time (a : args) (metrics : gmap string val) (now : string)
    (r : gmap (option string) val) :
  supplied_time a = None ->
  exists r', update_row a metrics now r = Ok r'
             /\ r' !! Some "eval_time" = r !! Some "eval_time".
Proof.
  intros Hs. unfold update_row.
  set (r1 := match subtask a with
             | Some Base => <[Some "base_acc" := accuracy_or_na metrics]> r
             | _ => <[Some "new_acc" := accuracy_or_na metrics]> r
             end).
  assert (H1 : r1 !! Some "eval_time" = r !! Some "eval_time").
  { subst r1. destruct (subtask a) as [[|]|]; by rewrite lookup_insert_ne. }
  clearbody r1. unfold update_eval_time. rewrite Hs.
  destruct (update_harmonic_mean_cases r1) as [->|[s ->]]; cbn [bind];
    eexists; (split; [done|]); rewrite !lookup_insert_ne by done; done.
Qed.

Lemma eval_time_cell_written (r : gmap (option string) val) (cells : list string) :
  dict_to_list base2new_fieldnames r = Ok cells ->
  nth 8 cells "" = str (default (VStr "") (r !! Some "eval_time")).
Proof.
  unfold dict_to_list. destruct (wrong_fields _ r); [discriminate|].
  intros [= <-]. done.
Qed.

Lemma read_record_eval_time c :
  length c = 11%nat ->
  read_record base2new_fieldnames c !! Some "eval_time" = Some (VStr (nth 8 c "")).
Proof.
  intros H. destruct (length_11 c H) as (c0&c1&c2&c3&c4&c5&c6&c7&c8&c9&c10&->).
  vm_compute. reflexivity.
Qed.

Lemma few_shot_row_eval_time a metrics now :
  few_shot_row a metrics now !! Some "eval_time" = Some (eval_time_cell a).
Proof.
  unfold few_shot_row, optional_metrics. cbn [foldl].
  destruct (metrics !! "precision"), (metrics !! "recall"),
    (metrics !! "f1_score"), (metrics !! "balanced_accuracy");
    rewrite !lookup_insert_ne by done; apply lookup_insert_eq.
Qed.

Lemma new_row_eval_time a metrics now :
  new_row a metrics now !! Some "eval_time" = Some (eval_time_cell a).
Proof.
  unfold new_row. rewrite !lookup_insert_ne by done. apply lookup_insert_eq.
Qed.

(** C10.  When the supplied evaluation time is absent or zero, a new
    row (two-phase or single-phase) records the time as ["N/A"], and an
    update leaves the time of the matching row as it is: the update
    does not raise, the dictionary keeps its value, and the cell of the
    record in the rewritten table is the cell it had. *)
Theorem zero_or_absent_eval_time_is_missing (a : args) (metrics : gmap string val)
    (now : string) :
  (eval_time a = None \/ exists q, eval_time a = Some q /\ (q == 0)%Q) ->
  new_row a metrics now !! Some "eval_time" = Some (VStr "N/A")
  /\ few_shot_row a metrics now !! Some "eval_time" = Some (VStr "N/A")
  /\ (forall r : gmap (option string) val,
        exists r', update_row a metrics now r = Ok r'
                   /\ r' !! Some "eval_time" = r !! Some "eval_time")
  /\ (forall fs j c,
        ledger_ok fs ->
        current_records a fs !! j = Some c -> record_key c = args_key a ->
        exists c',
          current_records a (fst (log_base2new_result a metrics now fs)) !! j = Some c'
          /\ nth 8 c' "" = nth 8 c "").
Proof.
  intros Hzero. apply supplied_time_none in Hzero.
  assert (Hcell : eval_time_cell a = VStr "N/A") by (unfold eval_time_cell; by rewrite Hzero).
  split; [by rewrite new_row_eval_time, Hcell|].
  split; [by rewrite few_shot_row_eval_time, Hcell|].
  split; [intros r; by apply update_row_keeps_eval_time|].
  intros fs j c Hok Hj Hkey.
  destruct (existing_rows_read a fs Hok) as ((Hlen & Hnd) & _ & _).
  destruct (ingest_step a metrics now fs Hok) as [_ Hcases].
  destruct Hcases as [(Hnew & _)|(j0 & c0 & cells' & Hj0 & Hk0 & _ & _ & Hrel & Hc)].
  - exfalso. apply Hnew. apply list_elem_of_fmap. exists c. split; [done|].
    by apply list_elem_of_lookup_2 in Hj.
  - assert (j0 = j) as ->.
    { eapply NoDup_lookup; [exact Hnd| |].
      - rewrite list_lookup_fmap, Hj0. simpl. by rewrite Hk0.
      - rewrite list_lookup_fmap, Hj. simpl. by rewrite Hkey. }
    assert (c0 = c) as -> by congruence.
    exists cells'. split.
    + rewrite (current_records_after _ _ _ Hc). apply list_lookup_insert_eq.
      by apply lookup_lt_Some in Hj.
    + destruct Hrel as [->|(r' & Hup & Hw)]; [done|].
      destruct (update_row_keeps_eval_time a metrics now
                  (read_record base2new_fieldnames c) Hzero) as (r'' & Hup' & Hkeep).
      assert (r'' = r') as -> by congruence.
      rewrite (eval_time_cell_written _ _ Hw), Hkeep.
      rewrite read_record_eval_time; [done|].
      eapply Forall_lookup_1 in Hlen; [|exact Hj]. exact Hlen.
Qed.

Lemma zero_or_absent_eval_time_is_missing_witness :
  new_row (run Base2New "base/log.txt" (Some Base) (Some 0%Q))
          {[ "accuracy" := VFloat 80%Q ]} "t1" !! Some "eval_time"
  = Some (VStr "N/A").
Proof.
  apply (zero_or_absent_eval_time_is_missing
           (run Base2New "base/log.txt" (Some Base) (Some 0%Q))
           {[ "accuracy" := VFloat 80%Q ]} "t1").
  right. exists 0%Q. split; reflexivity.
Defined.

End LedgerClaims.

(** ** The confidence interval *)

Module StatsTheory.
Import Aggregate StatsSpec.

Lemma Q2R_sum l : Q2R (Np.sum l) = sum_R (map Q2R l).
Proof.
  induction l as [|x l IH]; simpl.
  - unfold Q2R. simpl. lra.
  - rewrite Q2R_plus, IH. done.
Qed.

Lemma Q2R_length (n : nat) : Q2R (inject_Z (Z.of_nat n)) = INR n.
Proof. unfold Q2R. simpl. rewrite INR_IZR_INZ. lra. Qed.

Lemma Q2R_mean l : l <> [] -> Q2R (Np.mean l) = mean_R (map Q2R l).
Proof.
  intros Hl. unfold Np.mean, mean_R. rewrite Q2R_div.
  - rewrite Q2R_sum, Q2R_length, length_map. done.
  - destruct l; [done|]. simpl. discriminate.
Qed.

Lemma Q2R_abs_square x : Q2R (Qabs x * Qabs x) = (Q2R x * Q2R x)%R.
Proof.
  rewrite <- Q2R_mult. apply Qeq_eqR.
  destruct (Qlt_le_dec x 0) as [H|H].
  - rewrite Qabs_neg by by apply Qlt_le_weak. ring.
  - rewrite Qabs_pos by done. ring.
Qed.

Lemma Q2R_squares m l :
  sum_R (map Q2R (map (fun x => (Qabs (x - m) * Qabs (x - m))%Q) l))
  = sum_R (map (fun x => ((x - Q2R m) * (x - Q2R m))%R) (map Q2R l)).
Proof.
  induction l as [|x l IH]; [done|].
  cbn [map sum_R fold_right]. fold (sum_R (map Q2R (map (fun x => (Qabs (x - m) * Qabs (x - m))%Q) l))).
  fold (sum_R (map (fun x => ((x - Q2R m) * (x - Q2R m))%R) (map Q2R l))).
  rewrite IH, Q2R_abs_square, Q2R_minus. done.
Qed.

Lemma Q2R_var l :
  l <> [] ->
  Q2R (Np.var l)
  = (sum_R (map (fun x => ((x - mean_R (map Q2R l)) * (x - mean_R (map Q2R l)))%R)
              (map Q2R l)) / INR (length l))%R.
Proof.
  intros Hl. unfold Np.var.
  rewrite Q2R_mean by (destruct l; [done|discriminate]).
  unfold mean_R at 1. rewrite !length_map, Q2R_squares, Q2R_mean by done. done.
Qed.

Lemma std_population l : l <> [] -> Np.std l = population_std (map Q2R l).
Proof.
  intros Hl. unfold Np.std, population_std. rewrite Q2R_var by done.
  by rewrite length_map.
Qed.


Lemma sqrt_neq a b : (0 <= a)%R -> (0 <= b)%R -> a <> b -> sqrt a <> sqrt b.
Proof. intros Ha Hb Hab H. apply Hab. by apply sqrt_inj. Qed.

(** C8.  For a non-empty list of per-dataset mean accuracies,
    [compute_ci95] is 1.96 times the population standard deviation of
    the list divided by the square root of its length; over
    [70, 80, 90] the mean is 80, the interval is
    [1.96 * sqrt (200/3) / sqrt 3], and the standard deviation is not
    the sample-corrected one. *)
Theorem ci95_population_std (res : list Q) :
  res <> [] ->
  compute_ci95 res = ci95 (map Q2R res)
  /\ Q2R (Np.mean [70; 80; 90]%Q) = 80%R
  /\ compute_ci95 [70; 80; 90]%Q = (196 / 100 * sqrt (200 / 3) / sqrt 3)%R
  /\ Np.std [70; 80; 90]%Q <> sample_std (map Q2R [70; 80; 90]%Q).
Proof.
  intros Hres.
  assert (Hm : mean_R (map Q2R [70; 80; 90]%Q) = 80%R).
  { unfold mean_R, sum_R, Q2R. simpl. lra. }
  assert (Hs : sum_R (map (fun x => ((x - 80) * (x - 80))%R) (map Q2R [70; 80; 90]%Q)) = 200%R).
  { unfold sum_R, Q2R. simpl. lra. }
  assert (Hn : INR (length [70; 80; 90]%Q) = 3%R) by (simpl; lra).
  split; [|split; [|split]].
  - unfold compute_ci95, ci95. rewrite std_population, length_map by done. done.
  - rewrite Q2R_mean by done. exact Hm.
  - unfold compute_ci95. rewrite std_population by done.
    unfold population_std. rewrite Hm, Hs, length_map, Hn. done.
  - rewrite std_population by done. unfold population_std, sample_std.
    rewrite Hm, Hs, length_map, Hn. apply sqrt_neq; lra.
Qed.

Lemma ci95_population_std_witness :
  compute_ci95 [70; 80; 90]%Q = ci95 (map Q2R [70; 80; 90]%Q).
Proof. apply (ci95_population_std [70; 80; 90]%Q). discriminate. Defined.

End StatsTheory.

(** ** The pivot table *)

Module PivotTheory.
Import Py Aggregate PivotSpec Examples.

Section Collected.
Variable dirs : gmap string directory_t.
Variable output_dir : string.

Abbreviation obs := (observed dirs output_dir).
Abbreviation step := (PivotSpec.step dirs output_dir).
Abbreviation step_pair := (PivotSpec.step_pair dirs output_dir).
Abbreviation records_of := (PivotSpec.records_of dirs output_dir).
Abbreviation values_at := (PivotSpec.values_at dirs output_dir).

Lemma collect_one_step d st k :
(forall directory, dirs !! eval_dir output_dir d k = Some directory ->
                   exists r, parse_single_result directory = Ok r) ->
collect_one dirs output_dir d st k = Ok (step d st k).
Proof.
intros H. unfold collect_one, PivotSpec.step, found.
destruct (dirs !! eval_dir output_dir d k) as [directory|]; [|done].
destruct (H directory eq_refl) as [r ->]. cbn [bind].
destruct r as [[m s]|]; done.
Qed.

Lemma foldM_pure {A B} (f : B -> A -> result B) (g : B -> A -> B) l b :
(forall x b', x ∈ l -> f b' x = Ok (g b' x)) ->
foldM f l b = Ok (foldl g b l).
Proof.
revert b. induction l as [|x l IH]; intros b H; cbn [foldM foldl]; [done|].
rewrite H by constructor. cbn [bind]. apply IH.
intros y b' Hy. apply H. by constructor.
Qed.

Lemma foldl_pairs ds ks st :
foldl (fun st d => foldl (step d) st ks) st ds = foldl step_pair st (pairs ds ks).
Proof.
revert st. induction ds as [|d ds IH]; intros st; [done|].
unfold pairs. cbn [foldl map concat]. rewrite foldl_app. fold (pairs ds ks).
rewrite <- IH. f_equal. clear. revert st.
induction ks as [|k ks IH]; intros st; [done|]. cbn [map foldl]. apply IH.
Qed.

Lemma collect_over_pure ds ks :
parses dirs output_dir ds ks ->
collect_over dirs output_dir ds ks = Ok (foldl step_pair ([], ∅) (pairs ds ks)).
Proof.
intros H. unfold collect_over. rewrite <- foldl_pairs.
apply foldM_pure. intros d st Hd. apply foldM_pure.
intros k st' Hk. apply collect_one_step.
intros directory Hdir. destruct (H d k directory Hd Hk Hdir) as [accs Ha].
unfold parse_single_result. rewrite Ha. cbn [bind]. destruct accs; eauto.
Qed.

Lemma step_pair_fst st p :
fst (step_pair st p) = fst st ++ records_of [p].
Proof.
unfold PivotSpec.step_pair, PivotSpec.step, PivotSpec.records_of. simpl.
destruct (found dirs output_dir p.1 p.2) as [[m s]|]; simpl; [done|].
by rewrite app_nil_r.
Qed.

Lemma step_pair_snd st p k :
default [] (snd (step_pair st p) !! k) = default [] (snd st !! k) ++ values_at k [p].
Proof.
unfold PivotSpec.step_pair, PivotSpec.step, PivotSpec.values_at, observed. simpl.
destruct (found dirs output_dir p.1 p.2) as [[m s]|]; simpl.
- unfold append_by_shots. destruct (decide (p.2 = k)) as [->|Hne].
  + rewrite lookup_insert_eq. done.
  + rewrite lookup_insert_ne by done. by rewrite app_nil_r.
- destruct (decide (p.2 = k)); by rewrite app_nil_r.
Qed.

Lemma records_of_cons p ps : records_of (p :: ps) = records_of [p] ++ records_of ps.
Proof. unfold PivotSpec.records_of. simpl. by destruct (_ <$> _). Qed.

Lemma values_at_cons k p ps : values_at k (p :: ps) = values_at k [p] ++ values_at k ps.
Proof. unfold PivotSpec.values_at. simpl. by destruct (if decide _ then _ else _). Qed.

Lemma foldl_step_pair ps st :
fst (foldl step_pair st ps) = fst st ++ records_of ps
/\ forall k, default [] (snd (foldl step_pair st ps) !! k)
             = default [] (snd st !! k) ++ values_at k ps.
Proof.
revert st. induction ps as [|p ps IH]; intros st.
- cbn. split; [|intros k]; by rewrite app_nil_r.
- cbn [foldl]. destruct (IH (step_pair st p)) as [H1 H2]. split.
  + rewrite H1, step_pair_fst, (records_of_cons p ps), app_assoc. done.
  + intros k. rewrite H2, step_pair_snd, (values_at_cons k p ps), app_assoc. done.
Qed.

Lemma values_at_row d ks k :
NoDup ks ->
values_at k (map (pair d) ks) = if decide (k ∈ ks) then option_list (obs d k) else [].
Proof.
induction 1 as [|k' ks Hk' Hnd IH]; [done|].
cbn [map]. rewrite (values_at_cons k (d, k') (map (pair d) ks)), IH. unfold PivotSpec.values_at. simpl.
destruct (decide (k' = k)) as [->|Hne].
- rewrite (decide_True (P := k ∈ k :: ks)) by constructor.
  rewrite (decide_False (P := k ∈ ks)) by done.
  destruct (obs d k); by rewrite ?app_nil_r.
- cbn. destruct (decide (k ∈ ks)) as [Hin|Hnin].
  + rewrite (decide_True (P := k ∈ k' :: ks)) by by constructor. done.
  + rewrite (decide_False (P := k ∈ k' :: ks)); [done|].
    intros Hin. apply elem_of_cons in Hin as [->|Hin]; done.
Qed.

Lemma values_at_app k ps1 ps2 : values_at k (ps1 ++ ps2) = values_at k ps1 ++ values_at k ps2.
Proof. unfold PivotSpec.values_at. apply omap_app. Qed.

Lemma values_at_pairs ds ks k :
NoDup ks -> k ∈ ks -> values_at k (pairs ds ks) = column_values obs ds k.
Proof.
intros Hnd Hk. induction ds as [|d ds IH]; [done|].
unfold pairs. cbn [map concat]. fold (pairs ds ks).
rewrite values_at_app, IH, values_at_row by done.
rewrite decide_True by done. unfold column_values. simpl.
by destruct (obs d k).
Qed.

Lemma elem_of_pairs d k ds ks : (d, k) ∈ pairs ds ks <-> d ∈ ds /\ k ∈ ks.
Proof.
induction ds as [|d' ds IH].
- unfold pairs. cbn. rewrite elem_of_nil. split; [done|]. intros [H _]. by apply elem_of_nil in H.
- unfold pairs. cbn [map concat]. fold (pairs ds ks).
  rewrite elem_of_app, IH, list_elem_of_fmap, elem_of_cons. split.
  + intros [(k' & [= -> ->] & Hk)|[Hd Hk]]; auto.
  + intros [[->|Hd] Hk]; [left; eauto|auto].
Qed.

Lemma lookup2_insert m r d k :
lookup2 (pivot_insert m r) d k
= if decide (d_dataset r = d /\ d_shots r = k) then Some (d_accuracy r)
  else lookup2 m d k.
Proof.
unfold lookup2, pivot_insert.
destruct (decide (d_dataset r = d)) as [<-|Hd].
- rewrite lookup_insert_eq. simpl.
  destruct (decide (d_shots r = k)) as [<-|Hk].
  + rewrite lookup_insert_eq. rewrite decide_True by done. done.
  + rewrite lookup_insert_ne by done. rewrite decide_False by (intros [_ ?]; done).
    destruct (m !! d_dataset r); done.
- rewrite lookup_insert_ne by done. rewrite decide_False by (intros [? _]; done). done.
Qed.

Lemma present_insert m r d :
is_Some (pivot_insert m r !! d) <-> d_dataset r = d \/ is_Some (m !! d).
Proof.
unfold pivot_insert. destruct (decide (d_dataset r = d)) as [<-|Hd].
- rewrite lookup_insert_eq. split; [auto|eauto].
- rewrite lookup_insert_ne by done. split; [auto|]. intros [?|?]; done.
Qed.

Lemma found_observed d k r : found dirs output_dir d k = Some r -> obs d k = Some (fst r).
Proof. unfold observed. by intros ->. Qed.

Lemma found_none d k : found dirs output_dir d k = None -> obs d k = None.
Proof. unfold observed. by intros ->. Qed.

Lemma pivot_lookup ps m d k :
lookup2 (foldl pivot_insert m (records_of ps)) d k
= match (if decide ((d, k) ∈ ps) then obs d k else None) with
  | Some v => Some v
  | None => lookup2 m d k
  end.
Proof.
revert m. induction ps as [|p ps IH]; intros m.
- cbn. rewrite decide_False by apply not_elem_of_nil. done.
- rewrite (records_of_cons p ps), foldl_app, IH. unfold PivotSpec.records_of at 1. simpl.
  destruct p as [d' k']. simpl.
  destruct (decide ((d, k) ∈ ps)) as [Hin|Hnin].
  + rewrite (decide_True (P := (d, k) ∈ (d', k') :: ps)) by by constructor.
    destruct (obs d k) as [v|] eqn:Hv; [done|].
    destruct (found dirs output_dir d' k') as [r|] eqn:Hf; simpl; [|done].
    rewrite lookup2_insert. simpl. case_decide as Hc; [|done].
    destruct Hc as [-> ->]. apply found_observed in Hf. congruence.
  + destruct (decide ((d, k) = (d', k'))) as [[= <- <-]|Hne].
    * rewrite (decide_True (P := (d, k) ∈ (d, k) :: ps)) by constructor.
      destruct (found dirs output_dir d k) as [r|] eqn:Hf; simpl.
      -- rewrite lookup2_insert. simpl. rewrite decide_True by done.
         by rewrite (found_observed _ _ _ Hf).
      -- by rewrite (found_none _ _ Hf).
    * rewrite (decide_False (P := (d, k) ∈ (d', k') :: ps)).
      2:{ intros Hin. apply elem_of_cons in Hin as [?|?]; done. }
      destruct (found dirs output_dir d' k') as [r|] eqn:Hf; simpl; [|done].
      rewrite lookup2_insert. simpl. rewrite decide_False; [done|].
      intros [-> ->]. done.
Qed.

Lemma pivot_present ps m d :
is_Some (foldl pivot_insert m (records_of ps) !! d)
<-> is_Some (m !! d) \/ exists k, (d, k) ∈ ps /\ is_Some (obs d k).
Proof.
revert m. induction ps as [|p ps IH]; intros m.
- cbn. split; [auto|]. intros [?|(k & Hk & _)]; [done|]. by apply elem_of_nil in Hk.
- rewrite (records_of_cons p ps), foldl_app, IH. unfold PivotSpec.records_of at 1. simpl.
  destruct p as [d' k']. simpl.
  destruct (found dirs output_dir d' k') as [r|] eqn:Hf; simpl.
  + rewrite present_insert. simpl. split.
    * intros [[->|?]|(k & Hk & Hs)]; [|auto|].
      -- right. exists k'. split; [constructor|]. rewrite (found_observed _ _ _ Hf). eauto.
      -- right. exists k. split; [by constructor|done].
    * intros [?|(k & Hk & Hs)]; [auto|].
      apply elem_of_cons in Hk as [[= -> ->]|Hk]; [auto|]. right. eauto.
  + split.
    * intros [?|(k & Hk & Hs)]; [auto|]. right. exists k. split; [by constructor|done].
    * intros [?|(k & Hk & Hs)]; [auto|].
      apply elem_of_cons in Hk as [[= -> ->]|Hk].
      -- rewrite (found_none _ _ Hf) in Hs. by destruct Hs.
      -- right. eauto.
Qed.

Lemma omap_ext_in {A B} (f g : A -> option B) (l : list A) :
(forall x, x ∈ l -> f x = g x) -> omap f l = omap g l.
Proof.
induction l as [|x l IH]; intros H; [done|]. simpl.
rewrite (H x) by constructor.
assert (IH' : omap f l = omap g l).
{ apply IH. intros y Hy. apply H. by constructor. }
destruct (g x); [f_equal|]; exact IH'.
Qed.

Lemma pivot_table_spec ds ks :
NoDup ks ->
pivot_table ds ks (foldl step_pair ([], ∅) (pairs ds ks)) = build_pivot obs ds ks.
Proof.
intros Hnd. unfold pivot_table, build_pivot.
destruct (foldl_step_pair (pairs ds ks) ([], ∅)) as [H1 H2].
rewrite H1. cbn [fst app]. f_equal. f_equal.
- unfold pivot_data_rows, pivot_data_of. apply omap_ext_in. intros d Hd.
  unfold data_row, row_present.
  destruct (foldl pivot_insert ∅ (records_of (pairs ds ks)) !! d) as [cells|] eqn:E.
  + assert (Hp : existsb (fun k => bool_decide (is_Some (obs d k))) ks = true).
    { assert (Hs : is_Some (foldl pivot_insert ∅ (records_of (pairs ds ks)) !! d))
        by (rewrite E; eauto).
      apply pivot_present in Hs as [Hs|(k & Hk & Hs)].
      - rewrite lookup_empty in Hs. by destruct Hs.
      - apply existsb_exists. exists k. apply elem_of_pairs in Hk as [_ Hk].
        split; [by apply list_elem_of_In|]. by apply bool_decide_eq_true. }
    rewrite Hp. do 2 f_equal. apply map_ext_in. intros k Hk.
    apply list_elem_of_In in Hk.
    pose proof (pivot_lookup (pairs ds ks) ∅ d k) as Hl.
    unfold lookup2 at 1 in Hl. rewrite E in Hl. simpl in Hl. rewrite Hl.
    rewrite decide_True by by apply elem_of_pairs.
    unfold lookup2. rewrite lookup_empty. simpl. by destruct (obs d k).
  + destruct (existsb _ ks) eqn:Hp; [|done]. exfalso.
    apply existsb_exists in Hp as (k & Hk & Hs).
    apply list_elem_of_In in Hk. apply bool_decide_eq_true in Hs.
    assert (Hsome : is_Some (foldl pivot_insert ∅ (records_of (pairs ds ks)) !! d)).
    { apply pivot_present. right. exists k. split; [by apply elem_of_pairs|done]. }
    rewrite E in Hsome. by destruct Hsome.
- unfold pivot_summary_row. do 2 f_equal. apply map_ext_in. intros k Hk.
  apply list_elem_of_In in Hk. specialize (H2 k).
  cbn [snd] in H2. rewrite lookup_empty in H2. cbn [default app] in H2.
  rewrite values_at_pairs in H2 by done. unfold marginal. rewrite <- H2.
  destruct (snd (foldl step_pair ([], ∅) (pairs ds ks)) !! k) as [[|x l]|]; done.
Qed.
End Collected.

Lemma some_dirs_parse (p : string) (directory : directory_t) :
  some_dirs !! p = Some directory ->
  exists accuracies, collect_accuracies directory [] = Ok accuracies.
Proof.
  intros H. apply elem_of_map_to_list in H.
  let l := eval vm_compute in (map_to_list some_dirs) in
  assert (E : map_to_list some_dirs = l) by (vm_compute; reflexivity).
  rewrite E in H. clear E.
  repeat (apply elem_of_cons in H as [H|H];
          [injection H as -> ->; eexists; vm_compute; reflexivity|]).
  by apply elem_of_nil in H.
Qed.

(** C9.  When no log holds a malformed number, the pivot table built
    from the collected records has the shot columns in their given
    order, one row for each dataset, in the given order, that has at
    least one record, ["N/A"] in every cell without a record, and a last
    row [AVERAGE] whose cell for a shot value is the mean over the
    datasets that have a record there; [main] writes this table for the
    fixed dataset list and the shot values 1, 2, 4, 8, 16. *)
Theorem pivot_matches_description (dirs : gmap string directory_t) (output_dir : string) :
  (forall ds ks,
     NoDup ks -> parses dirs output_dir ds ks ->
     exists c, collect_over dirs output_dir ds ks = Ok c
               /\ pivot_table ds ks c = build_pivot (observed dirs output_dir) ds ks)
  /\ (parses dirs output_dir datasets shots_list ->
      main_pivot dirs output_dir
      = Ok (build_pivot (observed dirs output_dir) datasets shots_list)).
Proof.
  split.
  - intros ds ks Hnd Hp. eexists. split; [by apply collect_over_pure|].
    by apply pivot_table_spec.
  - intros Hp. unfold main_pivot. rewrite collect_over_pure by done. cbn [bind].
    rewrite pivot_table_spec; [done|]. unfold shots_list.
    repeat (apply NoDup_cons; split; [|]); try apply NoDup_nil_2;
      (intros Hin; repeat (apply elem_of_cons in Hin as [Hin|Hin]; [discriminate|]);
       by apply elem_of_nil in Hin).
Qed.

Lemma pivot_matches_description_witness :
  main_pivot some_dirs "/out"
  = Ok (build_pivot (observed some_dirs "/out") datasets shots_list)
  /\ build_pivot (observed some_dirs "/out") datasets shots_list
     = [["Dataset"; "1-shot"; "2-shot"; "4-shot"; "8-shot"; "16-shot"];
        ["btmri"; "60.00"; "70.00"; "N/A"; "N/A"; "N/A"];
        ["busi"; "65.75"; "N/A"; "N/A"; "N/A"; "N/A"];
        ["AVERAGE"; "62.88"; "70.00"; "N/A"; "N/A"; "N/A"]].
Proof.
  split; [|vm_compute; reflexivity].
  apply (pivot_matches_description some_dirs "/out").
  intros d k directory _ _ H. exact (some_dirs_parse _ _ H).
Defined.

End PivotTheory.

(** ** The shape of parsed metrics *)

Module MetricShapeTheory.
Import Py LogResults LogShape MetricShape ParseLogTheory.

Lemma span_all_chars p s a b : span p s = (a, b) -> all_chars p a = true.
Proof.
  revert a b. induction s as [|c s IH]; intros a b; simpl.
  - by intros [= <- <-].
  - destruct (p c) eqn:Hc.
    + destruct (span p s) as [a' b']. intros [= <- <-]. simpl.
      by rewrite Hc, (IH a' b').
    + by intros [= <- <-].
Qed.

Lemma match_here_all_chars lit cls s g :
  match_here lit cls s = Some g -> all_chars cls g = true.
Proof.
  unfold match_here. destruct (strip_prefix lit s) as [rest|]; [|done].
  destruct (span cls rest) as [a b] eqn:E. apply span_all_chars in E.
  destruct a as [|c a]; [done|]. destruct b as [|c' b]; [done|].
  destruct (Ascii.eqb_spec c' "%") as [->|Hne].
  - by intros [= <-].
  - intros H. exfalso. revert H.
    destruct c' as [[] [] [] [] [] [] [] []]; try discriminate; by destruct Hne.
Qed.

Lemma re_search_all_chars lit cls s g :
  re_search lit cls s = Some g -> all_chars cls g = true.
Proof.
  induction s as [|c s IH]; simpl.
  - destruct (match_here lit cls "") eqn:E; [|done].
    intros [= <-]. by apply match_here_all_chars in E.
  - destruct (match_here lit cls (String c s)) eqn:E.
    + intros [= <-]. by apply match_here_all_chars in E.
    + apply IH.
Qed.

Lemma digit_not_space c : is_digit_or_dot c = true -> is_space c = false.
Proof. destruct c as [[] [] [] [] [] [] [] []]; vm_compute; congruence. Qed.

Lemma lstrip_no_space s :
  all_chars is_digit_or_dot s = true -> lstrip s = s.
Proof.
  destruct s as [|c s]; simpl; [done|]. intros [Hc _]%andb_true_iff.
  by rewrite (digit_not_space c Hc).
Qed.

Lemma rstrip_no_space s :
  all_chars is_digit_or_dot s = true -> rstrip s = s.
Proof.
  induction s as [|c s IH]; [done|]. cbn [all_chars rstrip].
  intros [Hc Hs]%andb_true_iff. rewrite (IH Hs), (digit_not_space c Hc).
  by destruct s.
Qed.

Lemma take_sign_unsigned s :
  all_chars is_digit_or_dot s = true -> take_sign s = (false, s).
Proof.
  destruct s as [|c s]; [done|]. cbn [all_chars]. intros [Hc _]%andb_true_iff.
  revert Hc. destruct c as [[] [] [] [] [] [] [] []]; vm_compute; congruence.
Qed.

Lemma digit_value_nonneg c : is_digit c = true -> 0 <= digit_value c.
Proof. destruct c as [[] [] [] [] [] [] [] []]; vm_compute; congruence. Qed.

Lemma digits_value_nonneg s acc :
  all_chars is_digit s = true -> 0 <= acc -> 0 <= digits_value acc s.
Proof.
  revert acc. induction s as [|c s IH]; intros acc; cbn [all_chars digits_value]; [done|].
  intros [Hc Hs]%andb_true_iff Hacc. apply IH; [done|].
  pose proof (digit_value_nonneg c Hc). lia.
Qed.

Lemma all_chars_app p s1 s2 :
  all_chars p s1 = true -> all_chars p s2 = true -> all_chars p (s1 +:+ s2) = true.
Proof.
  induction s1 as [|c s1 IH]; simpl; [done|].
  intros [-> H1]%andb_true_iff H2. by apply IH.
Qed.

Lemma scale10_nonneg m e : 0 <= m -> (0 <= scale10 m e)%Q.
Proof.
  intros Hm. unfold scale10. destruct (0 <=? e) eqn:He.
  - apply Z.leb_le in He. unfold Qle. simpl.
    assert (0 <= m * 10 ^ e) by (apply Z.mul_nonneg_nonneg; [done|by apply Z.pow_nonneg]).
    lia.
  - rewrite Qred_correct. unfold Qle. simpl. lia.
Qed.

Lemma float_of_string_nonneg g v :
  all_chars is_digit_or_dot g = true -> float_of_string g = Ok v -> (0 <= v)%Q.
Proof.
  intros Hg. unfold float_of_string, strip.
  rewrite (lstrip_no_space g Hg), (rstrip_no_space g Hg), (take_sign_unsigned g Hg).
  destruct (span is_digit g) as [ip s2] eqn:Eip.
  pose proof (span_all_chars _ _ _ _ Eip) as Hip.
  set (p := match s2 with
            | String "." s2' => span is_digit s2'
            | _ => (EmptyString, s2)
            end).
  assert (Hfp : all_chars is_digit p.1 = true).
  { subst p. destruct s2 as [|c s2']; [done|].
    destruct (Ascii.eqb_spec c ".") as [->|Hne].
    - destruct (span is_digit s2') as [x y] eqn:E. by apply span_all_chars in E.
    - destruct c as [[] [] [] [] [] [] [] []]; try done; by destruct Hne. }
  destruct p as [fp s3]. simpl in Hfp.
  assert (Hm : 0 <= digits_value 0 (ip +:+ fp))
    by (apply digits_value_nonneg; [by apply all_chars_app|done]).
  destruct (_ =? _)%nat; [done|].
  destruct s3 as [|c s4].
  - intros [= <-]. by apply scale10_nonneg.
  - destruct (_ || _); [|done].
    destruct (take_sign s4) as [eneg s5]. destruct (span is_digit s5) as [ed s6].
    destruct ed; [done|]. destruct s6; [|done].
    intros [= <-]. by apply scale10_nonneg.
Qed.

Lemma record_metric_shape line m name m' :
  name ∈ metric_names -> parsed_metrics m ->
  record_metric line m name = Ok m' -> parsed_metrics m'.
Proof.
  intros Hn Hm. unfold record_metric, search_metric.
  destruct (re_search _ _ line) as [g|] eqn:Eg; [|by intros [= <-]].
  apply re_search_all_chars in Eg.
  destruct (float_of_string g) as [v|] eqn:Ev; [|done]. cbn [bind]. intros [= <-].
  intros k w. destruct (decide (k = name)) as [->|Hne].
  - rewrite lookup_insert_eq. intros [= <-]. split; [done|].
    exists v. split; [done|]. by eapply float_of_string_nonneg.
  - rewrite lookup_insert_ne by done. apply Hm.
Qed.

Lemma record_metrics_shape line names m m' :
  (forall n, n ∈ names -> n ∈ metric_names) -> parsed_metrics m ->
  foldM (record_metric line) names m = Ok m' -> parsed_metrics m'.
Proof.
  revert m. induction names as [|n names IH]; intros m Hn Hm; cbn [foldM].
  - by intros [= <-].
  - destruct (record_metric line m n) as [m1|] eqn:E; [|done]. cbn [bind].
    apply IH.
    + intros n' Hn'. apply Hn. by constructor.
    + eapply record_metric_shape; [|exact Hm|exact E]. apply Hn. constructor.
Qed.

Lemma parse_line_shape st line st' :
  parsed_metrics (snd st) -> parse_line st line = Ok st' -> parsed_metrics (snd st').
Proof.
  destruct st as [b m]. unfold parse_line. cbn [snd]. intros Hm.
  destruct (contains _ _); [by intros [= <-]|].
  destruct b; [|by intros [= <-]].
  destruct (record_metric (strip line) m "accuracy") as [m1|] eqn:E1; [|done]. cbn [bind].
  destruct (foldM _ optional_metrics m1) as [m2|] eqn:E2; [|done]. cbn [bind].
  intros [= <-]. cbn [snd].
  eapply record_metrics_shape; [| |exact E2].
  - intros n Hn. by constructor.
  - eapply record_metric_shape; [|exact Hm|exact E1]. constructor.
Qed.

Lemma parse_lines_shape lines st st' :
  parsed_metrics (snd st) -> foldM parse_line lines st = Ok st' -> parsed_metrics (snd st').
Proof.
  revert st. induction lines as [|l lines IH]; intros st Hst; cbn [foldM].
  - by intros [= <-].
  - destruct (parse_line st l) as [st1|] eqn:E; [|done]. cbn [bind].
    apply IH. by eapply parse_line_shape.
Qed.

Lemma parsed_metrics_empty : parsed_metrics ∅.
Proof. intros k v. by rewrite lookup_empty. Qed.

Lemma parse_log_file_shape fs path m :
  parse_log_file fs path = Ok m -> parsed_metrics m.
Proof.
  unfold parse_log_file, parse_lines.
  destruct (logs fs !! path) as [text|]; [|intros [= <-]; apply parsed_metrics_empty].
  destruct (foldM parse_line (readlines text) (false, ∅)) as [st|] eqn:E; [|done].
  cbn [bind]. intros [= <-].
  apply (parse_lines_shape (readlines text) (false, ∅) st parsed_metrics_empty E).
Qed.

End MetricShapeTheory.

(** ** Runs of log_results.py *)

Module RunTheory.
Import Py LogResults LogShape Ledger MetricShape Examples.
Import ParseLogTheory MetricShapeTheory FewShotTheory.

(** X1.  Whenever [parse_log_file] returns, every entry of the metric set is
    stored under one of the five metric names and is a non-negative
    number: no sentinel, string or negative value comes out of the
    parser. *)
Theorem parsed_metrics_are_nonnegative_numbers (fs : filesystem) (path : string)
    (m : gmap string val) (k : string) (v : val) :
  parse_log_file fs path = Ok m -> m !! k = Some v ->
  k ∈ ["accuracy"; "precision"; "recall"; "f1_score"; "balanced_accuracy"]
  /\ exists q, v = VFloat q /\ (0 <= q)%Q.
Proof. intros Hp Hk. exact (parse_log_file_shape fs path m Hp k v Hk). Qed.

Lemma parsed_metrics_are_nonnegative_numbers_witness :
  "precision" ∈ ["accuracy"; "precision"; "recall"; "f1_score"; "balanced_accuracy"]
  /\ exists q, VFloat (111 # 2) = VFloat q /\ (0 <= q)%Q.
Proof.
  apply (parsed_metrics_are_nonnegative_numbers some_logs "prec/log.txt"
           {[ "accuracy" := VFloat 60%Q; "precision" := VFloat (111 # 2) ]}
           "precision" (VFloat (111 # 2))).
  - vm_compute. reflexivity.
  - vm_compute. reflexivity.
Defined.

(** X2.  A number that [float] refuses on an accuracy line after the marker
    (such as [1.2.3], which the pattern [[\d.]+] accepts) makes the run
    end with [ValueError] before any table is touched. *)
Theorem malformed_accuracy_aborts_run (a : args) (now : string) (fs : filesystem)
    (text : string) (pre : list string) (line : string) (post : list string)
    (m : gmap string val) (g : string) :
  (task a = Base2New -> is_Some (subtask a)) ->
  logs fs !! log_file a = Some text ->
  readlines text = pre ++ line :: post ->
  foldM parse_line pre (false, ∅) = Ok (true, m) ->
  accuracy_of line = Some g ->
  float_of_string g = Raise ValueError ->
  main a now fs = (fs, Raise ValueError).
Proof.
  intros Hsub Hlog Hlines Hpre Hacc Hg.
  assert (Hparse : parse_log_file fs (log_file a) = Raise ValueError).
  { unfold parse_log_file, parse_lines. rewrite Hlog, Hlines, foldM_app, Hpre.
    cbn [bind foldM]. unfold accuracy_of in Hacc.
    destruct (has_marker line) eqn:Hm; [done|].
    rewrite parse_line_armed by done. unfold record_metric at 1.
    by rewrite Hacc, Hg. }
  unfold main. rewrite Hparse.
  destruct (task a); [by destruct (subtask a)|].
  destruct (Hsub eq_refl) as [s ->]. done.
Qed.

Lemma malformed_accuracy_aborts_run_witness :
  main (run FewShot "log.txt" None None) "t1"
       (one_log ("=> result" +:+ LF +:+ "* accuracy: 1.2.3%" +:+ LF))
  = (one_log ("=> result" +:+ LF +:+ "* accuracy: 1.2.3%" +:+ LF), Raise ValueError).
Proof.
  apply (malformed_accuracy_aborts_run
           (run FewShot "log.txt" None None) "t1"
           (one_log ("=> result" +:+ LF +:+ "* accuracy: 1.2.3%" +:+ LF))
           ("=> result" +:+ LF +:+ "* accuracy: 1.2.3%" +:+ LF)
           ["=> result" +:+ LF] ("* accuracy: 1.2.3%" +:+ LF) [] ∅ "1.2.3").
  - discriminate.
  - reflexivity.
  - reflexivity.
  - reflexivity.
  - reflexivity.
  - reflexivity.
Defined.

(** X3.  The columns of a single-phase row are the seven leading base
    columns, then the optional metrics the log reported, always in the
    order precision, recall, f1_score, balanced_accuracy, then
    [timestamp] and [notes]. *)
Theorem few_shot_fieldnames_layout (metrics : gmap string val) :
  few_shot_fieldnames metrics
  = ["model"; "checkpoint_name"; "dataset"; "shot"; "seed"; "accuracy"; "eval_time"]
    ++ filter (fun name => is_Some (metrics !! name)) optional_metrics
    ++ ["timestamp"; "notes"].
Proof.
  unfold few_shot_fieldnames, optional_metrics. cbn [foldl].
  rewrite !filter_cons, filter_nil.
  destruct (metrics !! "precision"), (metrics !! "recall"),
    (metrics !! "f1_score"), (metrics !! "balanced_accuracy");
    vm_compute; reflexivity.
Qed.

Lemma few_shot_fieldnames_optional (m : gmap string val) :
  (forall name, name ∈ optional_metrics -> m !! name = None) ->
  few_shot_fieldnames m = few_shot_base_fields.
Proof.
  intros H. unfold few_shot_fieldnames, optional_metrics. cbn [foldl].
  rewrite !H by (unfold optional_metrics; repeat first [by left | right]).
  vm_compute. reflexivity.
Qed.



(** X5.  A run changes no log and no table other than the one table named
    after its task and model. *)
Theorem run_touches_only_its_table (a : args) (now : string) (fs : filesystem)
    (path : string) :
  path <> target_csv a ->
  tables (fst (main a now fs)) !! path = tables fs !! path
  /\ logs (fst (main a now fs)) = logs fs.
Proof.
  intros Hpath. unfold main, target_csv in *.
  destruct (task a) eqn:Htask.
  - destruct (parse_log_file fs (log_file a)) as [metrics|]; [|done].
    unfold log_few_shot_result. destruct (dict_to_list _ _); cbn [fst];
      unfold set_table; cbn [tables logs]; by rewrite lookup_insert_ne.
  - destruct (subtask a); [|done].
    destruct (parse_log_file fs (log_file a)) as [metrics|]; [|done].
    unfold log_base2new_result. destruct (merge_rows _ _ _ _); [|done].
    destruct (writerows _ _). cbn [fst]. unfold set_table. cbn [tables logs].
    by rewrite lookup_insert_ne.
Qed.

Lemma run_touches_only_its_table_witness :
  tables (fst (main (run FewShot "new/log.txt" None None) "t1" some_logs))
    !! "base2new_M.csv" = tables some_logs !! "base2new_M.csv"
  /\ logs (fst (main (run FewShot "new/log.txt" None None) "t1" some_logs))
     = logs some_logs.
Proof.
  apply (run_touches_only_its_table (run FewShot "new/log.txt" None None) "t1"
           some_logs "base2new_M.csv").
  discriminate.
Defined.

End RunTheory.

(** ** The aggregation script *)

Module AggregateTheory.
Import Py Aggregate LogShape PivotSpec Examples.
Import ParseLogTheory ScanLogTheory LedgerTheory PivotTheory.

(** *** Seeds without a result *)

Lemma collect_accuracies_skips (d1 d2 : directory_t) (name : string)
    (log : option string) (accuracies : list Q) :
  (log = None \/ exists text, log = Some text /\ scan_log false (readlines text) = Ok None) ->
  collect_accuracies (d1 ++ (name, log) :: d2) accuracies
  = collect_accuracies (d1 ++ d2) accuracies.
Proof.
  intros Hlog. revert accuracies.
  induction d1 as [|[n [text|]] d1 IH]; intros accuracies; cbn [app collect_accuracies].
  - destruct Hlog as [->|(text & -> & ->)]; done.
  - destruct (scan_log false (readlines text)) as [[acc|]|]; cbn [bind]; auto.
  - apply IH.
Qed.

(** X12.  A seed directory without a [log.txt], or whose log has no accuracy
    at or after the marker, is left out of the statistics: the result
    is the one of the directory without that seed, and no zero is
    counted for it. *)
Theorem seed_without_result_is_left_out (d1 d2 : directory_t) (name : string)
    (log : option string) :
  (log = None \/ exists text, log = Some text /\ scan_log false (readlines text) = Ok None) ->
  parse_single_result (d1 ++ (name, log) :: d2) = parse_single_result (d1 ++ d2).
Proof.
  intros Hlog. unfold parse_single_result.
  by rewrite (collect_accuracies_skips d1 d2 name log [] Hlog).
Qed.

Lemma seed_without_result_is_left_out_witness :
  parse_single_result ([("seed1", Some (result_log "70"))]
                       ++ ("seed2", Some "no marker") :: [("seed3", Some (result_log "50"))])
  = parse_single_result ([("seed1", Some (result_log "70"))]
                         ++ [("seed3", Some (result_log "50"))]).
Proof.
  apply (seed_without_result_is_left_out
           [("seed1", Some (result_log "70"))] [("seed3", Some (result_log "50"))]
           "seed2" (Some "no marker")).
  right. exists "no marker". split; reflexivity.
Defined.

(** *** A log that cannot be read as a number *)

Lemma scan_log_raises b lines e : scan_log b lines = Raise e -> e = ValueError.
Proof.
  revert b. induction lines as [|l lines IH]; intros b; cbn [scan_log]; [done|].
  destruct (b || _).
  - destruct (metric_regex_search _) as [g|]; [|apply IH].
    destruct (float_of_string g) eqn:E; cbn [bind]; [done|].
    intros [= <-]. by apply float_of_string_raises in E.
  - apply IH.
Qed.

Lemma collect_accuracies_raises directory accuracies e :
  collect_accuracies directory accuracies = Raise e -> e = ValueError.
Proof.
  revert accuracies.
  induction directory as [|[n [text|]] directory IH]; intros accuracies;
    cbn [collect_accuracies]; [done| |apply IH].
  destruct (scan_log false (readlines text)) as [[acc|]|] eqn:E; cbn [bind]; try apply IH.
  intros [= <-]. by apply scan_log_raises in E.
Qed.

Lemma parse_single_result_raises directory e :
  parse_single_result directory = Raise e -> e = ValueError.
Proof.
  unfold parse_single_result.
  destruct (collect_accuracies directory []) as [[|x l]|] eqn:E; cbn [bind]; try done.
  intros [= <-]. by apply collect_accuracies_raises in E.
Qed.

Lemma foldM_raises_only {A B} (f : B -> A -> result B) (l : list A) (b : B) (e : exn) :
  (forall b' x e', f b' x = Raise e' -> e' = ValueError) ->
  foldM f l b = Raise e -> e = ValueError.
Proof.
  intros Hf. revert b. induction l as [|x l IH]; intros b; cbn [foldM]; [done|].
  destruct (f b x) eqn:E; cbn [bind]; [apply IH|].
  intros [= <-]. by apply Hf in E.
Qed.

Lemma foldM_raises {A B} (f : B -> A -> result B) (l : list A) (x : A) :
  x ∈ l -> (forall b, exists e, f b x = Raise e) ->
  forall b, exists e, foldM f l b = Raise e.
Proof.
  intros Hx Hf. induction l as [|y l IH]; intros b; [by apply elem_of_nil in Hx|].
  cbn [foldM]. apply elem_of_cons in Hx as [<-|Hx].
  - destruct (Hf b) as [e ->]. eauto.
  - destruct (f b y) as [b'|e]; cbn [bind]; [|eauto]. by apply IH.
Qed.

Lemma collect_one_raises dirs output_dir d st k e :
  collect_one dirs output_dir d st k = Raise e -> e = ValueError.
Proof.
  unfold collect_one. destruct (dirs !! _) as [directory|]; [|done].
  destruct (parse_single_result directory) as [[[m s]|]|] eqn:E; cbn [bind]; try done.
  intros [= <-]. by apply parse_single_result_raises in E.
Qed.

Lemma collect_over_raises dirs output_dir ds ks e :
  collect_over dirs output_dir ds ks = Raise e -> e = ValueError.
Proof.
  unfold collect_over. apply foldM_raises_only.
  intros st d e'. apply foldM_raises_only.
  intros st' k e''. apply collect_one_raises.
Qed.

Lemma collect_over_aborts dirs output_dir ds ks d k directory e :
  d ∈ ds -> k ∈ ks ->
  dirs !! eval_dir output_dir d k = Some directory ->
  parse_single_result directory = Raise e ->
  collect_over dirs output_dir ds ks = Raise ValueError.
Proof.
  intros Hd Hk Hdir Hparse.
  destruct (foldM_raises (fun st dataset => foldM (collect_one dirs output_dir dataset) ks st)
              ds d Hd) with (b := (([], ∅) : collected)) as [e' He'].
  - intros st. apply (foldM_raises (collect_one dirs output_dir d) ks k Hk).
    intros st'. exists e. unfold collect_one. by rewrite Hdir, Hparse.
  - unfold collect_over. rewrite He'. f_equal.
    by apply (collect_over_raises dirs output_dir ds ks).
Qed.

(** X14.  One evaluation directory with a log whose first accuracy text at or
    after the marker is refused by [float] (the pattern accepts any run
    of digits, points, [e], [E] and signs) ends the whole aggregation
    with [ValueError]: [main] writes no pivot table, whatever the other
    directories hold. *)
Theorem unreadable_accuracy_aborts_aggregation (dirs : gmap string directory_t)
    (output_dir d : string) (k : Z) (directory : directory_t) (e : exn) :
  d ∈ datasets -> k ∈ shots_list ->
  dirs !! eval_dir output_dir d k = Some directory ->
  parse_single_result directory = Raise e ->
  main_pivot dirs output_dir = Raise ValueError.
Proof.
  intros Hd Hk Hdir Hparse. unfold main_pivot.
  by rewrite (collect_over_aborts dirs output_dir datasets shots_list d k directory e).
Qed.

Lemma unreadable_accuracy_aborts_aggregation_witness :
  main_pivot (<[eval_dir "/out" "busi" 2 :=
                  [("seed1", Some ("=> result" +:+ LF +:+ "* accuracy: 8e%" +:+ LF))]]>
              some_dirs) "/out"
  = Raise ValueError.
Proof.
  apply (unreadable_accuracy_aborts_aggregation _ "/out" "busi" 2
           [("seed1", Some ("=> result" +:+ LF +:+ "* accuracy: 8e%" +:+ LF))] ValueError).
  - unfold datasets. repeat first [by left | right].
  - unfold shots_list. repeat first [by left | right].
  - apply lookup_insert_eq.
  - vm_compute. reflexivity.
Defined.

(** *** The collected records *)

Lemma NoDup_shots_list : NoDup shots_list.
Proof.
  unfold shots_list.
  repeat (apply NoDup_cons; split; [|]); try apply NoDup_nil_2;
    (intros Hin; repeat (apply elem_of_cons in Hin as [Hin|Hin]; [discriminate|]);
     by apply elem_of_nil in Hin).
Qed.

(** X15.  When every log parses, [detailed_results] holds one record for each
    dataset and shot value whose directory exists and yields at least
    one accuracy, in the order of the loops: datasets in the given
    order and, within a dataset, shot values in the given order. *)
Theorem detailed_results_follow_loop_order (dirs : gmap string directory_t)
    (output_dir : string) (ds : list string) (ks : list Z) :
  parses dirs output_dir ds ks ->
  exists c, collect_over dirs output_dir ds ks = Ok c
            /\ fst c = records_of dirs output_dir (pairs ds ks).
Proof.
  intros Hp. eexists. split; [by apply collect_over_pure|].
  by destruct (foldl_step_pair dirs output_dir (pairs ds ks) ([], ∅)) as [-> _].
Qed.

Lemma detailed_results_follow_loop_order_witness :
  exists c, collect_over some_dirs "/out" datasets shots_list = Ok c
            /\ fst c = records_of some_dirs "/out" (pairs datasets shots_list).
Proof.
  apply (detailed_results_follow_loop_order some_dirs "/out" datasets shots_list).
  intros d k directory _ _ H. exact (some_dirs_parse _ _ H).
Defined.

(** X16.  When every log parses, [summary_results] has one row for each shot
    value that at least one dataset has a record for, in the order of
    the shot values; the row holds the mean and the population standard
    deviation of the mean accuracies of exactly the datasets with a
    record for that shot value, and their number. *)
Theorem summary_rows_cover_recorded_shots (dirs : gmap string directory_t)
    (output_dir : string) (ds : list string) (ks : list Z) :
  NoDup ks -> parses dirs output_dir ds ks ->
  exists c, collect_over dirs output_dir ds ks = Ok c
            /\ summary_results ks (snd c)
               = omap (fun k =>
                         match column_values (observed dirs output_dir) ds k with
                         | [] => None
                         | accs => Some (k, Np.mean accs, Np.std accs, length accs)
                         end) ks.
Proof.
  intros Hnd Hp. eexists. split; [by apply collect_over_pure|].
  destruct (foldl_step_pair dirs output_dir (pairs ds ks) ([], ∅)) as [_ H2].
  unfold summary_results. apply omap_ext_in. intros k Hk.
  specialize (H2 k). cbn [snd] in H2. rewrite lookup_empty in H2. cbn [default app] in H2.
  rewrite values_at_pairs in H2 by done. rewrite <- H2.
  by destruct ((foldl (step_pair dirs output_dir) ([], ∅) (pairs ds ks)).2 !! k)
    as [[|x l]|].
Qed.

Lemma summary_rows_cover_recorded_shots_witness :
  exists c, collect_over some_dirs "/out" datasets shots_list = Ok c
            /\ summary_results shots_list (snd c)
               = omap (fun k =>
                         match column_values (observed some_dirs "/out") datasets k with
                         | [] => None
                         | accs => Some (k, Np.mean accs, Np.std accs, length accs)
                         end) shots_list.
Proof.
  apply (summary_rows_cover_recorded_shots some_dirs "/out" datasets shots_list).
  - exact NoDup_shots_list.
  - intros d k directory _ _ H. exact (some_dirs_parse _ _ H).
Defined.

(** *** The shape of the pivot table *)

Lemma length_pivot_data_rows ds ks pivot_data :
  Forall (fun row => length row = S (length ks)) (pivot_data_rows ds ks pivot_data)
  /\ (length (pivot_data_rows ds ks pivot_data) <= length ds)%nat.
Proof.
  unfold pivot_data_rows. induction ds as [|d ds [IH1 IH2]]; [split; [constructor|done]|].
  cbn [omap list_omap]. destruct (pivot_data !! d) as [cells|]; cbn [length].
  - split; [|lia]. constructor; [|done]. cbn [length]. by rewrite length_map.
  - split; [done|lia].
Qed.

(** X17.  The pivot table is rectangular whatever was collected: every row,
    the header and the [AVERAGE] row included, has one cell per shot
    value besides its label; the header comes first, the [AVERAGE] row
    last, with at most one row per dataset in between. *)
Theorem pivot_table_is_rectangular (ds : list string) (ks : list Z) (c : collected) :
  Forall (fun row => length row = S (length ks)) (pivot_table ds ks c)
  /\ (exists rows summary,
        pivot_table ds ks c = pivot_header ks :: rows ++ ["AVERAGE" :: summary]
        /\ (length rows <= length ds)%nat).
Proof.
  destruct (length_pivot_data_rows ds ks (pivot_data_of (fst c))) as [H1 H2].
  unfold pivot_table. split.
  - constructor; [unfold pivot_header; cbn [length]; by rewrite length_map|].
    apply Forall_app. split; [done|]. constructor; [|constructor].
    unfold pivot_summary_row. cbn [length]. by rewrite length_map.
  - eexists _, _. split; [reflexivity|done].
Qed.

End AggregateTheory.

(** ** Durations *)

Module TrainingTimesTheory.
Import Py LogResults TrainingTimes.

Lemma Qfloor_div_pos (a : Z) (b n : positive) :
  Qfloor ((a # b) / inject_Z (Z.pos n)) = (a / Z.pos b) / Z.pos n.
Proof.
  unfold Qdiv, Qinv, inject_Z, Qmult, Qfloor. cbn [Qnum Qden].
  rewrite Z.mul_1_r, Pos2Z.inj_mul. by rewrite Z.div_div by lia.
Qed.

Lemma Qfloor_sub_mul (a : Z) (b : positive) (k n : Z) :
  Qfloor ((a # b) - inject_Z k * inject_Z n) = a / Z.pos b - k * n.
Proof.
  unfold Qminus, Qplus, Qopp, Qmult, inject_Z, Qfloor. cbn [Qnum Qden].
  rewrite !Z.mul_1_r, Pos.mul_1_r.
  replace (a + - (k * n) * Z.pos b) with (a + (- (k * n)) * Z.pos b) by ring.
  rewrite Z.div_add by lia. lia.
Qed.

Lemma fmod_nonneg (q : Q) (n : positive) : (0 <= fmod q (inject_Z (Z.pos n)))%Q.
Proof.
  destruct q as [a b]. unfold fmod. rewrite Qfloor_div_pos.
  unfold Qminus, Qplus, Qopp, Qmult, inject_Z, Qle. cbn [Qnum Qden].
  rewrite !Z.mul_1_r, Z.mul_0_l.
  pose proof (Z.mul_div_le (a / Z.pos b) (Z.pos n) ltac:(lia)).
  pose proof (Z.mul_div_le a (Z.pos b) ltac:(lia)).
  nia.
Qed.

Lemma int_of_float_nonneg (q : Q) : (0 <= q)%Q -> int_of_float q = Qfloor q.
Proof.
  intros H. unfold int_of_float. destruct (Qlt_le_dec q 0) as [Hlt|]; [|done].
  exfalso. by apply (Qlt_not_le _ _ Hlt).
Qed.

Lemma int_of_float_Z (z : Z) : int_of_float (inject_Z z) = z.
Proof.
  unfold int_of_float. destruct (Qlt_le_dec _ _).
  - apply Qceiling_Z.
  - apply Qfloor_Z.
Qed.

(** The three fields in terms of the whole seconds. *)
Lemma hms_fields (s : Q) :
  int_of_float (floordiv s 3600) = Qfloor s / 3600
  /\ int_of_float (floordiv (fmod s 3600) 60) = (Qfloor s mod 3600) / 60
  /\ int_of_float (fmod s 60) = Qfloor s mod 60.
Proof.
  destruct s as [a b].
  assert (Hf : Qfloor (a # b) = a / Z.pos b) by done.
  split; [|split].
  - unfold floordiv. rewrite int_of_float_Z.
    change 3600%Q with (inject_Z (Z.pos 3600)). by rewrite Qfloor_div_pos.
  - unfold floordiv. rewrite int_of_float_Z. unfold fmod.
    change 3600%Q with (inject_Z (Z.pos 3600)). rewrite Qfloor_div_pos.
    set (k := a / Z.pos b / 3600).
    assert (E : ((a # b) - inject_Z k * inject_Z 3600
                 = (a + - (k * 3600) * Z.pos b) # b)%Q).
    { unfold Qminus, Qplus, Qopp, Qmult, inject_Z. cbn [Qnum Qden].
      by rewrite !Z.mul_1_r, Pos.mul_1_r. }
    rewrite E. change 60%Q with (inject_Z (Z.pos 60)). rewrite Qfloor_div_pos.
    rewrite Z.div_add by lia. rewrite Hf. subst k.
    rewrite (Z.mod_eq (a / Z.pos b) 3600) by lia. f_equal. lia.
  - rewrite int_of_float_nonneg
      by (change 60%Q with (inject_Z (Z.pos 60)); apply fmod_nonneg).
    unfold fmod. change 60%Q with (inject_Z (Z.pos 60)).
    rewrite Qfloor_div_pos, Qfloor_sub_mul, Hf.
    rewrite (Z.mod_eq (a / Z.pos b) 60) by lia. lia.
Qed.

(** X18.  [seconds_to_hms] shows the whole seconds of a duration, rounded
    down, split into hours, minutes below 60 and seconds below 60;
    the hours are not wrapped into days, and they are negative exactly
    for a negative duration. *)
Theorem seconds_to_hms_splits_whole_seconds (s : Q) :
  exists h m x : Z,
    seconds_to_hms s = format_02d h +:+ ":" +:+ format_02d m +:+ ":" +:+ format_02d x
    /\ 3600 * h + 60 * m + x = Qfloor s
    /\ 0 <= m < 60 /\ 0 <= x < 60
    /\ (0 <= h <-> (0 <= s)%Q).
Proof.
  destruct (hms_fields s) as (Hh & Hm & Hx).
  exists (Qfloor s / 3600), ((Qfloor s mod 3600) / 60), (Qfloor s mod 60).
  split; [unfold seconds_to_hms; by rewrite Hh, Hm, Hx|].
  pose proof (Z.mod_pos_bound (Qfloor s) 3600 ltac:(lia)).
  pose proof (Z.mod_pos_bound (Qfloor s) 60 ltac:(lia)).
  pose proof (Z.mod_pos_bound (Qfloor s mod 3600) 60 ltac:(lia)).
  pose proof (Z.div_mod (Qfloor s) 3600 ltac:(lia)).
  pose proof (Z.div_mod (Qfloor s mod 3600) 60 ltac:(lia)).
  assert (Hmm : (Qfloor s mod 3600) mod 60 = Qfloor s mod 60).
  { apply Z.mod_mod_divide. exists 60. lia. }
  split; [lia|]. split; [|split; [lia|]].
  - split; [apply Z.div_pos; lia|apply Z.div_lt_upper_bound; lia].
  - split.
    + intros Hh0. destruct (Qlt_le_dec s 0) as [Hneg|]; [|done]. exfalso.
      assert (Qfloor s < 0).
      { apply Z.lt_nge. intros Hge.
        assert (0 <= s)%Q.
        { eapply Qle_trans; [|apply Qfloor_le]. unfold Qle. simpl. lia. }
        by apply (Qlt_not_le _ _ Hneg). }
      pose proof (Z.div_lt_upper_bound (Qfloor s) 3600 0 ltac:(lia) ltac:(lia)). lia.
    + intros Hs. apply Z.div_pos; [|lia].
      change 0 with (Qfloor 0). by apply Qfloor_resp_le.
Qed.

(** *** The training log *)

Lemma training_row_cells (cfg : cfg_t) (d : Q) (now : string) :
  dict_to_list training_fieldnames (training_row cfg d now)
  = Ok (training_cells (cfg, d, now)).
Proof.
  unfold dict_to_list, training_row, training_cells, seconds_to_hms. cbn [fst snd].
  generalize (format_02d (int_of_float (floordiv d 3600)) +:+ ":"
              +:+ format_02d (int_of_float (floordiv (fmod d 3600) 60)) +:+ ":"
              +:+ format_02d (int_of_float (fmod d 60))).
  generalize (format_2f d) (or_unknown (OUTPUT_DIR cfg)) (or_unknown (SEED cfg))
    (or_unknown (OPTIM_MAX_EPOCH cfg)) (or_unknown (DATASET_NUM_SHOTS cfg))
    (or_unknown (TRAINER_NAME cfg)) (or_unknown (DATASET_NAME cfg)).
  intros s2 v1 v2 v3 v4 v5 v6 s1.
  match goal with |- context [wrong_fields ?f ?r] =>
    assert (Hw : wrong_fields f r = false) by (vm_compute; reflexivity);
    assert (Hv : row_values f r
                 = [VStr now; v6; v5; v4; v3; v2; VStr s2; VStr s1; v1])
      by (vm_compute; reflexivity)
  end.
  rewrite Hw, Hv. done.
Qed.

Lemma save_all_app runs1 runs2 fs :
  save_all (runs1 ++ runs2) fs = save_all runs2 (save_all runs1 fs).
Proof. unfold save_all. apply foldl_app. Qed.

(** X19.  Starting without the file, after any sequence of training runs the
    training log is the header followed by one nine-cell record per
    run, in the order of the runs; each record holds its run's clock,
    configuration values (or [Unknown]), the duration with two
    decimals, and the duration as [seconds_to_hms] shows it.  No run
    raises. *)
Theorem training_log_has_one_record_per_run (runs : list (cfg_t * Q * string))
    (fs : filesystem) :
  tables fs !! training_csv = None ->
  runs <> [] ->
  tables (save_all runs fs) !! training_csv
  = Some (training_fieldnames :: map training_cells runs)
  /\ (forall (cfg : cfg_t) (d : Q) (now : string) (fs' : filesystem),
        snd (save_training_results cfg d now fs') = Ok tt).
Proof.
  intros Hnone Hruns. split.
  - induction runs as [|r runs IH] using rev_ind; [done|].
    rewrite save_all_app, map_app. unfold save_all at 1. cbn [foldl fst map].
    unfold save_training_results.
    destruct r as [[cfg d] now]. cbn [fst snd]. rewrite training_row_cells.
    cbn [fst]. unfold set_table. cbn [tables]. rewrite lookup_insert_eq.
    destruct runs as [|r0 runs0].
    + cbn [save_all foldl app map]. unfold save_all. cbn [foldl]. by rewrite Hnone.
    + rewrite IH by done. done.
  - intros cfg d now fs'. unfold save_training_results.
    by rewrite training_row_cells.
Qed.

Lemma training_log_has_one_record_per_run_witness :
  tables (save_all
            [({| DATASET_NAME := Some (VStr "btmri"); TRAINER_NAME := None;
                 OPTIM_MAX_EPOCH := Some (VInt 50); SEED := Some (VInt 1);
                 DATASET_NUM_SHOTS := Some (VInt 16); OUTPUT_DIR := Some (VStr "out") |},
              (7325 # 2)%Q, "t1")]
            {| logs := ∅; tables := ∅ |}) !! training_csv
  = Some [training_fieldnames;
          ["t1"; "btmri"; "Unknown"; "16"; "50"; "1"; "3662.50"; "01:01:02"; "out"]].
Proof.
  pose proof (training_log_has_one_record_per_run
                [({| DATASET_NAME := Some (VStr "btmri"); TRAINER_NAME := None;
                     OPTIM_MAX_EPOCH := Some (VInt 50); SEED := Some (VInt 1);
                     DATASET_NUM_SHOTS := Some (VInt 16); OUTPUT_DIR := Some (VStr "out") |},
                  (7325 # 2)%Q, "t1")]
                {| logs := ∅; tables := ∅ |} eq_refl ltac:(discriminate)) as [H _].
  rewrite H. vm_compute. reflexivity.
Defined.

End TrainingTimesTheory.

(** ** Merging into a record of the two-phase table *)

Module MergeTheory.
Import Py LogResults Ledger RowCells Examples LedgerTheory.

Lemma NoDup_base2new_fieldnames : NoDup base2new_fieldnames.
Proof. apply (bool_decide_unpack _). vm_compute. exact I. Qed.

Lemma read_record_cells c0 c1 c2 c3 c4 c5 c6 c7 c8 c9 c10 :
  row_cells (read_record base2new_fieldnames [c0; c1; c2; c3; c4; c5; c6; c7; c8; c9; c10])
            (VStr <$> [c0; c1; c2; c3; c4; c5; c6; c7; c8; c9; c10]).
Proof.
  split.
  - apply (read_record_11 c0 c1 c2 c3 c4 c5 c6 c7 c8 c9 c10).
  - unfold base2new_fieldnames. csimpl.
    repeat (constructor; [vm_compute; reflexivity|]). constructor.
Qed.

Lemma row_cells_lookup (r : row_t) vs i k v :
  row_cells r vs -> base2new_fieldnames !! i = Some k -> vs !! i = Some v ->
  r !! Some k = Some v.
Proof.
  intros [_ H] Hk Hv. by apply (Forall2_lookup_lr _ _ _ _ _ _ H Hk Hv).
Qed.

Lemma row_cells_insert (r : row_t) vs i k v :
  row_cells r vs -> base2new_fieldnames !! i = Some k ->
  row_cells (<[Some k := v]> r) (<[i := v]> vs).
Proof.
  intros [Hw H] Hk. split.
  - apply wrong_fields_insert; [|done]. by eapply list_elem_of_lookup_2.
  - apply Forall2_same_length_lookup. split.
    + rewrite length_insert. by apply Forall2_length in H.
    + intros i' k' v' Hk' Hv'. destruct (decide (i' = i)) as [->|Hne].
      * assert (k' = k) as -> by congruence.
        rewrite list_lookup_insert_eq in Hv'.
        2:{ apply Forall2_length in H. rewrite <- H. by apply lookup_lt_Some in Hk. }
        rewrite lookup_insert_eq. congruence.
      * rewrite list_lookup_insert_ne in Hv' by done.
        rewrite lookup_insert_ne.
        -- by apply (Forall2_lookup_lr _ _ _ _ _ _ H Hk' Hv').
        -- intros [= ->]. apply Hne.
           by apply (NoDup_lookup _ _ _ _ NoDup_base2new_fieldnames Hk' Hk).
Qed.

Lemma row_cells_written (r : row_t) vs :
  row_cells r vs -> dict_to_list base2new_fieldnames r = Ok (str <$> vs).
Proof.
  intros [Hw H]. unfold dict_to_list, row_values. rewrite Hw. do 2 f_equal.
  revert H. generalize base2new_fieldnames.
  intros ks H. induction H as [|k v ks vs Hk _ IH]; [done|]. csimpl. by rewrite Hk, IH.
Qed.

Lemma float_of_string_nonempty s q : float_of_string s = Ok q -> s <> "".
Proof. by intros H ->. Qed.

(** The update branch on a full row, when the other phase's accuracy
    cell and, if a time is supplied, the time cell can be read. *)
Lemma update_row_cells (a : args) (metrics : gmap string val) (now : string) (r : row_t)
    c0 c1 c2 c3 c4 c5 c6 c7 c8 c9 c10 (n o cur : Q) :
  row_cells r (VStr <$> [c0; c1; c2; c3; c4; c5; c6; c7; c8; c9; c10]) ->
  metrics !! "accuracy" = Some (VFloat n) -> ~ (n == 0)%Q ->
  float_of_string (other_cell (subtask a) c5 c6) = Ok o ->
  (supplied_time a = None \/ float_of_string c8 = Ok cur) ->
  exists r',
    update_row a metrics now r = Ok r'
    /\ dict_to_list base2new_fieldnames r'
       = Ok [c0; c1; c2; c3; c4;
             (phase_cells (subtask a) (repr_float n) c5 c6).1;
             (phase_cells (subtask a) (repr_float n) c5 c6).2;
             format_2f (phase_mean (subtask a) n o);
             match supplied_time a with
             | Some t => format_2f (cur + t)
             | None => c8
             end;
             now; c10].
Proof.
  intros Hr Hacc Hn Ho Ht.
  assert (Hnz : Qeq_bool n 0 = false).
  { destruct (Qeq_bool n 0) eqn:E; [|done]. by apply Qeq_bool_iff in E. }
  pose proof (float_of_string_nonempty _ _ Ho) as Hne.
  unfold update_row, accuracy_or_na. rewrite Hacc.
  change (default (VStr "N/A") (Some (VFloat n))) with (VFloat n).
  set (i := match subtask a with Some Base => 5%nat | _ => 6%nat end).
  set (k := match subtask a with Some Base => "base_acc" | _ => "new_acc" end).
  set (r1 := match subtask a with
             | Some Base => <[Some "base_acc" := VFloat n]> r
             | _ => <[Some "new_acc" := VFloat n]> r
             end).
  assert (H1 : row_cells r1 (<[i := VFloat n]>
                               (VStr <$> [c0; c1; c2; c3; c4; c5; c6; c7; c8; c9; c10]))).
  { subst r1 i. destruct (subtask a) as [[|]|];
      (apply row_cells_insert; [exact Hr|reflexivity]). }
  clearbody r1.
  assert (Hb : r1 !! Some "base_acc"
               = Some (match subtask a with Some Base => VFloat n | _ => VStr c5 end)).
  { apply (row_cells_lookup _ _ 5 _ _ H1); [done|]. subst i.
    by destruct (subtask a) as [[|]|]. }
  assert (Hw : r1 !! Some "new_acc"
               = Some (match subtask a with Some Base => VStr c6 | _ => VFloat n end)).
  { apply (row_cells_lookup _ _ 6 _ _ H1); [done|]. subst i.
    by destruct (subtask a) as [[|]|]. }
  assert (Hhm : update_harmonic_mean r1
                = Ok (<[Some "harmonic_mean" := VStr (format_2f (phase_mean (subtask a) n o))]> r1)).
  { unfold update_harmonic_mean, get, getitem. rewrite Hb, Hw. cbn [default].
    unfold other_cell, phase_mean in *.
    destruct (subtask a) as [[|]|]; unfold Datatypes.id; cbn [truthy float bind];
      rewrite Hnz; apply String.eqb_neq in Hne; rewrite Hne; cbn [negb andb];
      rewrite Ho; cbn [bind]; done. }
  rewrite Hhm. cbn [bind].
  pose proof (row_cells_insert _ _ 7 "harmonic_mean"
                (VStr (format_2f (phase_mean (subtask a) n o))) H1 eq_refl) as H2.
  set (r2 := <[Some "harmonic_mean" := _]> r1) in *. clearbody r2.
  assert (Het : r2 !! Some "eval_time" = Some (VStr c8)).
  { apply (row_cells_lookup _ _ 8 _ _ H2); [done|]. subst i.
    by destruct (subtask a) as [[|]|]. }
  unfold update_eval_time. rewrite Het. cbn [from_option Datatypes.id float].
  destruct (supplied_time a) as [t|] eqn:Est.
  - destruct Ht as [|Hcur]; [done|]. rewrite Hcur. cbn [bind].
    pose proof (row_cells_insert _ _ 8 "eval_time" (VStr (format_2f (cur + t))) H2 eq_refl) as H3.
    pose proof (row_cells_insert _ _ 9 "timestamp" (VStr now) H3 eq_refl) as H4.
    eexists. split; [done|]. rewrite (row_cells_written _ _ H4).
    subst i. unfold phase_cells. by destruct (subtask a) as [[|]|].
  - cbn [bind].
    pose proof (row_cells_insert _ _ 9 "timestamp" (VStr now) H2 eq_refl) as H4.
    eexists. split; [done|]. rewrite (row_cells_written _ _ H4).
    subst i. unfold phase_cells. by destruct (subtask a) as [[|]|].
Qed.

(** The whole call when the matching record is updated and written. *)
Lemma merge_outcome (a : args) (metrics : gmap string val) (now : string) (fs : filesystem)
    (j : nat) (c : list string) (r' : row_t) (cells' : list string) :
  ledger_ok fs ->
  current_records a fs !! j = Some c -> record_key c = args_key a ->
  update_row a metrics now (read_record base2new_fieldnames c) = Ok r' ->
  dict_to_list base2new_fieldnames r' = Ok cells' ->
  log_base2new_result a metrics now fs
  = (set_table (base2new_csv a)
       (base2new_fieldnames :: <[j := cells']> (current_records a fs)) fs,
     let* _ := format_2f_val (accuracy_or_na metrics) in Ok tt).
Proof.
  intros Hok Hj Hkey Hup Hcells.
  destruct (existing_rows_read a fs Hok) as ((Hlen & Hnd) & Hread & _).
  unfold log_base2new_result. rewrite Hread. unfold merge_rows.
  destruct (find_matching_spec a (current_records a fs) 0 Hlen)
    as [[_ Hnew]|(j0 & c0 & -> & Hj0 & Hk0)]; cbn [bind].
  - exfalso. apply Hnew. apply list_elem_of_fmap. exists c. split; [done|].
    by apply list_elem_of_lookup_2 in Hj.
  - assert (j0 = j) as ->.
    { eapply NoDup_lookup; [exact Hnd| |].
      - rewrite list_lookup_fmap, Hj0. simpl. by rewrite Hk0.
      - rewrite list_lookup_fmap, Hj. simpl. by rewrite Hkey. }
    cbn [Nat.add]. rewrite list_lookup_fmap, Hj. cbn [fmap option_fmap option_map].
    rewrite Hup. cbn [bind].
    rewrite (writerows_ok _ (<[j := cells']> (current_records a fs))).
    2:{ apply Forall2_insert; [by apply read_rows_written|exact Hcells]. }
    done.
Qed.

End MergeTheory.

(** ** What a merge keeps and what it rewrites *)

Module MergeProperties.
Import Py LogResults Ledger RowCells Examples LedgerTheory LedgerClaims MergeTheory.

Lemma update_row_keeps_column (a : args) (metrics : gmap string val) (now : string)
    (r r' : gmap (option string) val) (k : string) :
  k ∉ ["base_acc"; "new_acc"; "harmonic_mean"; "eval_time"; "timestamp"] ->
  update_row a metrics now r = Ok r' ->
  r' !! Some k = r !! Some k.
Proof.
  intros Hk.
  assert (k <> "base_acc" /\ k <> "new_acc" /\ k <> "harmonic_mean"
          /\ k <> "eval_time" /\ k <> "timestamp") as (N1 & N2 & N3 & N4 & N5).
  { repeat split; intros ->; apply Hk; repeat first [by left | right]. }
  unfold update_row.
  set (r1 := match subtask a with
             | Some Base => <[Some "base_acc" := accuracy_or_na metrics]> r
             | _ => <[Some "new_acc" := accuracy_or_na metrics]> r
             end).
  assert (H1 : r1 !! Some k = r !! Some k).
  { subst r1. destruct (subtask a) as [[|]|]; rewrite lookup_insert_ne; congruence. }
  clearbody r1. unfold update_eval_time.
  destruct (update_harmonic_mean_cases r1) as [->|[s ->]]; cbn [bind];
    destruct (supplied_time a); cbn [bind];
    try (destruct (float _); cbn [bind]; [|discriminate]);
    intros [= <-]; rewrite ?lookup_insert_ne by congruence; done.
Qed.

Lemma update_row_timestamp (a : args) (metrics : gmap string val) (now : string)
    (r r' : gmap (option string) val) :
  update_row a metrics now r = Ok r' -> r' !! Some "timestamp" = Some (VStr now).
Proof.
  unfold update_row. destruct (update_harmonic_mean _); cbn [bind]; [|done].
  destruct (update_eval_time _ _); cbn [bind]; [|done].
  intros [= <-]. apply lookup_insert_eq.
Qed.

Lemma cells_written (r : gmap (option string) val) (cells : list string) :
  dict_to_list base2new_fieldnames r = Ok cells ->
  nth 1 cells "" = str (default (VStr "") (r !! Some "checkpoint_name"))
  /\ nth 9 cells "" = str (default (VStr "") (r !! Some "timestamp"))
  /\ nth 10 cells "" = str (default (VStr "") (r !! Some "notes")).
Proof.
  unfold dict_to_list. destruct (wrong_fields _ r); [discriminate|].
  intros [= <-]. done.
Qed.

Lemma read_record_columns (c : list string) :
  length c = 11%nat ->
  read_record base2new_fieldnames c !! Some "checkpoint_name" = Some (VStr (nth 1 c ""))
  /\ read_record base2new_fieldnames c !! Some "notes" = Some (VStr (nth 10 c "")).
Proof.
  intros H. destruct (length_11 c H) as (c0&c1&c2&c3&c4&c5&c6&c7&c8&c9&c10&->).
  split; vm_compute; reflexivity.
Qed.

(** X9.  When an ingest finds a record with its key, the checkpoint name and
    the notes given on the command line are not used: the record keeps
    the ones of the ingest that created it.  The timestamp is replaced
    by the current time unless the ingest raises and leaves the record
    as it is. *)
Theorem merge_keeps_first_checkpoint_and_notes (a : args) (metrics : gmap string val)
    (now : string) (fs : filesystem) (j : nat) (c : list string) :
  ledger_ok fs ->
  current_records a fs !! j = Some c -> record_key c = args_key a ->
  exists c',
    current_records a (fst (log_base2new_result a metrics now fs)) !! j = Some c'
    /\ nth 1 c' "" = nth 1 c "" /\ nth 10 c' "" = nth 10 c ""
    /\ (c' = c \/ nth 9 c' "" = now).
Proof.
  intros Hok Hj Hkey.
  destruct (existing_rows_read a fs Hok) as ((Hlen & Hnd) & _ & _).
  assert (Hlc : length c = 11%nat) by (eapply Forall_lookup_1 in Hlen; [|exact Hj]; done).
  destruct (update_row a metrics now (read_record base2new_fieldnames c)) as [r'|e] eqn:Hup.
  - pose proof (read_record_key c Hlc) as Hrk.
    pose proof (update_row_has_key _ _ _ _ _ _ Hrk Hup) as Hr'.
    destruct (dict_to_list_has_key _ _ Hr') as (cells' & Hcells & _ & _).
    rewrite (merge_outcome a metrics now fs j c r' cells' Hok Hj Hkey Hup Hcells).
    cbn [fst]. unfold current_records at 1, set_table. cbn [tables].
    rewrite lookup_insert_eq. cbn [tail]. exists cells'.
    split; [apply list_lookup_insert_eq; by apply lookup_lt_Some in Hj|].
    destruct (cells_written r' cells' Hcells) as (H1 & H9 & H10).
    destruct (read_record_columns c Hlc) as (R1 & R10).
    rewrite H1, H9, H10.
    rewrite (update_row_keeps_column a metrics now _ r' "checkpoint_name") by
      (try done; intros Hin;
       repeat (apply elem_of_cons in Hin as [Hin|Hin]; [discriminate|]);
       by apply elem_of_nil in Hin).
    rewrite (update_row_keeps_column a metrics now _ r' "notes") by
      (try done; intros Hin;
       repeat (apply elem_of_cons in Hin as [Hin|Hin]; [discriminate|]);
       by apply elem_of_nil in Hin).
    rewrite R1, R10, (update_row_timestamp a metrics now _ r' Hup). auto.
  - exists c. split; [|auto].
    assert (E : log_base2new_result a metrics now fs = (fs, Raise e)).
    { destruct (existing_rows_read a fs Hok) as (_ & Hread & _).
      unfold log_base2new_result. rewrite Hread. unfold merge_rows.
      destruct (find_matching_spec a (current_records a fs) 0 Hlen)
        as [[_ Hnew]|(j0 & c0 & -> & Hj0 & Hk0)]; cbn [bind].
      - exfalso. apply Hnew. apply list_elem_of_fmap. exists c. split; [done|].
        by apply list_elem_of_lookup_2 in Hj.
      - assert (j0 = j) as ->.
        { eapply NoDup_lookup; [exact Hnd| |].
          - rewrite list_lookup_fmap, Hj0. simpl. by rewrite Hk0.
          - rewrite list_lookup_fmap, Hj. simpl. by rewrite Hkey. }
        cbn [Nat.add]. rewrite list_lookup_fmap, Hj. cbn [fmap option_fmap option_map].
        by rewrite Hup. }
    by rewrite E.
Qed.

Lemma merge_keeps_first_checkpoint_and_notes_witness :
  exists c',
    current_records (run Base2New "new/log.txt" (Some New) None)
      (fst (log_base2new_result
              {| task := Base2New; log_file := "new/log.txt"; model := "M";
                 dataset := "btmri"; shot := 16; seed := 1; eval_time := None;
                 checkpoint := Some "epoch50"; subtask := Some New; notes := "rerun" |}
              {[ "accuracy" := VFloat 60%Q ]} "t2"
              (ingest_all [(run Base2New "base/log.txt" (Some Base) None,
                            {[ "accuracy" := VFloat 80%Q ]}, "t1")] some_logs)))
      !! 0%nat = Some c'
    /\ nth 1 c' "" = "N/A" /\ nth 10 c' "" = ""
    /\ (c' = ["M"; "N/A"; "btmri"; "16"; "1"; "80.0"; ""; ""; "N/A"; "t1"; ""]
        \/ nth 9 c' "" = "t2").
Proof.
  apply (merge_keeps_first_checkpoint_and_notes
           {| task := Base2New; log_file := "new/log.txt"; model := "M";
              dataset := "btmri"; shot := 16; seed := 1; eval_time := None;
              checkpoint := Some "epoch50"; subtask := Some New; notes := "rerun" |}
           {[ "accuracy" := VFloat 60%Q ]} "t2"
           (ingest_all [(run Base2New "base/log.txt" (Some Base) None,
                         {[ "accuracy" := VFloat 80%Q ]}, "t1")] some_logs)
           0 ["M"; "N/A"; "btmri"; "16"; "1"; "80.0"; ""; ""; "N/A"; "t1"; ""]).
  - apply ingest_all_preserves. by apply ledger_ok_empty.
  - vm_compute. reflexivity.
  - reflexivity.
Defined.

(** X7.  An ingest that finds the record with its key, brings a non-zero
    accuracy, and meets a readable accuracy in the other phase's cell
    (and a readable time cell when it supplies a time) rewrites exactly
    that record: identity, checkpoint and notes are kept, the cell of
    the ingested phase receives the accuracy, the harmonic mean is
    [2 * base * new / (base + new)] with two decimals, the time cell is
    the sum of the stored and the supplied time with two decimals, and
    the timestamp is the current time.  The call ends normally. *)
Theorem merge_completes_record (a : args) (metrics : gmap string val) (now : string)
    (fs : filesystem) (j : nat) (c0 c1 c2 c3 c4 c5 c6 c7 c8 c9 c10 : string)
    (n o cur : Q) :
  ledger_ok fs ->
  current_records a fs !! j = Some [c0; c1; c2; c3; c4; c5; c6; c7; c8; c9; c10] ->
  (c0, c2, c3, c4) = args_key a ->
  metrics !! "accuracy" = Some (VFloat n) -> ~ (n == 0)%Q ->
  float_of_string (other_cell (subtask a) c5 c6) = Ok o ->
  (supplied_time a = None \/ float_of_string c8 = Ok cur) ->
  log_base2new_result a metrics now fs
  = (set_table (base2new_csv a)
       (base2new_fieldnames ::
        <[j := [c0; c1; c2; c3; c4;
                (phase_cells (subtask a) (repr_float n) c5 c6).1;
                (phase_cells (subtask a) (repr_float n) c5 c6).2;
                format_2f (phase_mean (subtask a) n o);
                match supplied_time a with
                | Some t => format_2f (cur + t)
                | None => c8
                end;
                now; c10]]> (current_records a fs)) fs,
     Ok tt).
Proof.
  intros Hok Hj Hkey Hacc Hn Ho Ht.
  destruct (update_row_cells a metrics now _ c0 c1 c2 c3 c4 c5 c6 c7 c8 c9 c10 n o cur
              (read_record_cells c0 c1 c2 c3 c4 c5 c6 c7 c8 c9 c10) Hacc Hn Ho Ht)
    as (r' & Hup & Hcells).
  rewrite (merge_outcome a metrics now fs j _ r' _ Hok Hj Hkey Hup Hcells).
  unfold accuracy_or_na. by rewrite Hacc.
Qed.

Lemma merge_completes_record_witness :
  log_base2new_result (run Base2New "new/log.txt" (Some New) (Some 30%Q))
    {[ "accuracy" := VFloat 60%Q ]} "t2"
    (ingest_all [(run Base2New "base/log.txt" (Some Base) (Some 120%Q),
                  {[ "accuracy" := VFloat 80%Q ]}, "t1")] some_logs)
  = (set_table "base2new_M.csv"
       [base2new_fieldnames;
        ["M"; "N/A"; "btmri"; "16"; "1"; "80.0"; "60.0"; "68.57"; "150.00"; "t2"; ""]]
       (ingest_all [(run Base2New "base/log.txt" (Some Base) (Some 120%Q),
                     {[ "accuracy" := VFloat 80%Q ]}, "t1")] some_logs),
     Ok tt).
Proof.
  rewrite (merge_completes_record
             (run Base2New "new/log.txt" (Some New) (Some 30%Q))
             {[ "accuracy" := VFloat 60%Q ]} "t2"
             (ingest_all [(run Base2New "base/log.txt" (Some Base) (Some 120%Q),
                           {[ "accuracy" := VFloat 80%Q ]}, "t1")] some_logs)
             0 "M" "N/A" "btmri" "16" "1" "80.0" "" "" "120.00" "t1" "" 60 80 120).
  - vm_compute. reflexivity.
  - apply ingest_all_preserves. by apply ledger_ok_empty.
  - vm_compute. reflexivity.
  - reflexivity.
  - reflexivity.
  - discriminate.
  - vm_compute. reflexivity.
  - right. vm_compute. reflexivity.
Defined.

End MergeProperties.

(** ** Numbers written to a cell and read back *)

Module DigitsTheory.
Import Py LogResults MetricShape MetricShapeTheory.

Lemma digits_value_pos (d : Decimal.uint) (acc : positive) :
  digits_value (Z.pos acc) (NilEmpty.string_of_uint d) = Z.pos (Pos.of_uint_acc d acc).
Proof.
  revert acc. induction d; intros acc; cbn [NilEmpty.string_of_uint digits_value Pos.of_uint_acc];
    [done|..]; rewrite <- IHd; f_equal; vm_compute digit_value; lia.
Qed.

Lemma digits_value_uint (d : Decimal.uint) :
  digits_value 0 (NilEmpty.string_of_uint d) = Z.of_N (Pos.of_uint d).
Proof.
  induction d; cbn [NilEmpty.string_of_uint digits_value Pos.of_uint]; [done|exact IHd|..];
    (etransitivity; [|apply digits_value_pos]); f_equal.
Qed.

Lemma digits_value_numeral (d : Decimal.uint) :
  digits_value 0 (NilZero.string_of_uint d) = Z.of_N (N.of_uint d).
Proof.
  unfold NilZero.string_of_uint, N.of_uint.
  destruct d; [reflexivity|..];
    match goal with |- digits_value 0 (NilEmpty.string_of_uint ?x) = _ =>
      exact (digits_value_uint x) end.
Qed.

Lemma digits_value_string_of_nat_Z (n : Z) :
  0 <= n -> digits_value 0 (string_of_nat_Z n) = n.
Proof.
  intros Hn. unfold string_of_nat_Z.
  rewrite digits_value_numeral, DecimalN.Unsigned.of_to. lia.
Qed.

Lemma digits_value_app (s1 s2 : string) (acc : Z) :
  digits_value acc (s1 +:+ s2) = digits_value (digits_value acc s1) s2.
Proof. revert acc. induction s1 as [|c s1 IH]; intros acc; simpl; [done|apply IH]. Qed.

Lemma digits_value_shift (s : string) (acc : Z) :
  digits_value acc s = acc * 10 ^ Z.of_nat (String.length s) + digits_value 0 s.
Proof.
  revert acc. induction s as [|c s IH]; intros acc.
  - simpl. lia.
  - cbn [digits_value String.length]. rewrite (IH (10 * acc + digit_value c)).
    rewrite (IH (10 * 0 + digit_value c)). rewrite Nat2Z.inj_succ, Z.pow_succ_r by lia. ring.
Qed.

Lemma digits_value_zeros (k : nat) (s : string) (acc : Z) :
  digits_value acc (zeros k +:+ s) = digits_value (acc * 10 ^ Z.of_nat k) s.
Proof.
  revert acc. induction k as [|k IH]; intros acc.
  - simpl. f_equal. lia.
  - cbn [zeros digits_value]. change (String "0" (zeros k) +:+ s)
      with (String "0" (zeros k +:+ s)).
    cbn [digits_value]. rewrite IH. f_equal.
    rewrite Nat2Z.inj_succ, Z.pow_succ_r by lia. vm_compute digit_value. ring.
Qed.

Lemma length_app_string (s1 s2 : string) :
  String.length (s1 +:+ s2) = (String.length s1 + String.length s2)%nat.
Proof. induction s1 as [|c s1 IH]; simpl; [done|by rewrite IH]. Qed.

Lemma length_zeros (k : nat) : String.length (zeros k) = k.
Proof. induction k as [|k IH]; simpl; [done|by rewrite IH]. Qed.

Lemma all_digits_zeros (k : nat) : all_chars is_digit (zeros k) = true.
Proof. induction k as [|k IH]; simpl; [done|exact IH]. Qed.

Lemma all_digits_uint (d : Decimal.uint) :
  all_chars is_digit (NilEmpty.string_of_uint d) = true.
Proof. induction d; simpl; done. Qed.

Lemma all_digits_string_of_nat_Z (n : Z) : all_chars is_digit (string_of_nat_Z n) = true.
Proof.
  unfold string_of_nat_Z, NilZero.string_of_uint.
  destruct (N.to_uint (Z.to_N n)) eqn:E; [done|..]; rewrite <- E; apply all_digits_uint.
Qed.

Lemma string_of_nat_Z_nonempty (n : Z) : string_of_nat_Z n <> "".
Proof.
  unfold string_of_nat_Z, NilZero.string_of_uint.
  destruct (N.to_uint (Z.to_N n)); done.
Qed.

(** A numeral without leading zero is at least the power of ten of its
    length. *)
Lemma nzhead_not_D0 (d d' : Decimal.uint) : Decimal.nzhead d <> Decimal.D0 d'.
Proof. induction d; simpl; done. Qed.

Lemma numeral_lower_bound (d : Decimal.uint) :
  Decimal.nzhead d = d -> d <> Decimal.Nil ->
  10 ^ Z.of_nat (String.length (NilEmpty.string_of_uint d) - 1)
  <= digits_value 0 (NilEmpty.string_of_uint d).
Proof.
  intros Hd Hn.
  destruct d as [|d|d|d|d|d|d|d|d|d|d]; [done|by apply nzhead_not_D0 in Hd|..];
    cbn [NilEmpty.string_of_uint digits_value String.length];
    rewrite Nat.sub_succ, Nat.sub_0_r, digits_value_shift;
    pose proof (digits_value_nonneg _ 0 (all_digits_uint d) ltac:(lia));
    pose proof (Z.pow_pos_nonneg 10 (Z.of_nat (String.length (NilEmpty.string_of_uint d)))
                  ltac:(lia) ltac:(lia));
    vm_compute digit_value; nia.
Qed.

Lemma length_string_of_nat_Z (n : Z) (k : nat) :
  0 <= n < 10 ^ Z.of_nat k -> (1 <= k)%nat ->
  (String.length (string_of_nat_Z n) <= k)%nat.
Proof.
  intros [Hn Hlt] Hk.
  pose proof (digits_value_string_of_nat_Z n Hn) as Hv.
  unfold string_of_nat_Z, NilZero.string_of_uint in *.
  set (d := N.to_uint (Z.to_N n)) in *.
  assert (Hnorm : Decimal.unorm d = d).
  { subst d. rewrite <- (DecimalN.Unsigned.of_to (Z.to_N n)) at 2.
    symmetry. apply DecimalN.Unsigned.to_of. }
  clearbody d. unfold Decimal.unorm in Hnorm.
  destruct (Decimal.nzhead d) as [|d'|d'|d'|d'|d'|d'|d'|d'|d'|d'] eqn:Hz;
    try (subst d; simpl; lia);
    (destruct (le_lt_dec (String.length (NilEmpty.string_of_uint d)) k) as [Hle|Hgt];
     [subst d; exact Hle|]; exfalso;
     assert (Hd : Decimal.nzhead d = d) by congruence;
     assert (Hnn : d <> Decimal.Nil) by (subst d; done);
     pose proof (numeral_lower_bound d Hd Hnn) as Hlow;
     assert (Hv' : digits_value 0 (NilEmpty.string_of_uint d) = n)
       by (subst d; exact Hv);
     assert (10 ^ Z.of_nat k <= 10 ^ Z.of_nat (String.length (NilEmpty.string_of_uint d) - 1))
       by (apply Z.pow_le_mono_r; lia);
     lia).
Qed.

Lemma span_digits_app (s rest : string) :
  all_chars is_digit s = true ->
  span is_digit (s +:+ rest) = ((s +:+ (span is_digit rest).1), (span is_digit rest).2).
Proof.
  induction s as [|c s IH].
  - intros _. change ("" +:+ rest) with rest. destruct (span is_digit rest). reflexivity.
  - cbn [all_chars]. intros [Hc Hs]%andb_true_iff.
    change (String c s +:+ rest) with (String c (s +:+ rest)).
    cbn [span]. rewrite Hc, (IH Hs). reflexivity.
Qed.

Lemma string_app_nil_r (s : string) : s +:+ "" = s.
Proof.
  induction s as [|c s IH]; [done|].
  change (String c s +:+ "") with (String c (s +:+ "")). by rewrite IH.
Qed.

Lemma all_chars_weaken (p q : ascii -> bool) (s : string) :
  (forall c, p c = true -> q c = true) -> all_chars p s = true -> all_chars q s = true.
Proof.
  intros Hpq. induction s as [|c s IH]; simpl; [done|].
  intros [Hc Hs]%andb_true_iff. by rewrite (Hpq c Hc), IH.
Qed.

Lemma digit_is_digit_or_dot c : is_digit c = true -> is_digit_or_dot c = true.
Proof. unfold is_digit_or_dot. by intros ->. Qed.

(** The numeral of [n / 10^k] with [k] fractional digits reads back as
    that number. *)
Lemma float_of_fixed_point (n : Z) (k : nat) :
  0 <= n -> (1 <= k)%nat ->
  float_of_string (fixed_point n k) = Ok (scale10 n (- Z.of_nat k)).
Proof.
  intros Hn Hk. unfold fixed_point. cbv zeta.
  set (p := 10 ^ Z.of_nat k).
  assert (Hp : 0 < p) by (apply Z.pow_pos_nonneg; lia).
  set (A := string_of_nat_Z (n / p)). set (B := string_of_nat_Z (n mod p)).
  assert (HA : all_chars is_digit A = true) by apply all_digits_string_of_nat_Z.
  assert (HB : all_chars is_digit B = true) by apply all_digits_string_of_nat_Z.
  assert (HlB : (String.length B <= k)%nat).
  { apply length_string_of_nat_Z; [|done]. apply Z.mod_pos_bound. done. }
  assert (HZ : all_chars is_digit (zero_pad k B) = true)
    by (apply all_chars_app; [apply all_digits_zeros|done]).
  assert (HlZ : String.length (zero_pad k B) = k).
  { unfold zero_pad. rewrite length_app_string, length_zeros. lia. }
  assert (Hall : all_chars is_digit_or_dot (A +:+ "." +:+ zero_pad k B) = true).
  { apply all_chars_app; [by apply (all_chars_weaken is_digit), HA; apply digit_is_digit_or_dot|].
    apply (all_chars_app _ "."); [done|].
    by apply (all_chars_weaken is_digit), HZ; apply digit_is_digit_or_dot. }
  unfold float_of_string, strip.
  rewrite (lstrip_no_space _ Hall), (rstrip_no_space _ Hall), (take_sign_unsigned _ Hall).
  rewrite (span_digits_app A ("." +:+ zero_pad k B) HA).
  change (span is_digit ("." +:+ zero_pad k B)) with (EmptyString, "." +:+ zero_pad k B).
  cbn [fst snd]. rewrite string_app_nil_r.
  change ("." +:+ zero_pad k B) with (String "." (zero_pad k B)). cbv iota beta.
  assert (Hs : span is_digit (zero_pad k B) = (zero_pad k B, "")).
  { pose proof (span_digits_app (zero_pad k B) "" HZ) as Hs.
    rewrite string_app_nil_r in Hs. rewrite Hs.
    change (span is_digit "") with (EmptyString, EmptyString). cbn [fst snd].
    by rewrite string_app_nil_r. }
  rewrite Hs.
  assert (HlA : String.length A <> 0%nat).
  { pose proof (string_of_nat_Z_nonempty (n / p)). fold A in H. by destruct A. }
  destruct (String.length A + String.length (zero_pad k B) =? 0)%nat eqn:E;
    [apply Nat.eqb_eq in E; lia|].
  rewrite HlZ. do 2 f_equal.
  rewrite digits_value_app. unfold zero_pad. rewrite digits_value_zeros.
  rewrite (digits_value_shift B). unfold A, B.
  rewrite !digits_value_string_of_nat_Z
    by (first [apply Z.div_pos; lia | apply Z.mod_pos_bound; lia]).
  fold B. rewrite <- Z.mul_assoc, <- Z.pow_add_r by lia.
  replace (Z.of_nat (k - String.length B) + Z.of_nat (String.length B)) with (Z.of_nat k) by lia.
  fold p. pose proof (Z.div_mod n p ltac:(lia)). lia.
Qed.

End DigitsTheory.

(** ** Cells read back *)

Module ReadBackTheory.
Import Py LogResults CellValues DigitsTheory.

Lemma round_half_even_comp (x y : Q) :
  (x == y)%Q -> round_half_even x = round_half_even y.
Proof.
  intros H. unfold round_half_even. rewrite (Qfloor_comp _ _ H).
  assert (E : (x - inject_Z (Qfloor y) == y - inject_Z (Qfloor y))%Q) by (by rewrite H).
  by rewrite (Qcompare_comp _ _ E (1 # 2)%Q (1 # 2)%Q (Qeq_refl _)).
Qed.

Lemma round_half_even_Z (x : Q) (z : Z) :
  (x == inject_Z z)%Q -> round_half_even x = z.
Proof.
  intros H. rewrite (round_half_even_comp _ _ H). unfold round_half_even.
  rewrite Qfloor_Z.
  assert (E : ((inject_Z z - inject_Z z)%Q ?= (1 # 2)%Q)%Q = Lt).
  { unfold Qcompare, Qminus, Qplus, Qopp, inject_Z. cbn [Qnum Qden].
    apply Z.compare_lt_iff. lia. }
  by rewrite E.
Qed.

Lemma round_half_even_nonneg (x : Q) : (0 <= x)%Q -> 0 <= round_half_even x.
Proof.
  intros H. unfold round_half_even.
  assert (0 <= Qfloor x) by (change 0 with (Qfloor 0); by apply Qfloor_resp_le).
  destruct (Qcompare _ _); [destruct (Z.even _)|..]; lia.
Qed.

Lemma format_2f_comp (x y : Q) : (x == y)%Q -> format_2f x = format_2f y.
Proof.
  intros H. unfold format_2f.
  assert (E : (Qabs x * 100 == Qabs y * 100)%Q) by (by rewrite H).
  rewrite (round_half_even_comp _ _ E).
  destruct (Qlt_le_dec x 0) as [Hx|Hx], (Qlt_le_dec y 0) as [Hy|Hy]; try done; exfalso.
  - rewrite H in Hx. by apply (Qlt_not_le _ _ Hx).
  - rewrite <- H in Hy. by apply (Qlt_not_le _ _ Hy).
Qed.

Lemma h_mean_comp (b b' n : Q) : (b == b')%Q -> (h_mean b n == h_mean b' n)%Q.
Proof.
  intros H. unfold h_mean.
  destruct (Qlt_le_dec 0 (b + n)) as [Hx|Hx], (Qlt_le_dec 0 (b' + n)) as [Hy|Hy].
  - by rewrite H.
  - exfalso. rewrite H in Hx. by apply (Qlt_not_le _ _ Hx).
  - exfalso. rewrite <- H in Hy. by apply (Qlt_not_le _ _ Hy).
  - done.
Qed.

(** A time written with two decimals reads back as the rounded time. *)
Lemma format_2f_read_back (q : Q) :
  (0 <= q)%Q -> float_of_string (format_2f q) = Ok (round_2 q).
Proof.
  intros Hq. unfold format_2f, round_2.
  destruct (Qlt_le_dec q 0) as [Hneg|_]; [exfalso; by apply (Qlt_not_le _ _ Hneg)|].
  apply (float_of_fixed_point _ 2); [|lia].
  apply round_half_even_nonneg. apply Qmult_le_0_compat; [apply Qabs_nonneg|done].
Qed.

Lemma decimal_places_integer (fuel j k : nat) (y : Q) :
  decimal_places fuel j y = Some k ->
  (j <= k)%nat /\ exists z, (y * inject_Z (10 ^ Z.of_nat (k - j)) == inject_Z z)%Q.
Proof.
  revert j y. induction fuel as [|fuel IH]; intros j y; cbn [decimal_places];
    destruct (Qden (Qred y) =? 1)%positive eqn:E.
  - intros [= <-]. split; [done|]. exists (Qnum (Qred y)).
    rewrite Nat.sub_diag. change (inject_Z (10 ^ Z.of_nat 0)) with 1%Q. rewrite Qmult_1_r.
    rewrite <- (Qred_correct y) at 1. apply Pos.eqb_eq in E.
    destruct (Qred y) as [a d]. simpl in *. by subst d.
  - done.
  - intros [= <-]. split; [done|]. exists (Qnum (Qred y)).
    rewrite Nat.sub_diag. change (inject_Z (10 ^ Z.of_nat 0)) with 1%Q. rewrite Qmult_1_r.
    rewrite <- (Qred_correct y) at 1. apply Pos.eqb_eq in E.
    destruct (Qred y) as [a d]. simpl in *. by subst d.
  - intros H. destruct (IH _ _ H) as (Hle & z & Hz). split; [lia|]. exists z.
    rewrite <- Hz. replace (k - j)%nat with (S (k - S j)) by lia.
    rewrite Nat2Z.inj_succ, Z.pow_succ_r by lia. rewrite inject_Z_mult. ring.
Qed.

(** An accuracy written by [str] reads back as the same number. *)
Lemma repr_float_read_back (q : Q) :
  (0 <= q)%Q -> prints_exactly q -> float_of_string (repr_float q) = Ok (Qred q).
Proof.
  intros Hq Hp. unfold prints_exactly in Hp. unfold repr_float.
  destruct (decimal_places 17 0 (Qabs q)) as [k0|] eqn:Ek; [|done].
  destruct (decimal_places_integer _ _ _ _ Ek) as (_ & z & Hz).
  rewrite Nat.sub_0_r in Hz.
  set (k := match k0 with O => 1%nat | S _ => k0 end).
  assert (Hk : (1 <= k)%nat) by (subst k; destruct k0; lia).
  assert (Habs : (Qabs q == q)%Q) by (by apply Qabs_pos).
  assert (Hint : exists z', (Qabs q * inject_Z (10 ^ Z.of_nat k) == inject_Z z')%Q).
  { subst k. destruct k0 as [|k0'].
    - exists (z * 10). change (inject_Z (10 ^ Z.of_nat 0)) with 1%Q in Hz.
      rewrite Qmult_1_r in Hz. rewrite Hz. change (inject_Z (10 ^ Z.of_nat 1)) with (inject_Z 10).
      by rewrite inject_Z_mult.
    - by exists z. }
  destruct Hint as [z' Hz'].
  change (match Some k0 with
          | Some 0%nat => 1%nat
          | Some (S _ as k1) => k1
          | None => 17%nat
          end) with k. cbv zeta.
  destruct (Qlt_le_dec q 0) as [Hneg|_]; [exfalso; by apply (Qlt_not_le _ _ Hneg)|].
  rewrite (round_half_even_Z _ _ Hz').
  assert (Hz0 : 0 <= z').
  { assert (H0 : (0 <= inject_Z z')%Q).
    { rewrite <- Hz'. apply Qmult_le_0_compat; [apply Qabs_nonneg|].
      unfold Qle. simpl. pose proof (Z.pow_pos_nonneg 10 (Z.of_nat k) ltac:(lia) ltac:(lia)). lia. }
    unfold Qle in H0. simpl in H0. lia. }
  rewrite (float_of_fixed_point z' k Hz0 Hk). f_equal.
  unfold scale10. destruct (0 <=? - Z.of_nat k) eqn:E; [apply Z.leb_le in E; lia|].
  apply Qred_complete. rewrite Z.opp_involutive.
  pose proof (Z.pow_pos_nonneg 10 (Z.of_nat k) ltac:(lia) ltac:(lia)) as Hpow.
  rewrite <- Habs.
  assert (Hq' : (Qabs q == inject_Z z' / inject_Z (10 ^ Z.of_nat k))%Q).
  { rewrite <- Hz'. field. unfold Qeq. simpl. lia. }
  rewrite Hq'. rewrite Qmake_Qdiv. by rewrite Z2Pos.id by lia.
Qed.

End ReadBackTheory.

(** ** A record from its first ingest to its completion *)

Module TwoPhaseTheory.
Import Py LogResults Ledger RowCells CellValues Examples.
Import LedgerTheory LedgerClaims FewShotTheory MergeTheory ReadBackTheory.

Lemma new_row_written (a : args) (metrics : gmap string val) (now : string) :
  dict_to_list base2new_fieldnames (new_row a metrics now)
  = Ok [model a; or_default (checkpoint a) "N/A"; dataset a;
        str_int (shot a); str_int (seed a);
        str (match subtask a with Some Base => accuracy_or_na metrics | _ => VStr "" end);
        str (match subtask a with Some New => accuracy_or_na metrics | _ => VStr "" end);
        ""; str (eval_time_cell a); now; notes a].
Proof.
  unfold dict_to_list, new_row. rewrite or_default_notes.
  generalize (eval_time_cell a) (or_default (checkpoint a) "N/A")
    (match subtask a with Some Base => accuracy_or_na metrics | _ => VStr "" end)
    (match subtask a with Some New => accuracy_or_na metrics | _ => VStr "" end).
  intros v s vb vn.
  match goal with |- context [wrong_fields ?f ?r] =>
    assert (Hw : wrong_fields f r = false) by (vm_compute; reflexivity);
    assert (Hv : row_values f r
                 = [VStr (model a); VStr s; VStr (dataset a); VInt (shot a);
                    VInt (seed a); vb; vn; VStr ""; v; VStr now; VStr (notes a)])
      by (vm_compute; reflexivity)
  end.
  rewrite Hw, Hv. done.
Qed.

(** The whole call when no record has the key. *)
Lemma create_outcome (a : args) (metrics : gmap string val) (now : string) (fs : filesystem)
    (cells : list string) :
  ledger_ok fs ->
  args_key a ∉ (record_key <$> current_records a fs) ->
  dict_to_list base2new_fieldnames (new_row a metrics now) = Ok cells ->
  log_base2new_result a metrics now fs
  = (set_table (base2new_csv a)
       (base2new_fieldnames :: current_records a fs ++ [cells]) fs,
     let* _ := format_2f_val (accuracy_or_na metrics) in Ok tt).
Proof.
  intros Hok Hnew Hcells.
  destruct (existing_rows_read a fs Hok) as ((Hlen & Hnd) & Hread & _).
  unfold log_base2new_result. rewrite Hread. unfold merge_rows.
  destruct (find_matching_spec a (current_records a fs) 0 Hlen)
    as [[-> _]|(j & c & _ & Hj & Hk)]; cbn [bind].
  - rewrite (writerows_ok _ (current_records a fs ++ [cells])); [done|].
    apply Forall2_app; [by apply read_rows_written|].
    constructor; [exact Hcells|constructor].
  - exfalso. apply Hnew. apply list_elem_of_fmap. exists c. split; [done|].
    by apply list_elem_of_lookup_2 in Hj.
Qed.

(** X6.  The first ingest of a key appends one record after the existing
    ones: it holds the identity, the checkpoint (or ["N/A"]), the
    accuracy in the cell of the ingested phase, an empty cell for the
    other phase and for the harmonic mean, the time with two decimals
    (or ["N/A"]), the current time and the notes.  The call ends
    normally. *)
Theorem first_ingest_appends_record (a : args) (metrics : gmap string val) (now : string)
    (fs : filesystem) (x : Q) :
  ledger_ok fs ->
  args_key a ∉ (record_key <$> current_records a fs) ->
  metrics !! "accuracy" = Some (VFloat x) ->
  log_base2new_result a metrics now fs
  = (set_table (base2new_csv a)
       (base2new_fieldnames ::
        current_records a fs ++
        [[model a; or_default (checkpoint a) "N/A"; dataset a;
          str_int (shot a); str_int (seed a);
          match subtask a with Some Base => repr_float x | _ => "" end;
          match subtask a with Some New => repr_float x | _ => "" end;
          ""; str (eval_time_cell a); now; notes a]]) fs,
     Ok tt).
Proof.
  intros Hok Hnew Hacc.
  rewrite (create_outcome a metrics now fs _ Hok Hnew (new_row_written a metrics now)).
  unfold accuracy_or_na. rewrite Hacc. cbn [from_option Datatypes.id format_2f_val bind].
  by destruct (subtask a) as [[|]|].
Qed.

Lemma first_ingest_appends_record_witness :
  log_base2new_result (run Base2New "base/log.txt" (Some Base) (Some 120%Q))
    {[ "accuracy" := VFloat 80%Q ]} "t1" some_logs
  = (set_table "base2new_M.csv"
       [base2new_fieldnames;
        ["M"; "N/A"; "btmri"; "16"; "1"; "80.0"; ""; ""; "120.00"; "t1"; ""]]
       some_logs,
     Ok tt).
Proof.
  rewrite (first_ingest_appends_record
             (run Base2New "base/log.txt" (Some Base) (Some 120%Q))
             {[ "accuracy" := VFloat 80%Q ]} "t1" some_logs 80).
  - vm_compute. reflexivity.
  - by apply ledger_ok_empty.
  - apply not_elem_of_nil.
  - reflexivity.
Defined.

(** X8.  Starting from an empty ledger, the base ingest of a key followed by
    its new ingest, each with an accuracy and a time, leaves one record
    with both accuracies as [str] prints them, the harmonic mean
    [2 * base * new / (base + new)] with two decimals, and as time the
    first time rounded to two decimals plus the second, again with two
    decimals; checkpoint and notes are those of the base ingest, the
    timestamp that of the new one.  Both calls end normally. *)
Theorem base_then_new_fills_record (a1 a2 : args) (m1 m2 : gmap string val)
    (now1 now2 : string) (fs : filesystem) (b n t1 t2 : Q) :
  tables fs = ∅ ->
  subtask a1 = Some Base -> subtask a2 = Some New ->
  args_key a2 = args_key a1 ->
  m1 !! "accuracy" = Some (VFloat b) -> (0 <= b)%Q -> prints_exactly b ->
  m2 !! "accuracy" = Some (VFloat n) -> ~ (n == 0)%Q ->
  supplied_time a1 = Some t1 -> (0 <= t1)%Q -> supplied_time a2 = Some t2 ->
  let fs1 := fst (log_base2new_result a1 m1 now1 fs) in
  snd (log_base2new_result a1 m1 now1 fs) = Ok tt
  /\ snd (log_base2new_result a2 m2 now2 fs1) = Ok tt
  /\ tables (fst (log_base2new_result a2 m2 now2 fs1)) !! base2new_csv a1
     = Some [base2new_fieldnames;
             [model a1; or_default (checkpoint a1) "N/A"; dataset a1;
              str_int (shot a1); str_int (seed a1);
              repr_float b; repr_float n; format_2f (h_mean b n);
              format_2f (round_2 t1 + t2); now2; notes a1]].
Proof.
  intros Hempty Hs1 Hs2 Hkey Hm1 Hb Hpb Hm2 Hn Ht1 Ht1pos Ht2 fs1.
  assert (Hok : ledger_ok fs) by (by apply ledger_ok_empty).
  assert (Hrecs : current_records a1 fs = []).
  { unfold current_records. by rewrite Hempty, lookup_empty. }
  assert (Hcsv : base2new_csv a2 = base2new_csv a1).
  { unfold base2new_csv. unfold args_key in Hkey. by injection Hkey as -> _ _ _. }
  assert (H1 : log_base2new_result a1 m1 now1 fs
               = (set_table (base2new_csv a1)
                    [base2new_fieldnames;
                     [model a1; or_default (checkpoint a1) "N/A"; dataset a1;
                      str_int (shot a1); str_int (seed a1); repr_float b; ""; "";
                      format_2f t1; now1; notes a1]] fs, Ok tt)).
  { rewrite (create_outcome a1 m1 now1 fs _ Hok
               ltac:(rewrite Hrecs; apply not_elem_of_nil) (new_row_written a1 m1 now1)).
    rewrite Hrecs. unfold accuracy_or_na, eval_time_cell. rewrite Hm1, Hs1, Ht1.
    cbn [from_option Datatypes.id format_2f_val bind str app]. done. }
  assert (Hok1 : ledger_ok fs1) by (subst fs1; by apply ingest_preserves).
  subst fs1. rewrite H1 in *. cbn [fst snd] in *. split; [done|].
  set (fs1 := set_table _ _ fs) in *.
  assert (Hcur : current_records a2 fs1
                 = [[model a1; or_default (checkpoint a1) "N/A"; dataset a1;
                     str_int (shot a1); str_int (seed a1); repr_float b; ""; "";
                     format_2f t1; now1; notes a1]]).
  { unfold current_records. rewrite Hcsv. subst fs1. unfold set_table. cbn [tables].
    by rewrite lookup_insert_eq. }
  destruct (update_row_cells a2 m2 now2
              (read_record base2new_fieldnames
                 [model a1; or_default (checkpoint a1) "N/A"; dataset a1;
                  str_int (shot a1); str_int (seed a1); repr_float b; ""; "";
                  format_2f t1; now1; notes a1])
              _ _ _ _ _ _ _ _ _ _ _ n (Qred b) (round_2 t1)
              (read_record_cells _ _ _ _ _ _ _ _ _ _ _) Hm2 Hn)
    as (r' & Hup & Hcells).
  { rewrite Hs2. cbn [other_cell]. by apply repr_float_read_back. }
  { right. by apply format_2f_read_back. }
  rewrite (merge_outcome a2 m2 now2 fs1 0 _ r' _ Hok1
             ltac:(by rewrite Hcur) ltac:(rewrite Hkey; reflexivity) Hup Hcells).
  cbn [fst snd]. unfold accuracy_or_na. rewrite Hm2.
  cbn [from_option Datatypes.id format_2f_val bind]. split; [done|].
  unfold set_table. cbn [tables]. rewrite Hcsv, lookup_insert_eq, Hcur.
  rewrite Hs2, Ht2. cbn [phase_cells phase_mean fst snd].
  rewrite (format_2f_comp (h_mean (Qred b) n) (h_mean b n))
    by apply h_mean_comp, Qred_correct.
  reflexivity.
Qed.

Lemma base_then_new_fills_record_witness :
  snd (log_base2new_result (run Base2New "base/log.txt" (Some Base) (Some 120%Q))
         {[ "accuracy" := VFloat 80%Q ]} "t1" some_logs) = Ok tt
  /\ snd (log_base2new_result (run Base2New "new/log.txt" (Some New) (Some 30%Q))
            {[ "accuracy" := VFloat 60%Q ]} "t2"
            (fst (log_base2new_result (run Base2New "base/log.txt" (Some Base) (Some 120%Q))
                    {[ "accuracy" := VFloat 80%Q ]} "t1" some_logs))) = Ok tt
  /\ tables (fst (log_base2new_result (run Base2New "new/log.txt" (Some New) (Some 30%Q))
                    {[ "accuracy" := VFloat 60%Q ]} "t2"
                    (fst (log_base2new_result
                            (run Base2New "base/log.txt" (Some Base) (Some 120%Q))
                            {[ "accuracy" := VFloat 80%Q ]} "t1" some_logs))))
       !! "base2new_M.csv"
     = Some [base2new_fieldnames;
             ["M"; "N/A"; "btmri"; "16"; "1"; "80.0"; "60.0"; "68.57"; "150.00"; "t2"; ""]].
Proof.
  pose proof (base_then_new_fills_record
                (run Base2New "base/log.txt" (Some Base) (Some 120%Q))
                (run Base2New "new/log.txt" (Some New) (Some 30%Q))
                {[ "accuracy" := VFloat 80%Q ]} {[ "accuracy" := VFloat 60%Q ]}
                "t1" "t2" some_logs 80 60 120 30
                eq_refl eq_refl eq_refl eq_refl eq_refl
                ltac:(discriminate) ltac:(unfold prints_exactly; vm_compute; discriminate)
                eq_refl ltac:(discriminate) eq_refl ltac:(discriminate) eq_refl) as H.
  vm_compute in H. vm_compute. exact H.
Defined.

End TwoPhaseTheory.

(** ** Merges that meet an unreadable cell *)

Module MergeErrorTheory.
Import Py LogResults Ledger RowCells Examples LedgerTheory LedgerClaims MergeTheory.

(** The whole call when the update of the matching record raises. *)
Lemma merge_raises (a : args) (metrics : gmap string val) (now : string) (fs : filesystem)
    (j : nat) (c : list string) (e : exn) :
  ledger_ok fs ->
  current_records a fs !! j = Some c -> record_key c = args_key a ->
  update_row a metrics now (read_record base2new_fieldnames c) = Raise e ->
  log_base2new_result a metrics now fs = (fs, Raise e).
Proof.
  intros Hok Hj Hkey Hup.
  destruct (existing_rows_read a fs Hok) as ((Hlen & Hnd) & Hread & _).
  unfold log_base2new_result. rewrite Hread. unfold merge_rows.
  destruct (find_matching_spec a (current_records a fs) 0 Hlen)
    as [[_ Hnew]|(j0 & c0 & -> & Hj0 & Hk0)]; cbn [bind].
  - exfalso. apply Hnew. apply list_elem_of_fmap. exists c. split; [done|].
    by apply list_elem_of_lookup_2 in Hj.
  - assert (j0 = j) as ->.
    { eapply NoDup_lookup; [exact Hnd| |].
      - rewrite list_lookup_fmap, Hj0. simpl. by rewrite Hk0.
      - rewrite list_lookup_fmap, Hj. simpl. by rewrite Hkey. }
    cbn [Nat.add]. rewrite list_lookup_fmap, Hj. cbn [fmap option_fmap option_map].
    by rewrite Hup.
Qed.

Lemma update_row_unreadable_time (a : args) (metrics : gmap string val) (now : string)
    (r : row_t) (s : string) (t : Q) (e : exn) :
  r !! Some "eval_time" = Some (VStr s) ->
  supplied_time a = Some t -> float_of_string s = Raise e ->
  update_row a metrics now r = Raise ValueError.
Proof.
  intros Hr Ht Hs. pose proof (float_of_string_raises _ _ Hs) as ->.
  unfold update_row.
  set (r1 := match subtask a with
             | Some Base => <[Some "base_acc" := accuracy_or_na metrics]> r
             | _ => <[Some "new_acc" := accuracy_or_na metrics]> r
             end).
  assert (H1 : r1 !! Some "eval_time" = Some (VStr s)).
  { subst r1. destruct (subtask a) as [[|]|]; by rewrite lookup_insert_ne. }
  clearbody r1. unfold update_eval_time. rewrite Ht.
  destruct (update_harmonic_mean_cases r1) as [->|[h ->]]; cbn [bind];
    rewrite ?lookup_insert_ne by done; rewrite H1;
    cbn [from_option Datatypes.id float]; by rewrite Hs.
Qed.

Lemma read_record_time_cell (c : list string) :
  length c = 11%nat ->
  read_record base2new_fieldnames c !! Some "eval_time" = Some (VStr (nth 8 c "")).
Proof.
  intros H. destruct (length_11 c H) as (c0&c1&c2&c3&c4&c5&c6&c7&c8&c9&c10&->).
  vm_compute. reflexivity.
Qed.

(** X11.  An ingest that supplies a time and finds its record with a time
    cell that [float] refuses (such as ["N/A"], written when the first
    ingest had no time) raises [ValueError] and leaves every table as
    it was: neither the time nor the accuracy of this ingest is
    recorded. *)
Theorem merge_with_unreadable_time_changes_nothing (a : args) (metrics : gmap string val)
    (now : string) (fs : filesystem) (j : nat) (c : list string) (t : Q) (e : exn) :
  ledger_ok fs ->
  current_records a fs !! j = Some c -> record_key c = args_key a ->
  supplied_time a = Some t ->
  float_of_string (nth 8 c "") = Raise e ->
  log_base2new_result a metrics now fs = (fs, Raise ValueError).
Proof.
  intros Hok Hj Hkey Ht Hc.
  destruct (existing_rows_read a fs Hok) as ((Hlen & _) & _ & _).
  assert (Hlc : length c = 11%nat) by (eapply Forall_lookup_1 in Hlen; [|exact Hj]; done).
  apply (merge_raises a metrics now fs j c ValueError Hok Hj Hkey).
  by apply (update_row_unreadable_time a metrics now _ (nth 8 c "") t e
              (read_record_time_cell c Hlc)).
Qed.

Lemma merge_with_unreadable_time_changes_nothing_witness :
  log_base2new_result (run Base2New "new/log.txt" (Some New) (Some 30%Q))
    {[ "accuracy" := VFloat 60%Q ]} "t2"
    (ingest_all [(run Base2New "base/log.txt" (Some Base) None,
                  {[ "accuracy" := VFloat 80%Q ]}, "t1")] some_logs)
  = (ingest_all [(run Base2New "base/log.txt" (Some Base) None,
                  {[ "accuracy" := VFloat 80%Q ]}, "t1")] some_logs,
     Raise ValueError).
Proof.
  apply (merge_with_unreadable_time_changes_nothing
           (run Base2New "new/log.txt" (Some New) (Some 30%Q))
           {[ "accuracy" := VFloat 60%Q ]} "t2"
           (ingest_all [(run Base2New "base/log.txt" (Some Base) None,
                         {[ "accuracy" := VFloat 80%Q ]}, "t1")] some_logs)
           0 ["M"; "N/A"; "btmri"; "16"; "1"; "80.0"; ""; ""; "N/A"; "t1"; ""]
           30 ValueError).
  - apply ingest_all_preserves. by apply ledger_ok_empty.
  - vm_compute. reflexivity.
  - reflexivity.
  - reflexivity.
  - reflexivity.
Defined.

(** The update branch when the other phase's accuracy cell holds a text
    that [float] refuses. *)
Lemma update_row_unreadable_accuracy (a : args) (metrics : gmap string val) (now : string)
    (r : row_t) c0 c1 c2 c3 c4 c5 c6 c7 c8 c9 c10 (n : Q) (e : exn) :
  row_cells r (VStr <$> [c0; c1; c2; c3; c4; c5; c6; c7; c8; c9; c10]) ->
  metrics !! "accuracy" = Some (VFloat n) -> ~ (n == 0)%Q ->
  other_cell (subtask a) c5 c6 <> "" ->
  float_of_string (other_cell (subtask a) c5 c6) = Raise e ->
  supplied_time a = None ->
  exists r',
    update_row a metrics now r = Ok r'
    /\ dict_to_list base2new_fieldnames r'
       = Ok [c0; c1; c2; c3; c4;
             (phase_cells (subtask a) (repr_float n) c5 c6).1;
             (phase_cells (subtask a) (repr_float n) c5 c6).2;
             "N/A"; c8; now; c10].
Proof.
  intros Hr Hacc Hn Hne Ho Ht.
  pose proof (float_of_string_raises _ _ Ho) as ->.
  assert (Hnz : Qeq_bool n 0 = false).
  { destruct (Qeq_bool n 0) eqn:E; [|done]. by apply Qeq_bool_iff in E. }
  unfold update_row, accuracy_or_na. rewrite Hacc.
  change (default (VStr "N/A") (Some (VFloat n))) with (VFloat n).
  set (i := match subtask a with Some Base => 5%nat | _ => 6%nat end).
  set (r1 := match subtask a with
             | Some Base => <[Some "base_acc" := VFloat n]> r
             | _ => <[Some "new_acc" := VFloat n]> r
             end).
  assert (H1 : row_cells r1 (<[i := VFloat n]>
                               (VStr <$> [c0; c1; c2; c3; c4; c5; c6; c7; c8; c9; c10]))).
  { subst r1 i. destruct (subtask a) as [[|]|];
      (apply row_cells_insert; [exact Hr|reflexivity]). }
  clearbody r1.
  assert (Hb : r1 !! Some "base_acc"
               = Some (match subtask a with Some Base => VFloat n | _ => VStr c5 end)).
  { apply (row_cells_lookup _ _ 5 _ _ H1); [done|]. subst i.
    by destruct (subtask a) as [[|]|]. }
  assert (Hw : r1 !! Some "new_acc"
               = Some (match subtask a with Some Base => VStr c6 | _ => VFloat n end)).
  { apply (row_cells_lookup _ _ 6 _ _ H1); [done|]. subst i.
    by destruct (subtask a) as [[|]|]. }
  assert (Hhm : update_harmonic_mean r1 = Ok (<[Some "harmonic_mean" := VStr "N/A"]> r1)).
  { unfold update_harmonic_mean, get, getitem. rewrite Hb, Hw.
    unfold other_cell in *.
    destruct (subtask a) as [[|]|]; unfold Datatypes.id;
      cbn [from_option truthy float bind];
      rewrite Hnz; apply String.eqb_neq in Hne; rewrite Hne; cbn [negb andb];
      rewrite Ho; cbn [bind]; done. }
  rewrite Hhm. cbn [bind].
  pose proof (row_cells_insert _ _ 7 "harmonic_mean" (VStr "N/A") H1 eq_refl) as H2.
  set (r2 := <[Some "harmonic_mean" := _]> r1) in *. clearbody r2.
  unfold update_eval_time. rewrite Ht. cbn [bind].
  pose proof (row_cells_insert _ _ 9 "timestamp" (VStr now) H2 eq_refl) as H4.
  eexists. split; [done|]. rewrite (row_cells_written _ _ H4).
  subst i. unfold phase_cells. by destruct (subtask a) as [[|]|].
Qed.

(** X10.  When the other phase's accuracy cell holds a text that is not a
    number (such as ["N/A"], written for a log without metrics), the
    ingest does not raise on it: the harmonic mean is recorded as
    ["N/A"] and the accuracy of the ingested phase is stored. *)
Theorem merge_with_unreadable_accuracy_records_unavailable (a : args)
    (metrics : gmap string val) (now : string) (fs : filesystem) (j : nat)
    (c0 c1 c2 c3 c4 c5 c6 c7 c8 c9 c10 : string) (n : Q) (e : exn) :
  ledger_ok fs ->
  current_records a fs !! j = Some [c0; c1; c2; c3; c4; c5; c6; c7; c8; c9; c10] ->
  (c0, c2, c3, c4) = args_key a ->
  metrics !! "accuracy" = Some (VFloat n) -> ~ (n == 0)%Q ->
  other_cell (subtask a) c5 c6 <> "" ->
  float_of_string (other_cell (subtask a) c5 c6) = Raise e ->
  supplied_time a = None ->
  log_base2new_result a metrics now fs
  = (set_table (base2new_csv a)
       (base2new_fieldnames ::
        <[j := [c0; c1; c2; c3; c4;
                (phase_cells (subtask a) (repr_float n) c5 c6).1;
                (phase_cells (subtask a) (repr_float n) c5 c6).2;
                "N/A"; c8; now; c10]]> (current_records a fs)) fs,
     Ok tt).
Proof.
  intros Hok Hj Hkey Hacc Hn Hne Ho Ht.
  destruct (update_row_unreadable_accuracy a metrics now _ c0 c1 c2 c3 c4 c5 c6 c7 c8 c9 c10
              n e (read_record_cells c0 c1 c2 c3 c4 c5 c6 c7 c8 c9 c10) Hacc Hn Hne Ho Ht)
    as (r' & Hup & Hcells).
  rewrite (merge_outcome a metrics now fs j _ r' _ Hok Hj Hkey Hup Hcells).
  unfold accuracy_or_na. by rewrite Hacc.
Qed.

Lemma merge_with_unreadable_accuracy_records_unavailable_witness :
  log_base2new_result (run Base2New "new/log.txt" (Some New) None)
    {[ "accuracy" := VFloat 60%Q ]} "t2"
    (ingest_all [(run Base2New "missing/log.txt" (Some Base) None,
                  {[ "accuracy" := VStr "N/A" ]}, "t1")] some_logs)
  = (set_table "base2new_M.csv"
       [base2new_fieldnames;
        ["M"; "N/A"; "btmri"; "16"; "1"; "N/A"; "60.0"; "N/A"; "N/A"; "t2"; ""]]
       (ingest_all [(run Base2New "missing/log.txt" (Some Base) None,
                     {[ "accuracy" := VStr "N/A" ]}, "t1")] some_logs),
     Ok tt).
Proof.
  rewrite (merge_with_unreadable_accuracy_records_unavailable
             (run Base2New "new/log.txt" (Some New) None)
             {[ "accuracy" := VFloat 60%Q ]} "t2"
             (ingest_all [(run Base2New "missing/log.txt" (Some Base) None,
                           {[ "accuracy" := VStr "N/A" ]}, "t1")] some_logs)
             0 "M" "N/A" "btmri" "16" "1" "N/A" "" "" "N/A" "t1" "" 60 ValueError).
  - vm_compute. reflexivity.
  - apply ingest_all_preserves. by apply ledger_ok_empty.
  - vm_compute. reflexivity.
  - reflexivity.
  - reflexivity.
  - discriminate.
  - discriminate.
  - reflexivity.
  - reflexivity.
Defined.

End MergeErrorTheory.

(** ** A single value *)

Module SingleValueTheory.
Import Py Aggregate Examples.

Lemma mean_singleton (x : Q) : (Np.mean [x] == x)%Q.
Proof. unfold Np.mean, Np.sum. simpl. field. Qed.

Lemma var_singleton (x : Q) : (Np.var [x] == 0)%Q.
Proof.
  unfold Np.var. cbv zeta. cbn [map]. rewrite mean_singleton.
  assert (E : (x - Np.mean [x] == 0)%Q) by (rewrite mean_singleton; ring).
  rewrite E. reflexivity.
Qed.

Lemma std_singleton (x : Q) : Np.std [x] = 0%R.
Proof.
  unfold Np.std. rewrite (Qeq_eqR _ _ (var_singleton x)).
  replace (Q2R 0) with 0%R by (unfold Q2R; simpl; lra). apply sqrt_0.
Qed.

(** X13.  A directory in which exactly one seed yields an accuracy gives that
    accuracy as the mean and a standard deviation of zero. *)
Theorem single_seed_has_zero_deviation (directory : directory_t) (x : Q) :
  collect_accuracies directory [] = Ok [x] ->
  exists m, parse_single_result directory = Ok (Some (m, 0%R)) /\ (m == x)%Q.
Proof.
  intros H. unfold parse_single_result. rewrite H. cbn [bind].
  exists (Np.mean [x]). split; [by rewrite std_singleton|apply mean_singleton].
Qed.

Lemma single_seed_has_zero_deviation_witness :
  exists m, parse_single_result [("seed1", Some (result_log "81.5")); ("seed2", None)]
            = Ok (Some (m, 0%R))
            /\ (m == 163 # 2)%Q.
Proof.
  apply (single_seed_has_zero_deviation
           [("seed1", Some (result_log "81.5")); ("seed2", None)] (163 # 2)).
  vm_compute. reflexivity.
Defined.

End SingleValueTheory.
